(** * Synergy Wholesale exporter: a shallow embedding and its properties

    The development follows the two Go packages of the repository:
    [synergywholesaleapi] (the SOAP request and response shapes, the date
    conversion, the HTTP exchange) and [main] (the cache in front of the
    upstream API and the Prometheus collector).

    Go strings are byte strings: they are modelled by [string], whose
    characters are the 256 byte values.  [int64] and [int] values are
    integers in [Z], with the wrap-around of the machine arithmetic written
    out where the program adds.  The parts of the Go standard library and of
    the Prometheus client the program calls are modelled in the modules
    [utf8], [strconv], [strings], [time], [xml] and [prometheus]. *)

From Stdlib Require Import ZArith List String Ascii Bool Lia.
Import ListNotations.

Local Open Scope string_scope.
Local Open Scope Z_scope.

(** ** Machine integers and conversions *)

(** The value of a byte of a Go string. *)
Definition byteZ (c : ascii) : Z := Z.of_N (N_of_ascii c).

(** Two's complement reduction to 64 bits: what [int64] arithmetic keeps. *)
Definition wrap64 (z : Z) : Z := (z + 2 ^ 63) mod 2 ^ 64 - 2 ^ 63.

Definition add64 (a b : Z) : Z := wrap64 (a + b).

Definition minInt64 : Z := - 2 ^ 63.
Definition maxInt64 : Z := 2 ^ 63 - 1.

Definition inInt64 (z : Z) : bool := (minInt64 <=? z) && (z <=? maxInt64).

(** [float64(z)] for an integer [z]: the conversion rounds to the nearest
    value with a 53-bit significand, ties to even.  Every such value is an
    integer again, so the result is given by the integer it denotes. *)
Definition float64 (z : Z) : Z :=
  let a := Z.abs z in
  if a <? 2 ^ 53 then z
  else
    let e := Z.log2 a - 52 in
    let q := Z.shiftr a e in
    let r := a - Z.shiftl q e in
    let half := Z.shiftl 1 (e - 1) in
    let q' := if (half <? r) || ((r =? half) && Z.odd q) then q + 1 else q in
    Z.sgn z * Z.shiftl q' e.

(** ** Package unicode/utf8 *)

Module utf8.

Definition RuneError : Z := 0xFFFD.

(** [utf8.DecodeRuneInString]: the first rune of [s] and its width in
    bytes; [(RuneError, 1)] for an invalid encoding, [(RuneError, 0)] for
    the empty string. *)
Definition DecodeRuneInString (s : string) : Z * nat :=
  match s with
  | EmptyString => (RuneError, 0%nat)
  | String c0 t0 =>
    let s0 := byteZ c0 in
    if s0 <? 0x80 then (s0, 1%nat)
    else if (s0 <? 0xC2) || (0xF4 <? s0) then (RuneError, 1%nat)
    else
      let sz := if s0 <? 0xE0 then 2%nat else if s0 <? 0xF0 then 3%nat else 4%nat in
      let lo := if s0 =? 0xE0 then 0xA0 else if s0 =? 0xF0 then 0x90 else 0x80 in
      let hi := if s0 =? 0xED then 0x9F else if s0 =? 0xF4 then 0x8F else 0xBF in
      if (String.length s <? sz)%nat then (RuneError, 1%nat)
      else
        match t0 with
        | EmptyString => (RuneError, 1%nat)
        | String c1 t1 =>
          let s1 := byteZ c1 in
          if (s1 <? lo) || (hi <? s1) then (RuneError, 1%nat)
          else if (sz <=? 2)%nat then
            (Z.lor (Z.shiftl (Z.land s0 0x1F) 6) (Z.land s1 0x3F), 2%nat)
          else
            match t1 with
            | EmptyString => (RuneError, 1%nat)
            | String c2 t2 =>
              let s2 := byteZ c2 in
              if (s2 <? 0x80) || (0xBF <? s2) then (RuneError, 1%nat)
              else if (sz <=? 3)%nat then
                (Z.lor (Z.lor (Z.shiftl (Z.land s0 0x0F) 12)
                              (Z.shiftl (Z.land s1 0x3F) 6))
                       (Z.land s2 0x3F), 3%nat)
              else
                match t2 with
                | EmptyString => (RuneError, 1%nat)
                | String c3 _ =>
                  let s3 := byteZ c3 in
                  if (s3 <? 0x80) || (0xBF <? s3) then (RuneError, 1%nat)
                  else
                    (Z.lor (Z.lor (Z.lor (Z.shiftl (Z.land s0 0x07) 18)
                                         (Z.shiftl (Z.land s1 0x3F) 12))
                                  (Z.shiftl (Z.land s2 0x3F) 6))
                           (Z.land s3 0x3F), 4%nat)
                end
            end
        end
  end.

(** Drop [n] bytes. *)
Fixpoint skipn (n : nat) (s : string) : string :=
  match n, s with
  | O, _ => s
  | S _, EmptyString => EmptyString
  | S n', String _ t => skipn n' t
  end.

(** [utf8.ValidString]: every rune of [s] decodes.  The loop advances by
    the width of the decoded rune, at least one byte, so the length of the
    string bounds the number of iterations. *)
Fixpoint ValidString_loop (fuel : nat) (s : string) : bool :=
  match fuel with
  | O => true
  | S fuel' =>
    match s with
    | EmptyString => true
    | _ =>
      let '(r, w) := DecodeRuneInString s in
      if (r =? RuneError) && (w =? 1)%nat then false
      else ValidString_loop fuel' (skipn w s)
    end
  end.

Definition ValidString (s : string) : bool :=
  ValidString_loop (String.length s) s.

End utf8.

(** ** Package time

    The part of Go's [time] package behind [time.ParseInLocation] with the
    layout of the source and behind [Time.Unix]. *)

Module time.

(** A location answers, for an instant in Unix seconds, the offset east of
    UTC in force and the bounds [start <= t < end] of the period it holds
    for: [Location.lookup]. *)
Record Location : Type := mkLocation {
  lookup : Z -> Z * Z * Z
}.

(** An instant: seconds since the Unix epoch and nanoseconds within the
    second.  The location a [Time] carries changes how it prints, not the
    instant, and is left out. *)
Record Time : Type := mkTime {
  unixSec : Z;
  nsec : Z
}.

Definition UTC (t : Time) : Time := t.
Definition Unix (t : Time) : Z := unixSec t.

(** The elements of a layout [nextStdChunk] recognises in the layout of the
    source. *)
Inductive std : Type :=
| stdLongYear      (* "2006" *)
| stdZeroMonth     (* "01" *)
| stdZeroDay       (* "02" *)
| stdHour          (* "15" *)
| stdZeroMinute    (* "04" *)
| stdZeroSecond.   (* "05" *)

(** The successive results [(prefix, std)] of [nextStdChunk] on the layout
    ["2006-01-02 15:04:05"]; the last call finds no element ([std = 0]) and
    an empty prefix. *)
Definition layoutChunks : list (string * option std) :=
  [ ("", Some stdLongYear); ("-", Some stdZeroMonth); ("-", Some stdZeroDay);
    (" ", Some stdHour); (":", Some stdZeroMinute); (":", Some stdZeroSecond);
    ("", None) ].

Inductive ParseError : Type :=
| errBad                 (* the value does not match the layout *)
| errExtraText
| errRange (what : string).

Definition isDigitChar (c : ascii) : bool :=
  (byteZ "0" <=? byteZ c) && (byteZ c <=? byteZ "9").

Definition isDigit (s : string) (i : nat) : bool :=
  match String.get i s with
  | Some c => isDigitChar c
  | None => false
  end.

Definition digitVal (c : ascii) : Z := byteZ c - byteZ "0".

Fixpoint cutspace (s : string) : string :=
  match s with
  | String " " t => cutspace t
  | _ => s
  end.

(** [skip]: remove [prefix] from [value]; a run of spaces in the layout
    matches a run of spaces in the value.  Each iteration shortens the
    prefix, whose length bounds the loop. *)
Fixpoint skip_loop (fuel : nat) (value prefix : string) : option string :=
  match prefix with
  | EmptyString => Some value
  | String p prefix' =>
    match fuel with
    | O => None
    | S fuel' =>
      if Ascii.eqb p " " then
        match value with
        | String v _ =>
          if negb (Ascii.eqb v " ") then None
          else skip_loop fuel' (cutspace value) (cutspace prefix)
        | EmptyString => skip_loop fuel' (cutspace value) (cutspace prefix)
        end
      else
        match value with
        | String v value' =>
          if Ascii.eqb v p then skip_loop fuel' value' prefix' else None
        | EmptyString => None
        end
    end
  end.

Definition skip (value prefix : string) : option string :=
  skip_loop (String.length prefix) value prefix.

(** [getnum]: a one- or two-digit number; two digits are required when
    [fixed]. *)
Definition getnum (s : string) (fixed : bool) : option (Z * string) :=
  match s with
  | String c0 t0 =>
    if negb (isDigitChar c0) then None
    else
      match t0 with
      | String c1 t1 =>
        if isDigitChar c1 then Some (digitVal c0 * 10 + digitVal c1, t1)
        else if fixed then None else Some (digitVal c0, t0)
      | EmptyString => if fixed then None else Some (digitVal c0, t0)
      end
  | EmptyString => None
  end.

(** [leadingInt]: the digits [s] starts with, as a number, and the rest;
    [None] when the number passes [1 << 63]. *)
Fixpoint leadingInt (x : Z) (s : string) : option (Z * string) :=
  match s with
  | String c t =>
    if isDigitChar c then
      if 2 ^ 63 / 10 <? x then None
      else
        let x' := x * 10 + digitVal c in
        if 2 ^ 63 <? x' then None else leadingInt x' t
    else Some (x, s)
  | EmptyString => Some (x, s)
  end.

(** [atoi]: an optional sign and digits, nothing after them. *)
Definition atoi (s : string) : option Z :=
  let '(neg, s) :=
    match s with
    | String "-" t => (true, t)
    | String "+" t => (false, t)
    | _ => (false, s)
    end in
  match leadingInt 0 s with
  | Some (q, EmptyString) => let x := wrap64 q in Some (if neg then wrap64 (- x) else x)
  | _ => None
  end.

Definition commaOrPeriod (c : ascii) : bool :=
  Ascii.eqb c "." || Ascii.eqb c ",".

Fixpoint takeDigits (s : string) : string * string :=
  match s with
  | String c t =>
    if isDigitChar c then let '(d, r) := takeDigits t in (String c d, r)
    else (EmptyString, s)
  | EmptyString => (EmptyString, s)
  end.

Fixpoint take (n : nat) (s : string) : string :=
  match n, s with
  | S n', String c t => String c (take n' t)
  | _, _ => EmptyString
  end.

(** [parseNanoseconds] on [value = sep ++ digits], [nbytes = 1 + length
    digits]: at most nine digits count, scaled to nanoseconds. *)
Definition parseNanoseconds (digits : string) : option Z :=
  let digits := take 9 digits in
  match atoi digits with
  | Some ns => Some (ns * 10 ^ (9 - Z.of_nat (String.length digits)))
  | None => None
  end.

Definition isLeap (year : Z) : bool :=
  (year mod 4 =? 0) && (negb (year mod 100 =? 0) || (year mod 400 =? 0)).

Definition daysBefore (month : Z) : Z :=
  nth (Z.to_nat month) [0; 31; 59; 90; 120; 151; 181; 212; 243; 273; 304; 334; 365] 0.

Definition daysIn (month year : Z) : Z :=
  if (month =? 2) && isLeap year then 29
  else daysBefore month - daysBefore (month - 1).

(** The fields [Parse] collects. *)
Record fields : Type := mkFields {
  f_year : Z; f_month : Z; f_day : Z;
  f_hour : Z; f_min : Z; f_sec : Z; f_nsec : Z
}.

Definition fields0 : fields := mkFields 0 (-1) (-1) 0 0 0 0.

(** One element of the layout read off the value: the [switch std] of
    [parse]. *)
Definition parseStd (s : std) (value : string) (st : fields)
  : ParseError + (fields * string) :=
  match s with
  | stdLongYear =>
    if (String.length value <? 4)%nat || negb (isDigit value 0) then inl errBad
    else
      match atoi (take 4 value) with
      | Some year =>
        inr (mkFields year (f_month st) (f_day st) (f_hour st) (f_min st) (f_sec st) (f_nsec st),
             utf8.skipn 4 value)
      | None => inl errBad
      end
  | stdZeroMonth =>
    match getnum value true with
    | Some (month, value') =>
      if (month <=? 0) || (12 <? month) then inl (errRange "month")
      else inr (mkFields (f_year st) month (f_day st) (f_hour st) (f_min st) (f_sec st) (f_nsec st),
                value')
    | None => inl errBad
    end
  | stdZeroDay =>
    (* any one- or two-digit day passes here; the date is checked at the end *)
    match getnum value true with
    | Some (day, value') =>
      inr (mkFields (f_year st) (f_month st) day (f_hour st) (f_min st) (f_sec st) (f_nsec st),
           value')
    | None => inl errBad
    end
  | stdHour =>
    match getnum value false with
    | Some (hour, value') =>
      if (hour <? 0) || (24 <=? hour) then inl (errRange "hour")
      else inr (mkFields (f_year st) (f_month st) (f_day st) hour (f_min st) (f_sec st) (f_nsec st),
                value')
    | None => inl errBad
    end
  | stdZeroMinute =>
    match getnum value true with
    | Some (min, value') =>
      if (min <? 0) || (60 <=? min) then inl (errRange "minute")
      else inr (mkFields (f_year st) (f_month st) (f_day st) (f_hour st) min (f_sec st) (f_nsec st),
                value')
    | None => inl errBad
    end
  | stdZeroSecond =>
    match getnum value true with
    | Some (sec, value') =>
      if (sec <? 0) || (60 <=? sec) then inl (errRange "second")
      else
        let st' := mkFields (f_year st) (f_month st) (f_day st) (f_hour st) (f_min st) sec (f_nsec st) in
        (* a fractional second in the value, none in the layout *)
        match value' with
        | String sep (String d rest) =>
          if commaOrPeriod sep && isDigitChar d then
            let '(digits, value'') := takeDigits (String d rest) in
            match parseNanoseconds digits with
            | Some ns =>
              inr (mkFields (f_year st) (f_month st) (f_day st) (f_hour st) (f_min st) sec ns,
                   value'')
            | None => inl errBad
            end
          else inr (st', value')
        | _ => inr (st', value')
        end
    | None => inl errBad
    end
  end.

(** The loop of [parse] over the elements of the layout. *)
Fixpoint parseChunks (chunks : list (string * option std)) (value : string)
    (st : fields) : ParseError + fields :=
  match chunks with
  | [] => inr st
  | (prefix, ostd) :: rest =>
    match skip value prefix with
    | None => inl errBad
    | Some value =>
      match ostd with
      | None => if (String.length value =? 0)%nat then inr st else inl errExtraText
      | Some s =>
        match parseStd s value st with
        | inl e => inl e
        | inr (st', value') => parseChunks rest value' st'
        end
      end
    end
  end.

(** Leap years among the years [1 .. n]. *)
Definition leapsThrough (n : Z) : Z := n / 4 - n / 100 + n / 400.

(** [time.Date] on fields [Parse] has validated (so that nothing is
    normalised): the seconds since the Unix epoch of the civil time read as
    UTC, then moved by the offset the location gives. *)
Definition Date (st : fields) (l : Location) : Time :=
  let year := f_year st in
  let month := f_month st in
  let d := 365 * (year - 1970) + (leapsThrough (year - 1) - leapsThrough 1969) in
  let d := d + daysBefore (month - 1) in
  let d := if isLeap year && (3 <=? month) then d + 1 else d in
  let d := d + (f_day st - 1) in
  let unix := d * 86400 + (f_hour st * 3600 + f_min st * 60 + f_sec st) in
  let '(offset, start, end_) := lookup l unix in
  let unix :=
    if offset =? 0 then unix
    else
      let utc := unix - offset in
      let offset :=
        if (utc <? start) || (end_ <=? utc) then fst (fst (lookup l utc)) else offset in
      unix - offset in
  mkTime unix (f_nsec st).

(** [time.ParseInLocation] with the layout of the source. *)
Definition ParseInLocation (chunks : list (string * option std)) (value : string)
    (l : Location) : ParseError + Time :=
  match parseChunks chunks value fields0 with
  | inl e => inl e
  | inr st =>
    let st :=
      mkFields (f_year st)
               (if f_month st <? 0 then 1 else f_month st)
               (if f_day st <? 0 then 1 else f_day st)
               (f_hour st) (f_min st) (f_sec st) (f_nsec st) in
    if (f_day st <? 1) || (daysIn (f_month st) (f_year st) <? f_day st)
    then inl (errRange "day")
    else inr (Date st l)
  end.

(** Modelled from the spec: the time zone database [time.LoadLocation]
    reads is not part of the repository (the image is built with the
    [timetzdata] tag).  The spec gives Australia/Brisbane as a fixed zone,
    UTC+10 without daylight saving: one period, from the least to the
    greatest instant. *)
Definition Brisbane : Location :=
  mkLocation (fun _ => (36000, minInt64, maxInt64)).

(** [time.LoadLocation], for the one name the source asks for. *)
Definition LoadLocation (name : string) : option Location :=
  if String.eqb name "Australia/Brisbane" then Some Brisbane else None.

End time.

(** ** Characters the models name *)

Definition dquote : ascii := "034"%char.
Definition newline : ascii := "010"%char.
Definition tab : ascii := "009"%char.
Definition creturn : ascii := "013"%char.

Definition str (c : ascii) : string := String c EmptyString.

(** ** Package encoding/xml *)

Module xml.

Record Name : Type := mkName {
  Space : string;
  Local : string
}.

Record Attr : Type := mkAttr {
  AttrName : Name;
  Value : string
}.

Definition Name_eqb (a b : Name) : bool :=
  String.eqb (Space a) (Space b) && String.eqb (Local a) (Local b).

(** [xml.Header] *)
Definition Header : string :=
  "<?xml version=" ++ str dquote ++ "1.0" ++ str dquote
  ++ " encoding=" ++ str dquote ++ "UTF-8" ++ str dquote ++ "?>" ++ str newline.

(** *** Escaping *)

Definition isInCharacterRange (r : Z) : bool :=
  (r =? 0x09) || (r =? 0x0A) || (r =? 0x0D)
  || ((0x20 <=? r) && (r <=? 0xD7FF))
  || ((0xE000 <=? r) && (r <=? 0xFFFD))
  || ((0x10000 <=? r) && (r <=? 0x10FFFF)).

(** U+FFFD in UTF-8. *)
Definition escFFFD : string :=
  String "239"%char (String "191"%char (String "189"%char EmptyString)).

(** What [escapeText] writes for one rune [r] read from the bytes [raw]
    ([width] of them). *)
Definition escapeRune (r : Z) (width : nat) (raw : string) (escapeNewline : bool)
  : string :=
  if r =? byteZ dquote then "&#34;"
  else if r =? byteZ "'" then "&#39;"
  else if r =? byteZ "&" then "&amp;"
  else if r =? byteZ "<" then "&lt;"
  else if r =? byteZ ">" then "&gt;"
  else if r =? byteZ tab then "&#x9;"
  else if r =? byteZ newline then (if escapeNewline then "&#xA;" else raw)
  else if r =? byteZ creturn then "&#xD;"
  else if negb (isInCharacterRange r) || ((r =? utf8.RuneError) && (width =? 1)%nat)
       then escFFFD
  else raw.

(** [escapeText]: the loop reads one rune at a time (at least one byte),
    so the length of the string bounds it. *)
Fixpoint escapeText_loop (fuel : nat) (s : string) (escapeNewline : bool) : string :=
  match fuel with
  | O => EmptyString
  | S fuel' =>
    match s with
    | EmptyString => EmptyString
    | _ =>
      let '(r, width) := utf8.DecodeRuneInString s in
      escapeRune r width (time.take width s) escapeNewline
      ++ escapeText_loop fuel' (utf8.skipn width s) escapeNewline
    end
  end.

(** [printer.EscapeString] and [EscapeText]: new lines are escaped. *)
Definition EscapeString (s : string) : string :=
  escapeText_loop (String.length s) s true.

(** *** The encoder *)

Inductive EncodeError : Type :=
| errStartNoName            (* xml: start tag with no name *)
| errEndNoName              (* xml: end tag with no name *)
| errEndWithoutStart (name : string)
| errEndMismatch (name top : string)
| errNotClosed (name : string)   (* MarshalXML wrote invalid XML: not closed *)
| errUnclosedTag (name : string) (* Encoder.Close: unclosed tag *)
| errAttrNamespace (space : string).

(** The state of the encoder's printer the calls of the source depend on:
    the bytes written, the stack of open tags, and the indentation. *)
Record printer : Type := mkPrinter {
  out : string;
  tags : list Name;           (* the top of the stack first *)
  depth : Z;
  indentedIn : bool;
  putNewline : bool;
  prefix : string;
  indent : string
}.

Definition WriteString (s : string) (p : printer) : printer :=
  mkPrinter (out p ++ s) (tags p) (depth p) (indentedIn p) (putNewline p)
            (prefix p) (indent p).

Definition setTags (t : list Name) (p : printer) : printer :=
  mkPrinter (out p) t (depth p) (indentedIn p) (putNewline p) (prefix p) (indent p).

Fixpoint repeatString (n : nat) (s : string) : string :=
  match n with
  | O => EmptyString
  | S n' => s ++ repeatString n' s
  end.

Definition writeIndent (depthDelta : Z) (p : printer) : printer :=
  if (String.length (prefix p) =? 0)%nat && (String.length (indent p) =? 0)%nat then p
  else
    let d := if depthDelta <? 0 then depth p - 1 else depth p in
    if (depthDelta <? 0) && indentedIn p then
      mkPrinter (out p) (tags p) d false (putNewline p) (prefix p) (indent p)
    else
      let ind := if depthDelta <? 0 then false else indentedIn p in
      let o := if putNewline p then out p ++ str newline else out p in
      let o := o ++ prefix p in
      let o := o ++ repeatString (Z.to_nat d) (indent p) in
      if 0 <? depthDelta then
        mkPrinter o (tags p) (d + 1) true true (prefix p) (indent p)
      else
        mkPrinter o (tags p) d ind true (prefix p) (indent p).

(** The attributes of a start tag, as [writeStart] prints them.  A name in
    a name space would make the encoder declare a prefix for it
    ([createAttrPrefix]); no attribute of the source has one, and the model
    stops there with [errAttrNamespace]. *)
Fixpoint writeAttrs (attrs : list Attr) : EncodeError + string :=
  match attrs with
  | [] => inr EmptyString
  | a :: rest =>
    if (String.length (Local (AttrName a)) =? 0)%nat then writeAttrs rest
    else if negb (String.length (Space (AttrName a)) =? 0)%nat
         then inl (errAttrNamespace (Space (AttrName a)))
    else
      match writeAttrs rest with
      | inl e => inl e
      | inr s =>
        inr (" " ++ Local (AttrName a) ++ "=" ++ str dquote
             ++ EscapeString (Value a) ++ str dquote ++ s)
      end
  end.

Definition writeStart (name : Name) (attrs : list Attr) (p : printer)
  : EncodeError + printer :=
  if (String.length (Local name) =? 0)%nat then inl errStartNoName
  else
    match writeAttrs attrs with
    | inl e => inl e
    | inr sattrs =>
      let p := setTags (name :: tags p) p in
      let p := writeIndent 1 p in
      let p := WriteString ("<" ++ Local name) p in
      let p :=
        if negb (String.length (Space name) =? 0)%nat
        then WriteString (" xmlns=" ++ str dquote ++ EscapeString (Space name) ++ str dquote) p
        else p in
      inr (WriteString (sattrs ++ ">") p)
    end.

Definition writeEnd (name : Name) (p : printer) : EncodeError + printer :=
  if (String.length (Local name) =? 0)%nat then inl errEndNoName
  else
    match tags p with
    | [] => inl (errEndWithoutStart (Local name))
    | top :: below =>
      if (String.length (Local top) =? 0)%nat then inl (errEndWithoutStart (Local name))
      else if negb (Name_eqb top name) then inl (errEndMismatch (Local name) (Local top))
      else
        let p := setTags below p in
        let p := writeIndent (-1) p in
        inr (WriteString ("</" ++ Local name ++ ">") p)
    end.

(** [Encoder.EncodeToken] on a [StartElement] and on an [EndElement], the
    two kinds of token the source encodes. *)
Definition EncodeStart (name : Name) (attrs : list Attr) (p : printer)
  : EncodeError + printer := writeStart name attrs p.

Definition EncodeEnd (name : Name) (p : printer) : EncodeError + printer :=
  writeEnd name p.

(** [marshalValue] on a string that is the field [fieldName] of a struct:
    an element named after the field around the escaped text. *)
Definition marshalString (fieldName : string) (s : string) (p : printer)
  : EncodeError + printer :=
  let name := mkName "" (if (String.length fieldName =? 0)%nat then "string" else fieldName) in
  match writeStart name [] p with
  | inl e => inl e
  | inr p =>
    let p := WriteString (EscapeString s) p in
    writeEnd name p
  end.

(** [marshalValue] on a struct: the start tag is named by [startName]
    (the template of the caller, the tag of the [XMLName] field or the name
    of the field, in this order), carries the [attr] fields in the order of
    declaration, and encloses what [body] ([marshalStruct]) writes for the
    other fields. *)
Definition marshalStructValue (startName : Name) (templateAttrs : list Attr)
    (attrFields : list (string * string))
    (body : printer -> EncodeError + printer) (p : printer)
  : EncodeError + printer :=
  let attrs :=
    (templateAttrs ++ map (fun nv => mkAttr (mkName "" (fst nv)) (snd nv)) attrFields)%list in
  match writeStart startName attrs p with
  | inl e => inl e
  | inr p =>
    match body p with
    | inl e => inl e
    | inr p => writeEnd startName p
    end
  end.

(** [marshalInterface]: a value with a [MarshalXML] method writes its own
    tokens, between a mark on the stack of tags it may not close and the
    check that it closed what it opened. *)
Definition marshalInterface (marshalXML : printer -> EncodeError + printer)
    (p : printer) : EncodeError + printer :=
  let p := setTags (mkName "" "" :: tags p) p in
  let n := List.length (tags p) in
  match marshalXML p with
  | inl e => inl e
  | inr p =>
    if (n <? List.length (tags p))%nat then
      inl (errNotClosed (match tags p with t :: _ => Local t | [] => "" end))
    else inr (setTags (List.skipn (List.length (tags p) - (n - 1)) (tags p)) p)
  end.

(** [xml.MarshalIndent]: a fresh printer with the given prefix and indent,
    the value encoded, and the check of [Close] that no tag is left
    open. *)
Definition MarshalIndent (marshal : printer -> EncodeError + printer)
    (pfx ind : string) : EncodeError + string :=
  match marshal (mkPrinter EmptyString [] 0 false false pfx ind) with
  | inl e => inl e
  | inr p =>
    match tags p with
    | [] => inr (out p)
    | t :: _ => inl (errUnclosedTag (Local t))
    end
  end.

(** *** The decoder

    The lexer of [encoding/xml] is not part of the repository, and the
    program sees the bytes of a response only through [Decoder.Token].  A
    [Decoder] is therefore given by what the successive calls of [Token]
    return on its input: the tokens [pending], in order, and then the error
    [final] ([EOF] at the end of a complete document, a [SyntaxError] where
    the input stops being XML), again at every later call. *)

Inductive Token : Type :=
| StartElement (name : Name) (attrs : list Attr)
| EndElement (name : Name)
| CharData (data : string)
| Comment (data : string)
| ProcInst (target inst : string)
| Directive (data : string).

Inductive DecodeError : Type :=
| EOF
| SyntaxError (msg : string)
| UnmarshalError (expected have : string)  (* expected element type <..> but have <..> *)
| errUnmarshalDepth
| NumError (num : string).                 (* strconv.ParseInt: invalid syntax or out of range *)

Record Decoder : Type := mkDecoder {
  pending : list Token;
  final : DecodeError
}.

(** [Decoder.Token] *)
Definition NextToken (d : Decoder) : DecodeError + (Token * Decoder) :=
  match pending d with
  | t :: rest => inr (t, mkDecoder rest (final d))
  | [] => inl (final d)
  end.

(** The outcome of a decoding step: the value and the decoder after it, or
    the error returned.  [OutOfFuel] is the outcome of a loop of the model
    cut short; [Decode] gives every loop more fuel than there are
    tokens. *)
Inductive Res (T : Type) : Type :=
| Ok (v : T) (d : Decoder)
| Err (e : DecodeError)
| OutOfFuel.

Arguments Ok {T} v d.
Arguments Err {T} e.
Arguments OutOfFuel {T}.

Definition maxUnmarshalDepth : Z := 10000.

(** [Decoder.Skip]: read tokens up to the end element that closes the
    element whose start was read last. *)
Fixpoint Skip_loop (toks : list Token) (fin : DecodeError) (depth : nat)
  : DecodeError + Decoder :=
  match toks with
  | [] => inl fin
  | StartElement _ _ :: rest => Skip_loop rest fin (S depth)
  | EndElement _ :: rest =>
    match depth with
    | O => inr (mkDecoder rest fin)
    | S depth' => Skip_loop rest fin depth'
    end
  | _ :: rest => Skip_loop rest fin depth
  end.

Definition Skip (d : Decoder) : DecodeError + Decoder :=
  Skip_loop (pending d) (final d) 0.

(** [Decoder.unmarshal] into a value of type [T], from the start element
    already read: fuel for the loops, the depth of the recursion, the
    value before, the start element. *)
Definition unmarshaler (T : Type) : Type :=
  nat -> Z -> T -> Name -> list Attr -> Decoder -> Res T.

(** The loop of [unmarshal] over the content of an element, for a value of
    a simple kind: character data are gathered, child elements skipped. *)
Fixpoint collectData (fuel : nat) (data : string) (d : Decoder) : Res string :=
  match fuel with
  | O => OutOfFuel
  | S fuel' =>
    match NextToken d with
    | inl e => Err e
    | inr (StartElement _ _, d) =>
      match Skip d with
      | inl e => Err e
      | inr d => collectData fuel' data d
      end
    | inr (EndElement _, d) => Ok data d
    | inr (CharData t, d) => collectData fuel' (data ++ t) d
    | inr (_, d) => collectData fuel' data d
    end
  end.

(** [unmarshal] into a value of a simple kind; [copy] is [copyValue] for
    the kind. *)
Definition unmarshalSimple {T : Type} (copy : string -> DecodeError + T)
  : unmarshaler T :=
  fun fuel depth _ _ _ d =>
    if maxUnmarshalDepth <=? depth then Err errUnmarshalDepth
    else
      match collectData fuel EmptyString d with
      | Ok data d =>
        match copy data with
        | inl e => Err e
        | inr v => Ok v d
        end
      | Err e => Err e
      | OutOfFuel => OutOfFuel
      end.

(** [unmarshal] into a slice: the slice grows by one element, decoded from
    the start element. *)
Definition unmarshalSlice {T : Type} (elem : unmarshaler T) (zero : T)
  : unmarshaler (list T) :=
  fun fuel depth l name attrs d =>
    if maxUnmarshalDepth <=? depth then Err errUnmarshalDepth
    else
      match elem fuel (depth + 1) zero name attrs d with
      | Ok v d => Ok (l ++ [v])%list d
      | Err e => Err e
      | OutOfFuel => OutOfFuel
      end.

(** What [getTypeInfo] keeps of a field of a struct [St], by the mode of
    its tag.  An element field has a name, the path of its parents
    ([a>b>c]) and the decoding of a matching element into the field; a field
    tagged [,any] is an element field too (named after the Go field), and
    the first such field receives the elements no field matches. *)
Inductive fieldInfo (St : Type) : Type :=
| fAttr (name : string) (set : string -> St -> St)
| fElement (name : string) (parents : list string) (any : bool) (um : unmarshaler St).

Arguments fAttr {St} name set.
Arguments fElement {St} name parents any um.

Record typeInfo (St : Type) : Type := mkTypeInfo {
  (** the tag of the [XMLName] field and the assignment to it, if any *)
  xmlname : option (string * (Name -> St -> St));
  fields : list (fieldInfo St)
}.

Arguments mkTypeInfo {St} xmlname fields.
Arguments xmlname {St} t.
Arguments fields {St} t.

(** The decoding of an element into the field [get]/[set] of a struct. *)
Definition intoField {St F : Type} (get : St -> F) (set : F -> St -> St)
    (um : unmarshaler F) : unmarshaler St :=
  fun fuel depth sv name attrs d =>
    match um fuel depth (get sv) name attrs d with
    | Ok v d => Ok (set v sv) d
    | Err e => Err e
    | OutOfFuel => OutOfFuel
    end.

Fixpoint isPrefixOf (p l : list string) : bool :=
  match p, l with
  | [], _ => true
  | x :: p', y :: l' => String.eqb x y && isPrefixOf p' l'
  | _ :: _, [] => false
  end.

(** What the first loop of [unmarshalPath] finds for a start element at
    the path [parents]: a field it matches, a longer path of parents it
    begins, or nothing. *)
Inductive pathMatch (St : Type) : Type :=
| PerfectMatch (um : unmarshaler St)
| PrefixMatch (parents : list string)
| NoMatch.

Arguments PerfectMatch {St} um.
Arguments PrefixMatch {St} parents.
Arguments NoMatch {St}.

Fixpoint findPath {St : Type} (fs : list (fieldInfo St)) (parents : list string)
    (local : string) : pathMatch St :=
  match fs with
  | [] => NoMatch
  | fAttr _ _ :: rest => findPath rest parents local
  | fElement name fparents _ um :: rest =>
    if (List.length fparents <? List.length parents)%nat
       || negb (isPrefixOf parents fparents)
    then findPath rest parents local
    else if (List.length fparents =? List.length parents)%nat && String.eqb name local
    then PerfectMatch um
    else if (List.length parents <? List.length fparents)%nat
            && String.eqb (nth (List.length parents) fparents EmptyString) local
    then PrefixMatch (firstn (S (List.length parents)) fparents)
    else findPath rest parents local
  end.

(** [Decoder.unmarshalPath] on a start element at the path [parents]: the
    element goes to the field it matches; an element on the path to a field
    is entered ([enter], the second loop of the function); [consumed] tells
    whether the element was read. *)
Definition unmarshalPathWith {St : Type}
    (enter : St -> list string -> Decoder -> Res (bool * St))
    (fs : list (fieldInfo St)) (fuel : nat) (sv : St) (parents : list string)
    (name : Name) (attrs : list Attr) (depth : Z) (d : Decoder)
  : Res (bool * St) :=
  match findPath fs parents (Local name) with
  | PerfectMatch um =>
    match um fuel (depth + 1) sv name attrs d with
    | Ok sv d => Ok (true, sv) d
    | Err e => Err e
    | OutOfFuel => OutOfFuel
    end
  | PrefixMatch parents' => enter sv parents' d
  | NoMatch => Ok (false, sv) d
  end.

(** The second loop of [unmarshalPath], inside an element on the path
    [parents]: every child element is tried against the fields and skipped
    when none takes it, up to the end of the element. *)
Fixpoint pathLoop {St : Type} (fs : list (fieldInfo St)) (depth : Z) (fuel : nat)
    (sv : St) (parents : list string) (d : Decoder) {struct fuel}
  : Res (bool * St) :=
  match fuel with
  | O => OutOfFuel
  | S fuel' =>
    match NextToken d with
    | inl e => Err e
    | inr (StartElement n a, d) =>
      match unmarshalPathWith (pathLoop fs depth fuel') fs fuel' sv parents n a depth d with
      | Ok (true, sv) d => pathLoop fs depth fuel' sv parents d
      | Ok (false, sv) d =>
        match Skip d with
        | inl e => Err e
        | inr d => pathLoop fs depth fuel' sv parents d
        end
      | Err e => Err e
      | OutOfFuel => OutOfFuel
      end
    | inr (EndElement _, d) => Ok (true, sv) d
    | inr (_, d) => pathLoop fs depth fuel' sv parents d
    end
  end.

Definition unmarshalPath {St : Type} (fs : list (fieldInfo St)) (fuel : nat)
    (sv : St) (parents : list string) (name : Name) (attrs : list Attr)
    (depth : Z) (d : Decoder) : Res (bool * St) :=
  unmarshalPathWith (pathLoop fs depth fuel) fs fuel sv parents name attrs depth d.

(** The attributes of the start element go to the [attr] fields they
    name. *)
Fixpoint assignAttr {St : Type} (fs : list (fieldInfo St)) (a : Attr) (sv : St) : St :=
  match fs with
  | [] => sv
  | fAttr name set :: rest =>
    assignAttr rest a (if String.eqb (Local (AttrName a)) name then set (Value a) sv else sv)
  | _ :: rest => assignAttr rest a sv
  end.

Definition assignAttrs {St : Type} (fs : list (fieldInfo St)) (attrs : list Attr)
    (sv : St) : St :=
  fold_left (fun sv a => assignAttr fs a sv) attrs sv.

(** The first field tagged [,any]: [saveAny]. *)
Fixpoint saveAny {St : Type} (fs : list (fieldInfo St)) : option (unmarshaler St) :=
  match fs with
  | [] => None
  | fElement _ _ true um :: _ => Some um
  | _ :: rest => saveAny rest
  end.

(** The loop of [unmarshal] over the content of an element, for a
    struct. *)
Fixpoint structLoop {St : Type} (fs : list (fieldInfo St)) (depth : Z) (fuel : nat)
    (sv : St) (d : Decoder) {struct fuel} : Res St :=
  match fuel with
  | O => OutOfFuel
  | S fuel' =>
    match NextToken d with
    | inl e => Err e
    | inr (StartElement n a, d) =>
      match unmarshalPath fs fuel' sv [] n a depth d with
      | Ok (true, sv) d => structLoop fs depth fuel' sv d
      | Ok (false, sv) d =>
        match saveAny fs with
        | Some um =>
          match um fuel' (depth + 1) sv n a d with
          | Ok sv d => structLoop fs depth fuel' sv d
          | Err e => Err e
          | OutOfFuel => OutOfFuel
          end
        | None =>
          match Skip d with
          | inl e => Err e
          | inr d => structLoop fs depth fuel' sv d
          end
        end
      | Err e => Err e
      | OutOfFuel => OutOfFuel
      end
    | inr (EndElement _, d) => Ok sv d
    | inr (_, d) => structLoop fs depth fuel' sv d
    end
  end.

(** [unmarshal] into a struct: the name of the element is checked against
    the tag of [XMLName], the attributes are assigned, the content is
    read. *)
Definition unmarshalStruct {St : Type} (ti : typeInfo St) : unmarshaler St :=
  fun fuel depth sv name attrs d =>
    if maxUnmarshalDepth <=? depth then Err errUnmarshalDepth
    else
      let checked :=
        match xmlname ti with
        | Some (tag, setName) =>
          if negb (String.eqb tag EmptyString) && negb (String.eqb tag (Local name))
          then inl (UnmarshalError tag (Local name))
          else inr (setName name sv)
        | None => inr sv
        end in
      match checked with
      | inl e => Err e
      | inr sv => structLoop (fields ti) depth fuel (assignAttrs (fields ti) attrs sv) d
      end.

(** The start element [Decode] begins with: the first one in the input. *)
Fixpoint findStart (toks : list Token) (fin : DecodeError)
  : DecodeError + (Name * list Attr * Decoder) :=
  match toks with
  | [] => inl fin
  | StartElement n a :: rest => inr (n, a, mkDecoder rest fin)
  | _ :: rest => findStart rest fin
  end.

(** [Decoder.Decode] into a value decoded by [um]. *)
Definition Decode {T : Type} (um : unmarshaler T) (v : T) (d : Decoder) : Res T :=
  match findStart (pending d) (final d) with
  | inl e => Err e
  | inr (n, a, d) => um (S (List.length (pending d))) 0 v n a d
  end.

End xml.

(** ** Packages strings and strconv *)

Module strings.

(** [unicode.IsSpace] *)
Definition IsSpace (r : Z) : bool :=
  if r <=? 0xFF then
    (r =? 0x09) || (r =? 0x0A) || (r =? 0x0B) || (r =? 0x0C) || (r =? 0x0D)
    || (r =? 0x20) || (r =? 0x85) || (r =? 0xA0)
  else
    (r =? 0x1680) || ((0x2000 <=? r) && (r <=? 0x200A)) || (r =? 0x2028)
    || (r =? 0x2029) || (r =? 0x202F) || (r =? 0x205F) || (r =? 0x3000).

(** [utf8.RuneStart] *)
Definition RuneStart (c : ascii) : bool := negb (Z.land (byteZ c) 0xC0 =? 0x80).

(** The bytes [start .. end) of [s]. *)
Definition slice (s : string) (start end_ : nat) : string :=
  time.take (end_ - start) (utf8.skipn start s).

(** The scan of [utf8.DecodeLastRuneInString] back from [start] to a byte
    that starts a rune, not below [lim]. *)
Fixpoint backToStart (s : string) (start : Z) (lim : Z) (fuel : nat) : Z :=
  match fuel with
  | O => start
  | S fuel' =>
    if start <? lim then start
    else
      match String.get (Z.to_nat start) s with
      | Some c => if RuneStart c then start else backToStart s (start - 1) lim fuel'
      | None => start
      end
  end.

(** [utf8.DecodeLastRuneInString] *)
Definition DecodeLastRuneInString (s : string) : Z * nat :=
  let end_ := String.length s in
  match end_ with
  | O => (utf8.RuneError, 0%nat)
  | S last =>
    match String.get last s with
    | None => (utf8.RuneError, 0%nat)
    | Some c =>
      if byteZ c <? 0x80 then (byteZ c, 1%nat)
      else
        let lim := Z.max 0 (Z.of_nat end_ - 4) in
        let start := backToStart s (Z.of_nat last - 1) lim 4 in
        let start := Z.to_nat (Z.max 0 start) in
        let '(r, size) := utf8.DecodeRuneInString (slice s start end_) in
        if negb (start + size =? end_)%nat then (utf8.RuneError, 1%nat)
        else (r, size)
    end
  end.

(** [strings.TrimLeftFunc] and [strings.TrimRightFunc] with
    [unicode.IsSpace]: runes are dropped from the end while they are white
    space; each round drops a byte at least. *)
Fixpoint trimLeft (fuel : nat) (s : string) : string :=
  match fuel with
  | O => s
  | S fuel' =>
    match s with
    | EmptyString => s
    | _ =>
      let '(r, w) := utf8.DecodeRuneInString s in
      if IsSpace r then trimLeft fuel' (utf8.skipn w s) else s
    end
  end.

Fixpoint trimRight (fuel : nat) (s : string) : string :=
  match fuel with
  | O => s
  | S fuel' =>
    match s with
    | EmptyString => s
    | _ =>
      let '(r, w) := DecodeLastRuneInString s in
      if IsSpace r then trimRight fuel' (time.take (String.length s - w) s) else s
    end
  end.

(** [strings.TrimSpace] *)
Definition TrimSpace (s : string) : string :=
  let s := trimLeft (String.length s) s in
  trimRight (String.length s) s.

End strings.

Module strconv.

(** The value of a string of decimal digits; [None] for another byte or
    for no digit at all. *)
Fixpoint digits (acc : Z) (s : string) : option Z :=
  match s with
  | EmptyString => Some acc
  | String c t =>
    if time.isDigitChar c then digits (acc * 10 + time.digitVal c) t else None
  end.

(** [strconv.ParseInt(s, 10, 64)]; [None] for its errors (a syntax error,
    a value out of range). *)
Definition ParseInt (s : string) : option Z :=
  match s with
  | EmptyString => None
  | String c t =>
    let neg := Ascii.eqb c "-" in
    let body := if Ascii.eqb c "+" || neg then t else s in
    match body with
    | EmptyString => None
    | _ =>
      match digits 0 body with
      | None => None
      | Some un =>
        if negb neg && (2 ^ 63 <=? un) then None
        else if neg && (2 ^ 63 <? un) then None
        else Some (if neg then - un else un)
      end
    end
  end.

End strconv.

(** ** Package prometheus (client_golang) *)

Module prometheus.

(** [prometheus.Desc], as [NewDesc] builds it from a name, a help text and
    the names of the variable labels (the names of the source are valid, so
    the descriptor carries no error). *)
Record Desc : Type := NewDesc {
  fqName : string;
  help : string;
  variableLabels : list string
}.

Inductive ValueType : Type := CounterValue | GaugeValue | UntypedValue.

(** A constant metric: one sample.  Its value is a [float64]; the
    values of the source are conversions of integers and are given by the
    integer they denote (see [float64]). *)
Record Metric : Type := mkMetric {
  desc : Desc;
  valueType : ValueType;
  value : Z;
  labelValues : list string
}.

(** [validateLabelValues]: as many values as the descriptor has labels,
    each valid UTF-8. *)
Definition validateLabelValues (vals : list string) (expected : nat) : bool :=
  (List.length vals =? expected)%nat && forallb utf8.ValidString vals.

(** [prometheus.NewConstMetric]; [None] for its error, on which
    [MustNewConstMetric] panics. *)
Definition NewConstMetric (d : Desc) (vt : ValueType) (v : Z) (vals : list string)
  : option Metric :=
  if validateLabelValues vals (List.length (variableLabels d))
  then Some (mkMetric d vt v vals)
  else None.

End prometheus.

(** ** Effects

    What the program does besides computing: it reads and writes the
    global variables of package [main], reads the clock, exchanges one HTTP
    request for a response, logs, sends on the channel the Prometheus
    registry handed to it, and may panic.  A program is the tree of these
    steps; [G] is the type of the global variables, [M] the type of the
    elements of the channel, [A] the type of the result. *)

Module rt.

(** The body of an HTTP response.  The program passes it to the XML
    decoder and does nothing else with it: it is given by what the decoder
    reads off it. *)
Definition Body : Type := xml.Decoder.

(** The values of Go's [error] the program meets. *)
Inductive error : Type :=
| EncodeErr (e : xml.EncodeError)
| TransportErr (msg : string)      (* client.Do failed *)
| BodyReadErr (msg : string)       (* io.ReadAll failed on the body of the response *)
| UnmarshalErr (e : xml.DecodeError). (* failed to unmarshal SOAP response: ... *)

Inductive Prog (G M A : Type) : Type :=
| Ret (a : A)
| Panic (msg : string)
| Load {X : Type} (get : G -> X) (k : X -> Prog G M A)
| Store (set : G -> G) (k : Prog G M A)
| TimeNowUnix (k : Z -> Prog G M A)
| HTTPPost (url contentType body : string) (k : error + Body -> Prog G M A)
| Log (msg : string) (k : Prog G M A)
| ChanSend (m : M) (k : Prog G M A).

Arguments Ret {G M A} a.
Arguments Panic {G M A} msg.
Arguments Load {G M A X} get k.
Arguments Store {G M A} set k.
Arguments TimeNowUnix {G M A} k.
Arguments HTTPPost {G M A} url contentType body k.
Arguments Log {G M A} msg k.
Arguments ChanSend {G M A} m k.

Fixpoint bind {G M A B : Type} (p : Prog G M A) (f : A -> Prog G M B) : Prog G M B :=
  match p with
  | Ret a => f a
  | Panic msg => Panic msg
  | Load get k => Load get (fun x => bind (k x) f)
  | Store set k => Store set (bind k f)
  | TimeNowUnix k => TimeNowUnix (fun t => bind (k t) f)
  | HTTPPost u c b k => HTTPPost u c b (fun r => bind (k r) f)
  | Log msg k => Log msg (bind k f)
  | ChanSend m k => ChanSend m (bind k f)
  end.

(** The world outside the program: what the clock shows at its successive
    readings, and what the upstream server (or the network) answers to the
    successive requests. *)
Record Env : Type := mkEnv {
  clock : nat -> Z;
  upstream : nat -> string -> error + Body
}.

(** The state a run goes through: the global variables, the number of
    readings of the clock so far, the bodies of the requests sent (the
    first one first), the lines logged and the elements sent on the
    channel. *)
Record World (G M : Type) : Type := mkWorld {
  globals : G;
  clockReads : nat;
  requests : list string;
  logged : list string;
  channel : list M
}.

Arguments mkWorld {G M} globals clockReads requests logged channel.
Arguments globals {G M} w.
Arguments clockReads {G M} w.
Arguments requests {G M} w.
Arguments logged {G M} w.
Arguments channel {G M} w.

Inductive Outcome (A : Type) : Type :=
| Done (a : A)
| Panicked (msg : string).

Arguments Done {A} a.
Arguments Panicked {A} msg.

(** A run of a program to its end, alone. *)
Fixpoint run {G M A : Type} (env : Env) (p : Prog G M A) (w : World G M)
  : Outcome A * World G M :=
  match p with
  | Ret a => (Done a, w)
  | Panic msg => (Panicked msg, w)
  | Load get k => run env (k (get (globals w))) w
  | Store set k =>
    run env k (mkWorld (set (globals w)) (clockReads w) (requests w) (logged w) (channel w))
  | TimeNowUnix k =>
    run env (k (clock env (clockReads w)))
        (mkWorld (globals w) (S (clockReads w)) (requests w) (logged w) (channel w))
  | HTTPPost _ _ body k =>
    run env (k (upstream env (List.length (requests w)) body))
        (mkWorld (globals w) (clockReads w) (requests w ++ [body]) (logged w) (channel w))
  | Log msg k =>
    run env k (mkWorld (globals w) (clockReads w) (requests w) (logged w ++ [msg]) (channel w))
  | ChanSend m k =>
    run env k (mkWorld (globals w) (clockReads w) (requests w) (logged w) (channel w ++ [m]))
  end.

(** One step of a program: its first effect, done on the world. *)
Definition step {G M A : Type} (env : Env) (p : Prog G M A) (w : World G M)
  : Prog G M A * World G M :=
  match p with
  | Ret a => (Ret a, w)
  | Panic msg => (Panic msg, w)
  | Load get k => (k (get (globals w)), w)
  | Store set k =>
    (k, mkWorld (set (globals w)) (clockReads w) (requests w) (logged w) (channel w))
  | TimeNowUnix k =>
    (k (clock env (clockReads w)),
     mkWorld (globals w) (S (clockReads w)) (requests w) (logged w) (channel w))
  | HTTPPost _ _ body k =>
    (k (upstream env (List.length (requests w)) body),
     mkWorld (globals w) (clockReads w) (requests w ++ [body]) (logged w) (channel w))
  | Log msg k =>
    (k, mkWorld (globals w) (clockReads w) (requests w) (logged w ++ [msg]) (channel w))
  | ChanSend m k =>
    (k, mkWorld (globals w) (clockReads w) (requests w) (logged w) (channel w ++ [m]))
  end.

(** Goroutines running side by side on one world: a schedule names, step
    after step, the goroutine that moves; the steps of the goroutines
    interleave, each step being done at once. *)
Fixpoint replaceNth {T : Type} (n : nat) (x : T) (l : list T) : list T :=
  match l, n with
  | [], _ => []
  | _ :: t, O => x :: t
  | h :: t, S n' => h :: replaceNth n' x t
  end.

Fixpoint runSchedule {G M A : Type} (env : Env) (schedule : list nat)
    (threads : list (Prog G M A)) (w : World G M)
  : list (Prog G M A) * World G M :=
  match schedule with
  | [] => (threads, w)
  | i :: rest =>
    match nth_error threads i with
    | Some p =>
      let '(p', w') := step env p w in
      runSchedule env rest (replaceNth i p' threads) w'
    | None => runSchedule env rest threads w
    end
  end.

(** The program a run ends in. *)
Definition ended {G M A : Type} (o : Outcome A) : Prog G M A :=
  match o with
  | Done a => Ret a
  | Panicked msg => Panic msg
  end.

(** The result of a goroutine that has returned. *)
Definition result {G M A : Type} (p : Prog G M A) : option A :=
  match p with
  | Ret a => Some a
  | _ => None
  end.

End rt.

(** ** The process

    What [main] does before and besides the scrapes: it reads and writes
    the flags (package variables, set by [flag.Parse] from the command
    line), reads the environment, prints, sets up and uses the logger,
    registers collectors, installs HTTP handlers, listens, and exits.  A
    process is the tree of these steps; [G] is the type of the package
    variables. *)

Module slog.

Inductive Level : Type := LevelDebug | LevelInfo | LevelWarn | LevelError.

End slog.

Module proc.

Inductive Proc (G : Type) : Type :=
| Return                                            (* main returns *)
| Exit (code : Z)                                   (* os.Exit *)
| Load {X : Type} (get : G -> X) (k : X -> Proc G)
| Store (set : G -> G) (k : Proc G)
| Println (line : string) (k : Proc G)              (* fmt.Println *)
| Getenv (name : string) (k : string -> Proc G)     (* os.Getenv *)
| SetDefault (level : slog.Level) (json : bool) (k : Proc G)
                                                    (* slog.SetDefault(slog.New(handler)) *)
| Slog (level : slog.Level) (msg : string) (k : Proc G)
| RuntimeVersion (k : string -> Proc G)             (* runtime.Version *)
| SetGauge (name : string) (labels labelValues : list string) (value : Z) (k : Proc G)
                                                    (* vec.WithLabelValues(...).Set *)
| MustRegister (collectors : list string) (k : Proc G)
| Handle (pattern : string) (k : Proc G)            (* http.Handle, http.HandleFunc *)
| ListenAndServe (addr : string) (k : string -> Proc G).

Arguments Return {G}.
Arguments Exit {G} code.
Arguments Load {G X} get k.
Arguments Store {G} set k.
Arguments Println {G} line k.
Arguments Getenv {G} name k.
Arguments SetDefault {G} level json k.
Arguments Slog {G} level msg k.
Arguments RuntimeVersion {G} k.
Arguments SetGauge {G} name labels labelValues value k.
Arguments MustRegister {G} collectors k.
Arguments Handle {G} pattern k.
Arguments ListenAndServe {G} addr k.

(** The host of the process: its environment, the version of the Go
    runtime, and what becomes of a listener on an address: it serves for
    ever ([None]), or [ListenAndServe] returns with an error. *)
Record Host : Type := mkHost {
  getenv : string -> string;
  goVersion : string;
  listen : string -> option string
}.

(** What a process does that can be seen from outside, in order. *)
Inductive Event : Type :=
| Printed (line : string)
| EnvRead (name : string)
| LoggerSet (level : slog.Level) (json : bool)
| Logged (level : slog.Level) (msg : string)
| GaugeSet (name : string) (labelValues : list string) (value : Z)
| Registered (collectors : list string)
| Handled (pattern : string)
| Listening (addr : string).

(** How a run ends: the process exits with a status, panics, or serves
    on. *)
Inductive Status : Type :=
| Exited (code : Z)
| Panicked (msg : string)
| Serving.

Fixpoint run {G : Type} (host : Host) (p : Proc G) (g : G) (trace : list Event)
  : Status * G * list Event :=
  match p with
  | Return => (Exited 0, g, trace)
  | Exit code => (Exited code, g, trace)
  | Load get k => run host (k (get g)) g trace
  | Store set k => run host k (set g) trace
  | Println line k => run host k g (trace ++ [Printed line])%list
  | Getenv name k => run host (k (getenv host name)) g (trace ++ [EnvRead name])%list
  | SetDefault level json k => run host k g (trace ++ [LoggerSet level json])%list
  | Slog level msg k => run host k g (trace ++ [Logged level msg])%list
  | RuntimeVersion k => run host (k (goVersion host)) g trace
  | SetGauge name labels vals v k =>
    (* [WithLabelValues] panics where [GetMetricWithLabelValues] fails *)
    if prometheus.validateLabelValues vals (List.length labels)
    then run host k g (trace ++ [GaugeSet name vals v])%list
    else (Panicked "label values rejected", g, trace)
  | MustRegister cs k => run host k g (trace ++ [Registered cs])%list
  | Handle pattern k => run host k g (trace ++ [Handled pattern])%list
  | ListenAndServe addr k =>
    match listen host addr with
    | None => (Serving, g, (trace ++ [Listening addr])%list)
    | Some err => run host (k err) g (trace ++ [Listening addr])%list
    end
  end.

End proc.

(** ** Package synergywholesaleapi *)

Module synergywholesaleapi.

Import rt.

(** The body of an envelope holds any content ([interface{}]): a
    [ListDomainsRequest] when a request is encoded, a pointer to a
    [ListDomainsResponse] when a response is decoded. *)
Record apiSOAPBody (C : Type) : Type := mkBody {
  Content : C
}.

Arguments mkBody {C} Content.
Arguments Content {C} a.

Record apiSOAPEnvelope (C : Type) : Type := mkEnvelope {
  EnvelopeXMLName : xml.Name;   (* XMLName, `xml:"Envelope"` *)
  Xmlns : string;               (* `xml:"xmlns:SOAP-ENV,attr"` *)
  Xmlns1 : string;              (* `xml:"xmlns:ns1,attr"` *)
  Xmlns2 : string;              (* `xml:"xmlns:ns2,attr"` *)
  Body : apiSOAPBody C          (* `xml:"Body"` *)
}.

Arguments mkEnvelope {C} EnvelopeXMLName Xmlns Xmlns1 Xmlns2 Body.
Arguments EnvelopeXMLName {C} a.
Arguments Xmlns {C} a.
Arguments Xmlns1 {C} a.
Arguments Xmlns2 {C} a.
Arguments Body {C} a.

Record ListDomainsRequest : Type := mkRequest {
  ApiKey : string;
  ResellerID : string
}.

Definition bindE {A B : Type} (r : xml.EncodeError + A) (f : A -> xml.EncodeError + B)
  : xml.EncodeError + B :=
  match r with
  | inl e => inl e
  | inr a => f a
  end.

(** One element of [items] in [MarshalXML], a struct with the fields
    [Key] (`xml:"key"`) and [Value] (`xml:"value"`), encoded by
    [EncodeElement] with the start element [item]. *)
Definition EncodeItem (key value : string) (p : xml.printer)
  : xml.EncodeError + xml.printer :=
  xml.marshalStructValue (xml.mkName "" "item") [] []
    (fun p => bindE (xml.marshalString "key" key p) (xml.marshalString "value" value))
    p.

Fixpoint EncodeItems (items : list (string * string)) (p : xml.printer)
  : xml.EncodeError + xml.printer :=
  match items with
  | [] => inr p
  | (k, v) :: rest => bindE (EncodeItem k v p) (EncodeItems rest)
  end.

(** [ListDomainsRequest.MarshalXML] *)
Definition MarshalXML (r : ListDomainsRequest) (start : xml.Name * list xml.Attr)
    (p : xml.printer) : xml.EncodeError + xml.printer :=
  (* Start the parent element (listDomains); the error is not looked at *)
  let start := (xml.mkName (xml.Space (fst start)) "ns1:listDomains", snd start) in
  let p :=
    match xml.EncodeStart (fst start) (snd start) p with
    | inl _ => p
    | inr p' => p'
    end in
  (* Start the param element with xsi:type attribute *)
  let paramStart :=
    (xml.mkName "" "param", [xml.mkAttr (xml.mkName "" "xsi:type") "ns2:Map"]) in
  bindE (xml.EncodeStart (fst paramStart) (snd paramStart) p) (fun p =>
  (* Marshal the key-value pairs as nested items *)
  let items := [("apiKey", ApiKey r); ("resellerID", ResellerID r)] in
  bindE (EncodeItems items p) (fun p =>
  (* End the param element *)
  bindE (xml.EncodeEnd (fst paramStart) p) (fun p =>
  (* End the listDomains element *)
  xml.EncodeEnd (fst start) p))).

Record SOAPResponseCommon : Type := mkCommon {
  CommonStatus : string;        (* Status, `xml:"status"` *)
  CommonErrorMessage : string   (* ErrorMessage, `xml:"errorMessage,omitempty"` *)
}.

(** This struct only unmarshalls the values that are useful for exporter
    purposes. *)
Record DomainInfo : Type := mkDomainInfo {
  Status : string;              (* `xml:"status"` *)
  ErrorMessage : string;        (* `xml:"errorMessage"` *)
  DomainName : string;          (* `xml:"domainName"` *)
  DomainStatus : string;        (* `xml:"domain_status"` *)
  DomainCreated : string;       (* `xml:"domain_created,omitempty"` *)
  DomainExpiry : string;        (* `xml:"domain_expiry,omitempty"` *)
  CreatedDate : string;         (* `xml:"createdDate,omitempty"` *)
  TransferStatus : string;      (* `xml:"transfer_status,omitempty"` *)
  AutoRenew : Z;                (* int, `xml:"autoRenew,omitempty"` *)
  NameServers : list string;    (* `xml:"nameServers>item"` *)
  DNSSECKeys : list string      (* `xml:"DSData>item>UUID"` *)
}.

Record DomainList : Type := mkDomainList {
  Common : SOAPResponseCommon;  (* embedded *)
  Domains : list DomainInfo     (* DomainList, `xml:"domainList>item"` *)
}.

Record ListDomainsResponse : Type := mkResponse {
  XMLName : xml.Name;           (* `xml:"listDomainsResponse"` *)
  Return : DomainList           (* `xml:"return"` *)
}.

(** The zero values. *)
Definition zeroDomainInfo : DomainInfo :=
  mkDomainInfo "" "" "" "" "" "" "" "" 0 [] [].

Definition zeroDomainList : DomainList := mkDomainList (mkCommon "" "") [].

Definition zeroResponse : ListDomainsResponse :=
  mkResponse (xml.mkName "" "") zeroDomainList.

(** [dateStringToTimestamp] *)
Definition dateStringToTimestamp (dateString : string) : Z :=
  if String.eqb dateString "" then 0
  else
    (* the timezone is not specified in the api documentation
       based on expiry times for .com it seems to be Australia/Brisbane +1000 *)
    match time.LoadLocation "Australia/Brisbane" with
    | None => 0
    | Some location =>
      match time.ParseInLocation time.layoutChunks dateString location with
      | inl _ => 0
      | inr t => time.Unix (time.UTC t)
      end
    end.

Definition GetDomainExpiryTimestamp (domainInfo : DomainInfo) : Z :=
  dateStringToTimestamp (DomainExpiry domainInfo).

Definition GetDomainCreationTimestamp (domainInfo : DomainInfo) : Z :=
  dateStringToTimestamp (DomainCreated domainInfo).

(** [createSOAPRequest]; the request is the one kind of request of the
    program, a [ListDomainsRequest]. *)
Definition createSOAPRequest (request : ListDomainsRequest) : rt.error + string :=
  let envelope :=
    mkEnvelope (xml.mkName "" "")
               "http://schemas.xmlsoap.org/soap/envelope/"
               "http://api.synergywholesale.com"
               "http://xml.apache.org/xml-soap"
               (mkBody request) in
  let marshalBody (b : apiSOAPBody ListDomainsRequest) :=
    xml.marshalStructValue (xml.mkName "" "Body") [] []
      (fun p => xml.marshalInterface
                  (MarshalXML (Content b) (xml.mkName "" "Content", [])) p) in
  let marshalEnvelope (e : apiSOAPEnvelope ListDomainsRequest) :=
    xml.marshalStructValue (xml.mkName "" "Envelope") []
      [("xmlns:SOAP-ENV", Xmlns e); ("xmlns:ns1", Xmlns1 e); ("xmlns:ns2", Xmlns2 e)]
      (marshalBody (Body e)) in
  match xml.MarshalIndent (marshalEnvelope envelope) "" "  " with
  | inl err => inl (EncodeErr err)
  | inr xmlBytes =>
    (* Add the XML declaration header manually *)
    inr (xml.Header ++ xmlBytes)
  end.

(** [SendSOAPRequest]: the request encoded and posted; the body of the
    response, whatever its status code.  The debug line is logged once
    [client.Do] has returned a response, before its body is read. *)
Definition SendSOAPRequest {G M : Type} (param : ListDomainsRequest)
  : Prog G M (rt.error + rt.Body) :=
  match createSOAPRequest param with
  | inl err => Ret (inl err)
  | inr soapRequest =>
    HTTPPost "https://api.synergywholesale.com" "text/xml; charset=utf-8" soapRequest
      (fun r =>
         match r with
         | inl (BodyReadErr msg) => Log "Request successful" (Ret (inl (BodyReadErr msg)))
         | inl err => Ret (inl err)
         | inr body => Log "Request successful" (Ret (inr body))
         end)
  end.

(** [copyValue] of [encoding/xml] for a string and for an int. *)
Definition copyString (src : string) : xml.DecodeError + string := inr src.

Definition copyInt (src : string) : xml.DecodeError + Z :=
  if (String.length src =? 0)%nat then inr 0
  else
    match strconv.ParseInt (strings.TrimSpace src) with
    | Some i => inr i
    | None => inl (xml.NumError (strings.TrimSpace src))
    end.

Definition unmarshalString : xml.unmarshaler string := xml.unmarshalSimple copyString.
Definition unmarshalInt : xml.unmarshaler Z := xml.unmarshalSimple copyInt.

(** The fields of the structs as [getTypeInfo] reads them off the tags. *)
Definition DomainInfo_typeInfo : xml.typeInfo DomainInfo :=
  let upd := mkDomainInfo in
  xml.mkTypeInfo None
    [ xml.fElement "status" [] false
        (xml.intoField Status
           (fun v s => upd v (ErrorMessage s) (DomainName s) (DomainStatus s) (DomainCreated s)
                           (DomainExpiry s) (CreatedDate s) (TransferStatus s) (AutoRenew s)
                           (NameServers s) (DNSSECKeys s)) unmarshalString);
      xml.fElement "errorMessage" [] false
        (xml.intoField ErrorMessage
           (fun v s => upd (Status s) v (DomainName s) (DomainStatus s) (DomainCreated s)
                           (DomainExpiry s) (CreatedDate s) (TransferStatus s) (AutoRenew s)
                           (NameServers s) (DNSSECKeys s)) unmarshalString);
      xml.fElement "domainName" [] false
        (xml.intoField DomainName
           (fun v s => upd (Status s) (ErrorMessage s) v (DomainStatus s) (DomainCreated s)
                           (DomainExpiry s) (CreatedDate s) (TransferStatus s) (AutoRenew s)
                           (NameServers s) (DNSSECKeys s)) unmarshalString);
      xml.fElement "domain_status" [] false
        (xml.intoField DomainStatus
           (fun v s => upd (Status s) (ErrorMessage s) (DomainName s) v (DomainCreated s)
                           (DomainExpiry s) (CreatedDate s) (TransferStatus s) (AutoRenew s)
                           (NameServers s) (DNSSECKeys s)) unmarshalString);
      xml.fElement "domain_created" [] false
        (xml.intoField DomainCreated
           (fun v s => upd (Status s) (ErrorMessage s) (DomainName s) (DomainStatus s) v
                           (DomainExpiry s) (CreatedDate s) (TransferStatus s) (AutoRenew s)
                           (NameServers s) (DNSSECKeys s)) unmarshalString);
      xml.fElement "domain_expiry" [] false
        (xml.intoField DomainExpiry
           (fun v s => upd (Status s) (ErrorMessage s) (DomainName s) (DomainStatus s)
                           (DomainCreated s) v (CreatedDate s) (TransferStatus s) (AutoRenew s)
                           (NameServers s) (DNSSECKeys s)) unmarshalString);
      xml.fElement "createdDate" [] false
        (xml.intoField CreatedDate
           (fun v s => upd (Status s) (ErrorMessage s) (DomainName s) (DomainStatus s)
                           (DomainCreated s) (DomainExpiry s) v (TransferStatus s) (AutoRenew s)
                           (NameServers s) (DNSSECKeys s)) unmarshalString);
      xml.fElement "transfer_status" [] false
        (xml.intoField TransferStatus
           (fun v s => upd (Status s) (ErrorMessage s) (DomainName s) (DomainStatus s)
                           (DomainCreated s) (DomainExpiry s) (CreatedDate s) v (AutoRenew s)
                           (NameServers s) (DNSSECKeys s)) unmarshalString);
      xml.fElement "autoRenew" [] false
        (xml.intoField AutoRenew
           (fun v s => upd (Status s) (ErrorMessage s) (DomainName s) (DomainStatus s)
                           (DomainCreated s) (DomainExpiry s) (CreatedDate s) (TransferStatus s) v
                           (NameServers s) (DNSSECKeys s)) unmarshalInt);
      xml.fElement "item" ["nameServers"] false
        (xml.intoField NameServers
           (fun v s => upd (Status s) (ErrorMessage s) (DomainName s) (DomainStatus s)
                           (DomainCreated s) (DomainExpiry s) (CreatedDate s) (TransferStatus s)
                           (AutoRenew s) v (DNSSECKeys s))
           (xml.unmarshalSlice unmarshalString ""));
      xml.fElement "UUID" ["DSData"; "item"] false
        (xml.intoField DNSSECKeys
           (fun v s => upd (Status s) (ErrorMessage s) (DomainName s) (DomainStatus s)
                           (DomainCreated s) (DomainExpiry s) (CreatedDate s) (TransferStatus s)
                           (AutoRenew s) (NameServers s) v)
           (xml.unmarshalSlice unmarshalString "")) ].

Definition DomainList_typeInfo : xml.typeInfo DomainList :=
  xml.mkTypeInfo None
    [ xml.fElement "status" [] false
        (xml.intoField (fun s => CommonStatus (Common s))
           (fun v s => mkDomainList (mkCommon v (CommonErrorMessage (Common s))) (Domains s))
           unmarshalString);
      xml.fElement "errorMessage" [] false
        (xml.intoField (fun s => CommonErrorMessage (Common s))
           (fun v s => mkDomainList (mkCommon (CommonStatus (Common s)) v) (Domains s))
           unmarshalString);
      xml.fElement "item" ["domainList"] false
        (xml.intoField Domains (fun v s => mkDomainList (Common s) v)
           (xml.unmarshalSlice (xml.unmarshalStruct DomainInfo_typeInfo) zeroDomainInfo)) ].

Definition ListDomainsResponse_typeInfo : xml.typeInfo ListDomainsResponse :=
  xml.mkTypeInfo (Some ("listDomainsResponse", fun n s => mkResponse n (Return s)))
    [ xml.fElement "return" [] false
        (xml.intoField Return (fun v s => mkResponse (XMLName s) v)
           (xml.unmarshalStruct DomainList_typeInfo)) ].

(** The body of the envelope [UnmarshalSOAPResponse] decodes into holds
    the pointer to the response. *)
Definition apiSOAPBody_typeInfo : xml.typeInfo (apiSOAPBody ListDomainsResponse) :=
  xml.mkTypeInfo None
    [ xml.fElement "Content" [] true
        (xml.intoField Content (fun v _ => mkBody v)
           (xml.unmarshalStruct ListDomainsResponse_typeInfo)) ].

Definition apiSOAPEnvelope_typeInfo : xml.typeInfo (apiSOAPEnvelope ListDomainsResponse) :=
  xml.mkTypeInfo
    (Some ("Envelope", fun n s => mkEnvelope n (Xmlns s) (Xmlns1 s) (Xmlns2 s) (Body s)))
    [ xml.fAttr "xmlns:SOAP-ENV"
        (fun v s => mkEnvelope (EnvelopeXMLName s) v (Xmlns1 s) (Xmlns2 s) (Body s));
      xml.fAttr "xmlns:ns1"
        (fun v s => mkEnvelope (EnvelopeXMLName s) (Xmlns s) v (Xmlns2 s) (Body s));
      xml.fAttr "xmlns:ns2"
        (fun v s => mkEnvelope (EnvelopeXMLName s) (Xmlns s) (Xmlns1 s) v (Body s));
      xml.fElement "Body" [] false
        (xml.intoField Body
           (fun v s => mkEnvelope (EnvelopeXMLName s) (Xmlns s) (Xmlns1 s) (Xmlns2 s) v)
           (xml.unmarshalStruct apiSOAPBody_typeInfo)) ].

(** [UnmarshalSOAPResponse]: the envelope around [response] is decoded
    from [data]; the error of the decoder, or the response as the decoder
    left it. *)
Definition DecodeEnvelope (data : rt.Body) (response : ListDomainsResponse)
  : xml.Res (apiSOAPEnvelope ListDomainsResponse) :=
  let envelope := mkEnvelope (xml.mkName "" "") "" "" "" (mkBody response) in
  xml.Decode (xml.unmarshalStruct apiSOAPEnvelope_typeInfo) envelope data.

Definition UnmarshalSOAPResponse (data : rt.Body) (response : ListDomainsResponse)
  : rt.error + ListDomainsResponse :=
  match DecodeEnvelope data response with
  | xml.Ok envelope _ => inr (Content (Body envelope))
  | xml.Err err => inl (UnmarshalErr err)
  | xml.OutOfFuel => inl (UnmarshalErr xml.errUnmarshalDepth)
  end.

(** [Send] *)
Definition Send {G M : Type} (request : ListDomainsRequest)
  : Prog G M (rt.error + ListDomainsResponse) :=
  bind (SendSOAPRequest request) (fun r =>
    match r with
    | inl err => Ret (inl err)
    | inr response =>
      (* Unmarshal the response *)
      match UnmarshalSOAPResponse response zeroResponse with
      | inl err2 => Ret (inl err2)
      | inr responseObject => Ret (inr responseObject)
      end
    end).

End synergywholesaleapi.

(** ** Package main *)

Module main.

Import rt.
Import synergywholesaleapi.

(** The package-level variables: the cached response and the instant it
    expires at, and the values of the flags ([*resellerID], [*apiKey],
    [*cacheTTLSeconds]). *)
Record Globals : Type := mkGlobals {
  listDomainsResponse : ListDomainsResponse;
  cacheExpires : Z;              (* int64, Unix seconds *)
  resellerID : string;
  apiKey : string;
  cacheTTLSeconds : Z            (* int64 *)
}.

Definition set_listDomainsResponse (v : ListDomainsResponse) (g : Globals) : Globals :=
  mkGlobals v (cacheExpires g) (resellerID g) (apiKey g) (cacheTTLSeconds g).

Definition set_cacheExpires (v : Z) (g : Globals) : Globals :=
  mkGlobals (listDomainsResponse g) v (resellerID g) (apiKey g) (cacheTTLSeconds g).

(** The variables when the process starts serving: nothing cached, the
    expiry at its zero value. *)
Definition initialGlobals (rid key : string) (ttl : Z) : Globals :=
  mkGlobals zeroResponse 0 rid key ttl.

Record Collector : Type := mkCollector {
  domainAutoRenew : prometheus.Desc;
  domainExpiry : prometheus.Desc;
  domainNameServer : prometheus.Desc;
  domainDNSSECKeyCount : prometheus.Desc
}.

Definition newCollector : Collector :=
  mkCollector
    (prometheus.NewDesc "domain_auto_renew_enable" "Domain auto-renewal status" ["domain"])
    (prometheus.NewDesc "domain_expiry_timestamp_seconds" "Domain expiry timestamp in seconds"
                        ["domain"; "status"])
    (prometheus.NewDesc "domain_name_server_info" "Domain name server info"
                        ["domain"; "name_server_info"])
    (prometheus.NewDesc "domain_dnssec_key_count" "Number of DNSSEC keys per domain" ["domain"]).

(** [Collector.Describe] *)
Definition Describe (collector : Collector) : Prog Globals prometheus.Desc unit :=
  ChanSend (domainAutoRenew collector)
    (ChanSend (domainExpiry collector)
       (ChanSend (domainNameServer collector) (Ret tt))).

(** The body of [getDomains] below the check of the expiry: the request
    is built, sent and answered, the response decoded and, when all went
    well, stored with its expiry. *)
Definition refresh {M : Type} : Prog Globals M ListDomainsResponse :=
  Load resellerID (fun rid =>
  Log "Sending listDomains request to Synergy Wholesale API" (
  Load apiKey (fun key =>
  Load resellerID (fun rid =>
  let request := mkRequest key rid in
  bind (SendSOAPRequest request) (fun r =>
  match r with
  | inl err => Log "Error sending SOAP request" (Ret zeroResponse)
  | inr data =>
    (* Prepare the response struct, unmarshal the response *)
    match UnmarshalSOAPResponse data zeroResponse with
    | inl err2 => Log "Error" (Ret zeroResponse)
    | inr response =>
      Store (set_listDomainsResponse response) (
      TimeNowUnix (fun now2 =>
      Load cacheTTLSeconds (fun ttl =>
      Store (set_cacheExpires (add64 now2 ttl)) (
      Ret response))))
    end
  end))))).

(** [getDomains] *)
Definition getDomains {M : Type} : Prog Globals M ListDomainsResponse :=
  Load cacheExpires (fun expires =>
  TimeNowUnix (fun now =>
  if expires >? now then Load listDomainsResponse (fun cached => Ret cached)
  else refresh)).

(** [prometheus.MustNewConstMetric], sent on the channel. *)
Definition sendMetric {A : Type} (d : prometheus.Desc) (v : Z) (vals : list string)
    (k : Prog Globals prometheus.Metric A) : Prog Globals prometheus.Metric A :=
  match prometheus.NewConstMetric d prometheus.GaugeValue v vals with
  | Some m => ChanSend m k
  | None => Panic "label values rejected"
  end.

(** The inner loop of [Collect], over the name servers of a domain. *)
Fixpoint collectNameServers {A : Type} (collector : Collector) (domain : DomainInfo)
    (servers : list string) (k : Prog Globals prometheus.Metric A)
  : Prog Globals prometheus.Metric A :=
  match servers with
  | [] => k
  | server :: rest =>
    sendMetric (domainNameServer collector) (float64 1) [DomainName domain; server]
      (collectNameServers collector domain rest k)
  end.

(** The loop of [Collect] over the domains of the response. *)
Fixpoint collectDomains (collector : Collector) (domains : list DomainInfo)
  : Prog Globals prometheus.Metric unit :=
  match domains with
  | [] => Ret tt
  | domain :: rest =>
    (* skip domains where api status != OK they are usually old/deleted *)
    if negb (String.eqb (Status domain) "OK") then collectDomains collector rest
    else
      sendMetric (domainAutoRenew collector) (float64 (AutoRenew domain))
        [DomainName domain] (
      sendMetric (domainDNSSECKeyCount collector)
        (float64 (Z.of_nat (List.length (DNSSECKeys domain))))
        [DomainName domain] (
      sendMetric (domainExpiry collector) (float64 (GetDomainExpiryTimestamp domain))
        [DomainName domain; DomainStatus domain] (
      collectNameServers collector domain (NameServers domain)
        (collectDomains collector rest))))
  end.

(** [Collector.Collect] *)
Definition Collect (collector : Collector) : Prog Globals prometheus.Metric unit :=
  bind getDomains (fun listDomainsResp =>
  collectDomains collector (Domains (Return listDomainsResp))).

(** The flags: the three the scrapes read are among the package
    variables [Globals]; [flag.Parse] has set them all before the first
    statement of [main] that looks at them. *)
Record Flags : Type := mkFlags {
  vars : Globals;
  listenAddress : string;
  printVersion : bool;
  debugLogging : bool;
  jsonLogging : bool
}.

Definition set_vars (f : Globals -> Globals) (fl : Flags) : Flags :=
  mkFlags (f (vars fl)) (listenAddress fl) (printVersion fl) (debugLogging fl)
          (jsonLogging fl).

Definition set_resellerID (v : string) (g : Globals) : Globals :=
  mkGlobals (listDomainsResponse g) (cacheExpires g) v (apiKey g) (cacheTTLSeconds g).

Definition set_apiKey (v : string) (g : Globals) : Globals :=
  mkGlobals (listDomainsResponse g) (cacheExpires g) (resellerID g) v (cacheTTLSeconds g).

(** [if c { body }], then the rest. *)
Definition when {G : Type} (c : bool) (body : proc.Proc G -> proc.Proc G)
    (k : proc.Proc G) : proc.Proc G :=
  if c then body k else k.

(** [main], from the statement after [flag.Parse()] on; [version] is the
    variable the build sets. *)
Definition main (version : string) : proc.Proc Flags :=
  (* print version and exit *)
  proc.Load printVersion (fun pv =>
  if pv then proc.Println ("version: " ++ version) (proc.Exit 0)
  else
  (* setup logging options *)
  proc.Load debugLogging (fun dbg =>
  let loggingLevel := if dbg then slog.LevelDebug else slog.LevelInfo in
  (* create json or text logger based on args *)
  proc.Load jsonLogging (fun js =>
  proc.SetDefault loggingLevel js (
  proc.Load (fun fl => resellerID (vars fl)) (fun rid =>
  when (String.eqb rid "")
       (fun k => proc.Getenv "SYNERGY_WHOLESALE_RESELLER_ID" (fun v =>
                 proc.Store (set_vars (set_resellerID v)) k)) (
  (* check for required parameters *)
  proc.Load (fun fl => resellerID (vars fl)) (fun rid =>
  if String.eqb rid "" then proc.Slog slog.LevelError "Reseller ID not set!" (proc.Exit 1)
  else
  proc.Load (fun fl => apiKey (vars fl)) (fun key =>
  when (String.eqb key "")
       (fun k => proc.Getenv "SYNERGY_WHOLESALE_API_KEY" (fun v =>
                 proc.Store (set_vars (set_apiKey v)) k)) (
  proc.Load (fun fl => apiKey (vars fl)) (fun key =>
  if String.eqb key "" then proc.Slog slog.LevelError "API Key not set!" (proc.Exit 1)
  else
  (* setup exporter *)
  proc.RuntimeVersion (fun goversion =>
  proc.SetGauge "build_info" ["version"; "goversion"] [version; goversion] 1 (
  proc.MustRegister ["build_info"; "collector"] (
  proc.Handle "/metrics" (
  (* add a readiness and liveness check endpoint *)
  proc.Handle "/liveness" (
  proc.Handle "/readiness" (
  (* start webserver *)
  proc.Load listenAddress (fun addr =>
  proc.Slog slog.LevelInfo "Starting web server" (
  proc.ListenAndServe addr (fun err =>
  proc.Slog slog.LevelError "Error starting web server" proc.Return))))))))))))))))))).

End main.

(** ** Notions the statements below use *)

Module Spec.

Import rt.
Import synergywholesaleapi.
Import main.

(** The program that sends the metrics [ms] on the channel and goes on
    with [k]. *)
Fixpoint sendAll {G M A : Type} (ms : list M) (k : Prog G M A) : Prog G M A :=
  match ms with
  | [] => k
  | m :: rest => ChanSend m (sendAll rest k)
  end.

(** The label values [Collect] passes for a domain are valid UTF-8 (as
    every string is that the XML decoder has read). *)
Definition validLabels (d : DomainInfo) : bool :=
  utf8.ValidString (DomainName d) && utf8.ValidString (DomainStatus d)
  && forallb utf8.ValidString (NameServers d).

(** An unmarshaler is sound when, given more fuel than there are tokens,
    it does not run out of fuel and, where it succeeds, has read one
    element: what it leaves is what [Skip] leaves. *)
Definition sound {T : Type} (um : xml.unmarshaler T) : Prop :=
  forall fuel depth v n a d,
    (List.length (xml.pending d) < fuel)%nat ->
    match um fuel depth v n a d with
    | xml.Ok _ d' => xml.Skip d = inr d'
    | xml.Err _ => True
    | xml.OutOfFuel => False
    end.

Definition soundField {St : Type} (f : xml.fieldInfo St) : Prop :=
  match f with
  | xml.fAttr _ _ => True
  | xml.fElement _ _ _ um => sound um
  end.

(** What [unmarshalPath] answers: the element read, or nothing done. *)
Definition pathResult (St : Type) (sv : St) (d : xml.Decoder)
    (r : xml.Res (bool * St)) : Prop :=
  match r with
  | xml.Ok (true, _) d' => xml.Skip d = inr d'
  | xml.Ok (false, sv') d' => sv' = sv /\ d' = d
  | xml.Err _ => True
  | xml.OutOfFuel => False
  end.

(** The fields within the bounds [Parse] checks. *)
Definition fieldsInRange (st : time.fields) : Prop :=
  0 <= time.f_year st <= 9999
  /\ - 1 <= time.f_month st <= 12
  /\ - 1 <= time.f_day st <= 99
  /\ 0 <= time.f_hour st <= 23
  /\ 0 <= time.f_min st <= 59
  /\ 0 <= time.f_sec st <= 59.

(** A program keeps [P] when, started with a channel of metrics that
    satisfy [P], it leaves one. *)
Definition keeps {A : Type} (env : Env) (P : prometheus.Metric -> Prop)
    (k : Prog Globals prometheus.Metric A) : Prop :=
  forall w, Forall P (channel w) -> Forall P (channel (snd (run env k w))).

(** A world with nothing sent, logged or read yet. *)
Definition freshWorld {M : Type} (g : Globals) : World Globals M :=
  mkWorld g 0 [] [] [].

(** The descriptors [Describe] announces, and the descriptors of the
    metrics [Collect] sends for the domains [ds]. *)
Definition described (collector : Collector) : list prometheus.Desc :=
  channel (snd (run (mkEnv (fun _ => 0) (fun _ _ => inl (TransportErr "")))
                    (Describe collector)
                    (freshWorld (initialGlobals "" "" 0)))).

Definition emitted (collector : Collector) (ds : list DomainInfo) : list prometheus.Desc :=
  map prometheus.desc
      (channel (snd (run (mkEnv (fun _ => 0) (fun _ _ => inl (TransportErr "")))
                         (collectDomains collector ds)
                         (freshWorld (initialGlobals "" "" 0))))).

(** [n] calls of [getDomains], one after the other. *)
Fixpoint calls {M : Type} (n : nat) : Prog Globals M (list ListDomainsResponse) :=
  match n with
  | O => Ret []
  | S n' =>
    bind getDomains (fun r => bind (calls n') (fun rs => Ret (r :: rs)))
  end.

(** A record of a deleted domain, and a record of a domain in order. *)
Definition deletedDomain : DomainInfo :=
  mkDomainInfo "ERR_DOMAIN_DELETED" "gone" "old.example" "ok" "" "2025-12-25 10:00:00"
               "" "" 1 ["ns1.example.com"] ["k"].

Definition exampleDomain : DomainInfo :=
  mkDomainInfo "OK" "" "example.com" "ok" "2020-01-01 00:00:00" "2025-12-25 10:00:00"
               "" "" 1 ["ns1.example.com"; "ns2.example.com"] ["k1"].

(** The body of the request [getDomains] sends with the credentials of
    [g], what the upstream answers to it in the world [w], and whether the
    refresh fails on this answer: in the exchange (a transport error) or in
    the decoding of the response. *)
Definition requestBody (g : Globals) : string :=
  match createSOAPRequest (mkRequest (apiKey g) (resellerID g)) with
  | inr body => body
  | inl _ => EmptyString
  end.

Definition reply {M : Type} (env : Env) (w : World Globals M) : rt.error + rt.Body :=
  upstream env (List.length (requests w)) (requestBody (globals w)).

Definition refreshFails {M : Type} (env : Env) (w : World Globals M) : bool :=
  match reply env w with
  | inl _ => true
  | inr data =>
    match UnmarshalSOAPResponse data zeroResponse with
    | inl _ => true
    | inr _ => false
    end
  end.

(** The tokens of an element [name] around [content], and of an element
    that holds text. *)
Definition element (name : string) (content : list xml.Token) : list xml.Token :=
  (xml.StartElement (xml.mkName "" name) [] :: content
   ++ [xml.EndElement (xml.mkName "" name)])%list.

Definition textElement (name text : string) : list xml.Token :=
  element name [xml.CharData text].

(** A response of the upstream API with one domain, [exampleDomain], as
    the decoder reads it. *)
Definition exampleBody : rt.Body :=
  xml.mkDecoder
    (xml.ProcInst "xml" "version=1.0 encoding=UTF-8"
     :: element "Envelope" (element "Body" (element "listDomainsResponse" (element "return"
          (textElement "status" "OK"
           ++ element "domainList" (element "item"
                (textElement "status" "OK"
                 ++ textElement "domainName" "example.com"
                 ++ textElement "domain_status" "ok"
                 ++ textElement "domain_created" "2020-01-01 00:00:00"
                 ++ textElement "domain_expiry" "2025-12-25 10:00:00"
                 ++ textElement "autoRenew" "1"
                 ++ element "nameServers"
                      (textElement "item" "ns1.example.com"
                       ++ textElement "item" "ns2.example.com")
                 ++ element "DSData" (element "item" (textElement "UUID" "k1")))))))))%list
    xml.EOF.

Definition exampleResponse : ListDomainsResponse :=
  mkResponse (xml.mkName "" "listDomainsResponse")
             (mkDomainList (mkCommon "OK" "") [exampleDomain]).

(** No start element among the tokens; neither start nor end element
    among them (text, comments, processing instructions, directives). *)
Definition isStart (t : xml.Token) : bool :=
  match t with
  | xml.StartElement _ _ => true
  | _ => false
  end.

Definition isElementToken (t : xml.Token) : bool :=
  match t with
  | xml.StartElement _ _ | xml.EndElement _ => true
  | _ => false
  end.

Definition noStart (toks : list xml.Token) : bool := forallb (fun t => negb (isStart t)) toks.

Definition textOnly (toks : list xml.Token) : bool :=
  forallb (fun t => negb (isElementToken t)) toks.

(** The spec's "well-formed XML", on the tokens of a document: the input
    ends without a syntax error; there is one root element; every end
    element closes the element opened last, by the same name; outside the
    root element there is white space at most, besides comments, processing
    instructions and directives. *)
Definition isWhiteSpace (s : string) : bool :=
  forallb (fun c => Ascii.eqb c " " || Ascii.eqb c tab || Ascii.eqb c newline
                    || Ascii.eqb c creturn)
          (list_ascii_of_string s).

Fixpoint wellNested (toks : list xml.Token) (open : list xml.Name) (rootSeen : bool) : bool :=
  match toks with
  | [] => match open with [] => rootSeen | _ :: _ => false end
  | xml.StartElement n _ :: rest =>
    match open with
    | [] => negb rootSeen && wellNested rest [n] true
    | _ :: _ => wellNested rest (n :: open) rootSeen
    end
  | xml.EndElement n :: rest =>
    match open with
    | [] => false
    | top :: below => xml.Name_eqb top n && wellNested rest below rootSeen
    end
  | xml.CharData s :: rest =>
    match open with
    | [] => isWhiteSpace s && wellNested rest open rootSeen
    | _ :: _ => wellNested rest open rootSeen
    end
  | _ :: rest => wellNested rest open rootSeen
  end.

Definition wellFormed (d : xml.Decoder) : bool :=
  match xml.final d with
  | xml.EOF => wellNested (xml.pending d) [] false
  | _ => false
  end.

(** The spec's "expected nesting": an element [return] in an element
    [listDomainsResponse] in an element [Body] in the root element
    [Envelope]. *)
Fixpoint hasPath (path : list string) (toks : list xml.Token) (open : list string) : bool :=
  match toks with
  | [] => false
  | xml.StartElement n _ :: rest =>
    (if list_eq_dec string_dec (rev (xml.Local n :: open)) path then true else false)
    || hasPath path rest (xml.Local n :: open)
  | xml.EndElement _ :: rest => hasPath path rest (List.tl open)
  | _ :: rest => hasPath path rest open
  end.

Definition expectedNesting (d : xml.Decoder) : bool :=
  hasPath ["Envelope"; "Body"; "listDomainsResponse"; "return"] (xml.pending d) [].

(** The documents [<Envelope></Envelope>], the same followed by text and
    an unfinished tag, [<Envelope><Body></Body></Envelope>] and
    [<Envelope><Body><listDomainsResponse></listDomainsResponse></Body></Envelope>],
    as the decoder reads them. *)
Definition emptyEnvelope : rt.Body := xml.mkDecoder (element "Envelope" []) xml.EOF.

Definition emptyEnvelopeThenJunk : rt.Body :=
  xml.mkDecoder (element "Envelope" [] ++ [xml.CharData "junk"])%list
                (xml.SyntaxError "unexpected EOF").

Definition emptyBody : rt.Body :=
  xml.mkDecoder (element "Envelope" (element "Body" [])) xml.EOF.

Definition emptyListDomainsResponse : rt.Body :=
  xml.mkDecoder (element "Envelope" (element "Body" (element "listDomainsResponse" [])))
                xml.EOF.

(** A world to run examples in: the clock shows 1000, 1001 and then 5000
    and later; the upstream answers the first request with [exampleBody]
    and is out of reach afterwards. *)
Definition exampleEnv : Env :=
  mkEnv (fun k => match k with
                  | O => 1000
                  | S O => 1001
                  | S (S k') => 5000 + Z.of_nat k'
                  end)
        (fun n _ => match n with
                    | O => inr exampleBody
                    | S _ => inl (TransportErr "connection refused")
                    end).

(** An upstream out of reach from the start. *)
Definition downEnv : Env :=
  mkEnv (fun k => 1000 + Z.of_nat k) (fun _ _ => inl (TransportErr "connection refused")).

Definition exampleGlobals : Globals := initialGlobals "123" "abc" 3600.

(** An upstream that answers every request with [exampleBody]. *)
Definition upEnv : Env :=
  mkEnv (fun k => 1000 + Z.of_nat k) (fun _ _ => inr exampleBody).

(** Two goroutines in [getDomains]: each reads the expiry and the clock
    before the other goes on; then the first runs to its end, then the
    second. *)
Definition overlap : list nat :=
  ([0; 0; 1; 1] ++ repeat 0 10 ++ repeat 1 10)%list%nat.

(** The samples [Collect] builds for a domain, in the order it sends them,
    and the samples of a scrape over the domains [ds]: those of the domains
    whose status is ["OK"], in the order of the response. *)
Definition samples (d : DomainInfo) : list prometheus.Metric :=
  ([ prometheus.mkMetric (domainAutoRenew newCollector) prometheus.GaugeValue
                         (float64 (AutoRenew d)) [DomainName d];
     prometheus.mkMetric (domainDNSSECKeyCount newCollector) prometheus.GaugeValue
                         (float64 (Z.of_nat (List.length (DNSSECKeys d)))) [DomainName d];
     prometheus.mkMetric (domainExpiry newCollector) prometheus.GaugeValue
                         (float64 (GetDomainExpiryTimestamp d))
                         [DomainName d; DomainStatus d] ]
   ++ map (fun server =>
             prometheus.mkMetric (domainNameServer newCollector) prometheus.GaugeValue
                                 (float64 1) [DomainName d; server])
          (NameServers d))%list.

Definition isOK (d : DomainInfo) : bool := String.eqb (Status d) "OK".

Definition exposition (ds : list DomainInfo) : list prometheus.Metric :=
  flat_map samples (filter isOK ds).

(** A string that is not valid UTF-8: the lone byte 0xFF. *)
Definition badUTF8 : string := String "255"%char EmptyString.

(** A world in which the clock stands still at 1000 and the upstream
    answers every request with [exampleBody]. *)
Definition frozenEnv : Env :=
  mkEnv (fun _ => 1000) (fun _ _ => inr exampleBody).

(** Whether the exchange got a response from the upstream: a body, or a
    response whose body could not be read to its end. *)
Definition answered (r : rt.error + rt.Body) : bool :=
  match r with
  | inr _ => true
  | inl (BodyReadErr _) => true
  | inl _ => false
  end.

(** The text of a civil time in the layout of the source,
    [2006-01-02 15:04:05]: the year in four decimal digits, the other
    fields in two. *)
Definition digitChar (n : Z) : ascii := ascii_of_N (Z.to_N (48 + n)).

Definition twoDigits (n : Z) : string :=
  String (digitChar (n / 10)) (String (digitChar (n mod 10)) EmptyString).

Definition fourDigits (n : Z) : string := twoDigits (n / 100) ++ twoDigits (n mod 100).

Definition formatDateTime (y mo d h mi s : Z) : string :=
  fourDigits y ++ "-" ++ twoDigits mo ++ "-" ++ twoDigits d ++ " "
  ++ twoDigits h ++ ":" ++ twoDigits mi ++ ":" ++ twoDigits s.

(** The Gregorian calendar, counted out: a year is a leap year when it is
    a multiple of 4, the centuries that are no multiple of 400 excepted;
    the lengths of the months and of the years; the days from 1 January
    1970 to 1 January of the year [1970 + n], and from 1 January to the
    first day of the month [n + 1] of the year [y]. *)
Definition leapYear (y : Z) : bool :=
  (y mod 4 =? 0) && negb ((y mod 100 =? 0) && negb (y mod 400 =? 0)).

Definition monthLength (y mo : Z) : Z :=
  if mo =? 2 then (if leapYear y then 29 else 28)
  else if (mo =? 4) || (mo =? 6) || (mo =? 9) || (mo =? 11) then 30
  else 31.

Definition yearLength (y : Z) : Z := if leapYear y then 366 else 365.

Fixpoint daysBeforeYear (n : nat) : Z :=
  match n with
  | O => 0
  | S k => daysBeforeYear k + yearLength (1970 + Z.of_nat k)
  end.

Fixpoint daysBeforeMonth (y : Z) (n : nat) : Z :=
  match n with
  | O => 0
  | S k => daysBeforeMonth y k + monthLength y (Z.of_nat (S k))
  end.

(** The seconds from 1970-01-01 00:00:00 to the civil time given, both read
    in the same zone. *)
Definition secondsSince1970 (y mo d h mi s : Z) : Z :=
  (daysBeforeYear (Z.to_nat (y - 1970)) + daysBeforeMonth y (Z.to_nat (mo - 1)) + (d - 1))
  * 86400 + h * 3600 + mi * 60 + s.

(** A civil time within the calendar and the clock, and the order of
    civil times: by the year, then the month, and so on to the second. *)
Definition validCivil (y mo d h mi s : Z) : Prop :=
  1970 <= y <= 9999 /\ 1 <= mo <= 12 /\ 1 <= d <= monthLength y mo
  /\ 0 <= h <= 23 /\ 0 <= mi <= 59 /\ 0 <= s <= 59.

Fixpoint lexLt (a b : list Z) : bool :=
  match a, b with
  | x :: a', y :: b' => (x <? y) || ((x =? y) && lexLt a' b')
  | _, _ => false
  end.

(** A string of decimal digits only, and a string that begins like a
    fractional second: a period or a comma, then a digit. *)
Definition allDigits (s : string) : bool :=
  forallb time.isDigitChar (list_ascii_of_string s).

Definition startsFraction (s : string) : bool :=
  match s with
  | String sep (String d _) => time.commaOrPeriod sep && time.isDigitChar d
  | _ => false
  end.

(** *** Documents of the upstream API

    How a document dresses its elements: the name space and the attributes
    the elements of a name carry; the tokens found around the elements the
    structs have fields for (white space, comments, elements the structs
    have no field for); and whether an element that would be empty (a field
    with no text, a list with no entry) is left out of the document. *)
Record Dress : Type := mkDress {
  spaceOf : string -> string;
  attrsOf : string -> list xml.Attr;
  filler : list xml.Token;
  omitEmpty : bool
}.

Definition elementIn (dr : Dress) (name : string) (content : list xml.Token)
  : list xml.Token :=
  (xml.StartElement (xml.mkName (spaceOf dr name) name) (attrsOf dr name) :: content
   ++ [xml.EndElement (xml.mkName (spaceOf dr name) name)])%list.

(** An element that holds text: the text is one token, and no token when
    it is empty. *)
Definition textContent (text : string) : list xml.Token :=
  if String.eqb text "" then [] else [xml.CharData text].

Definition textIn (dr : Dress) (name text : string) : list xml.Token :=
  elementIn dr name (textContent text).

(** An element the document leaves out when it is empty and the dress says
    so; a field of text; whether a list is empty. *)
Definition optional (dr : Dress) (empty : bool) (toks : list xml.Token)
  : list xml.Token :=
  if omitEmpty dr && empty then [] else toks.

Definition fieldIn (dr : Dress) (name text : string) : list xml.Token :=
  optional dr (String.eqb text "") (textIn dr name text).

Definition isNil {A : Type} (l : list A) : bool :=
  match l with
  | [] => true
  | _ :: _ => false
  end.

(** The content of an element with the child elements [cs]: the filler
    before, between and after them. *)
Definition children (dr : Dress) (cs : list (list xml.Token)) : list xml.Token :=
  (filler dr ++ flat_map (fun c => c ++ filler dr) cs)%list.

(** The decimal text of an integer ([fuel] digits at most). *)
Fixpoint decimal (fuel : nat) (n : Z) : string :=
  match fuel with
  | O => EmptyString
  | S fuel' =>
    (if n <? 10 then EmptyString else decimal fuel' (n / 10))
    ++ String (digitChar (n mod 10)) EmptyString
  end.

Definition formatInt (z : Z) : string :=
  if z <? 0 then String "-" (decimal 19 (- z)) else decimal 19 z.

(** A byte that is a character of its own and no white space. *)
Definition plainByte (c : ascii) : bool :=
  (byteZ c <? 0x80) && negb (strings.IsSpace (byteZ c)).

(** The element [item] of a domain, with the text [autoRenew] for its
    auto-renewal, and with the decimal text of the number. *)
Definition itemContent (dr : Dress) (d : DomainInfo) (autoRenew : string)
  : list xml.Token :=
  children dr
    [ fieldIn dr "status" (Status d);
      fieldIn dr "errorMessage" (ErrorMessage d);
      fieldIn dr "domainName" (DomainName d);
      fieldIn dr "domain_status" (DomainStatus d);
      fieldIn dr "domain_created" (DomainCreated d);
      fieldIn dr "domain_expiry" (DomainExpiry d);
      fieldIn dr "createdDate" (CreatedDate d);
      fieldIn dr "transfer_status" (TransferStatus d);
      fieldIn dr "autoRenew" autoRenew;
      optional dr (isNil (NameServers d))
        (elementIn dr "nameServers" (children dr (map (textIn dr "item") (NameServers d))));
      optional dr (isNil (DNSSECKeys d))
        (elementIn dr "DSData"
           (children dr
              (map (fun key => elementIn dr "item" (children dr [textIn dr "UUID" key]))
                   (DNSSECKeys d)))) ].

Definition itemTokensWith (dr : Dress) (d : DomainInfo) (autoRenew : string)
  : list xml.Token :=
  elementIn dr "item" (itemContent dr d autoRenew).

Definition itemTokens (dr : Dress) (d : DomainInfo) : list xml.Token :=
  itemTokensWith dr d (formatInt (AutoRenew d)).

(** The document of a response: the envelope, its body, the element
    [listDomainsResponse] and in it the element [return] with the status,
    the error message and the list of the domains. *)
Definition returnContent (dr : Dress) (status errorMessage : string)
    (items : list (list xml.Token)) : list xml.Token :=
  children dr
    [ fieldIn dr "status" status;
      fieldIn dr "errorMessage" errorMessage;
      optional dr (isNil items) (elementIn dr "domainList" (children dr items)) ].

Definition returnTokens (dr : Dress) (status errorMessage : string)
    (items : list (list xml.Token)) : list xml.Token :=
  elementIn dr "Envelope" (children dr
    [ elementIn dr "Body"
        (elementIn dr "listDomainsResponse" (children dr
           [ elementIn dr "return" (returnContent dr status errorMessage items) ])) ]).

Definition responseTokens (dr : Dress) (r : DomainList) : list xml.Token :=
  returnTokens dr (CommonStatus (Common r)) (CommonErrorMessage (Common r))
               (map (itemTokens dr) (Domains r)).

(** The names of the elements the structs have fields for, and tokens the
    decoder passes over wherever a struct is read: text, comments and the
    like, and whole elements of other names. *)
Definition knownNames : list string :=
  [ "status"; "errorMessage"; "domainName"; "domain_status"; "domain_created";
    "domain_expiry"; "createdDate"; "transfer_status"; "autoRenew"; "nameServers";
    "DSData"; "item"; "UUID"; "domainList"; "return"; "Body" ].

Definition unknownName (local : string) : bool :=
  negb (existsb (fun known => String.eqb known local) knownNames).

Fixpoint ignorable (toks : list xml.Token) (depth : nat) : bool :=
  match toks with
  | [] => (depth =? 0)%nat
  | xml.StartElement n _ :: rest =>
    match depth with
    | O => unknownName (xml.Local n)
    | S _ => true
    end && ignorable rest (S depth)
  | xml.EndElement _ :: rest =>
    match depth with
    | O => false
    | S depth' => ignorable rest depth'
    end
  | _ :: rest => ignorable rest depth
  end.

(** A document without dressing, and one dressed as a SOAP server does:
    name spaces, an attribute on every element, a line break and an
    element of another name between the elements, no empty elements. *)
Definition plain : Dress := mkDress (fun _ => EmptyString) (fun _ => []) [] false.

Definition dressed : Dress :=
  mkDress (fun name => if String.eqb name "Envelope" || String.eqb name "Body"
                       then "http://schemas.xmlsoap.org/soap/envelope/"
                       else if String.eqb name "listDomainsResponse"
                       then "http://api.synergywholesale.com" else EmptyString)
          (fun _ => [xml.mkAttr (xml.mkName "xsi" "type") "xsd:string"])
          [ xml.CharData (str newline);
            xml.StartElement (xml.mkName "" "domainPassword") [];
            xml.CharData "secret";
            xml.EndElement (xml.mkName "" "domainPassword");
            xml.Comment "checked" ]
          true.

(** An upstream that answers every request with the dressed document of
    [exampleResponse]. *)
Definition dressedEnv : Env :=
  mkEnv (fun k => 1000 + Z.of_nat k)
        (fun _ _ => inr (xml.mkDecoder (responseTokens dressed (Return exampleResponse))
                                       xml.EOF)).

(** What a decoding reads: [um], started on an element named [n] whose
    content is [content], at a depth up to [B], turns [v] into [v'] and
    leaves the decoder after the element; likewise the loops over the
    content of a struct and over the content of an element on a path of
    parents. *)
Definition reads {T : Type} (B : Z) (um : xml.unmarshaler T) (n : xml.Name)
    (content : list xml.Token) (v v' : T) : Prop :=
  forall fuel depth a m rest fin,
    depth <= B ->
    (List.length (content ++ xml.EndElement m :: rest) < fuel)%nat ->
    um fuel depth v n a (xml.mkDecoder (content ++ xml.EndElement m :: rest) fin)
    = xml.Ok v' (xml.mkDecoder rest fin).

Definition loops {St : Type} (B : Z) (fs : list (xml.fieldInfo St))
    (content : list xml.Token) (sv sv' : St) : Prop :=
  forall fuel depth m rest fin,
    depth <= B ->
    (List.length (content ++ xml.EndElement m :: rest) < fuel)%nat ->
    xml.structLoop fs depth fuel sv (xml.mkDecoder (content ++ xml.EndElement m :: rest) fin)
    = xml.Ok sv' (xml.mkDecoder rest fin).

Definition pathLoops {St : Type} (B : Z) (fs : list (xml.fieldInfo St))
    (parents : list string) (content : list xml.Token) (sv sv' : St) : Prop :=
  forall fuel depth m rest fin,
    depth <= B ->
    (List.length (content ++ xml.EndElement m :: rest) < fuel)%nat ->
    xml.pathLoop fs depth fuel sv parents
                 (xml.mkDecoder (content ++ xml.EndElement m :: rest) fin)
    = xml.Ok (true, sv') (xml.mkDecoder rest fin).

(** What a decoding fails on: [um], started with the value [v] on an
    element named [n] whose content begins with [content], at a depth up to
    [B], returns the error [e], whatever follows; likewise the loops. *)
Definition fails {T : Type} (B : Z) (um : xml.unmarshaler T) (n : xml.Name)
    (content : list xml.Token) (v : T) (e : xml.DecodeError) : Prop :=
  forall fuel depth a rest fin,
    depth <= B ->
    (List.length (content ++ rest) < fuel)%nat ->
    um fuel depth v n a (xml.mkDecoder (content ++ rest) fin) = xml.Err e.

Definition loopsFail {St : Type} (B : Z) (fs : list (xml.fieldInfo St))
    (content : list xml.Token) (sv : St) (e : xml.DecodeError) : Prop :=
  forall fuel depth rest fin,
    depth <= B ->
    (List.length (content ++ rest) < fuel)%nat ->
    xml.structLoop fs depth fuel sv (xml.mkDecoder (content ++ rest) fin) = xml.Err e.

Definition pathLoopsFail {St : Type} (B : Z) (fs : list (xml.fieldInfo St))
    (parents : list string) (content : list xml.Token) (sv : St) (e : xml.DecodeError)
  : Prop :=
  forall fuel depth rest fin,
    depth <= B ->
    (List.length (content ++ rest) < fuel)%nat ->
    xml.pathLoop fs depth fuel sv parents (xml.mkDecoder (content ++ rest) fin) = xml.Err e.

(** The number of bytes [c] in a string, and text of printable ASCII
    characters none of which XML escapes. *)
Fixpoint countByte (c : ascii) (s : string) : nat :=
  match s with
  | EmptyString => 0%nat
  | String x t => ((if Ascii.eqb x c then 1 else 0) + countByte c t)%nat
  end.

Definition plainChar (c : ascii) : bool :=
  (0x20 <=? byteZ c) && (byteZ c <? 0x7F)
  && negb (existsb (Ascii.eqb c) [dquote; "'"; "&"; "<"; ">"]%char).

Definition plainText (s : string) : bool := forallb plainChar (list_ascii_of_string s).

(** The request document around the texts [key] and [rid] of the two
    values. *)
Definition requestText (key rid : string) : string :=
  let q := str dquote in
  let nl := str newline in
  xml.Header
  ++ "<Envelope xmlns:SOAP-ENV=" ++ q ++ "http://schemas.xmlsoap.org/soap/envelope/" ++ q
  ++ " xmlns:ns1=" ++ q ++ "http://api.synergywholesale.com" ++ q
  ++ " xmlns:ns2=" ++ q ++ "http://xml.apache.org/xml-soap" ++ q ++ ">" ++ nl
  ++ "  <Body>" ++ nl
  ++ "    <ns1:listDomains>" ++ nl
  ++ "      <param xsi:type=" ++ q ++ "ns2:Map" ++ q ++ ">" ++ nl
  ++ "        <item>" ++ nl
  ++ "          <key>apiKey</key>" ++ nl
  ++ "          <value>" ++ key ++ "</value>" ++ nl
  ++ "        </item>" ++ nl
  ++ "        <item>" ++ nl
  ++ "          <key>resellerID</key>" ++ nl
  ++ "          <value>" ++ rid ++ "</value>" ++ nl
  ++ "        </item>" ++ nl
  ++ "      </param>" ++ nl
  ++ "    </ns1:listDomains>" ++ nl
  ++ "  </Body>" ++ nl
  ++ "</Envelope>".

(** The value a credential ends up with: the flag, or the variable of the
    environment when the flag is empty. *)
Definition resolved (flag env : string) : string :=
  if String.eqb flag "" then env else flag.

(** The flags as [flag.Parse] leaves them without arguments, and with an
    API key only; a host whose environment holds both credentials and on
    which the listener serves on; a host with nothing in the environment on
    which the port is taken. *)
Definition defaultFlags : Flags :=
  mkFlags (initialGlobals "" "" 3600) ":8080" false false false.

Definition keyFlags : Flags :=
  mkFlags (initialGlobals "" "flag-key" 3600) ":8080" false true false.

Definition exampleHost : proc.Host :=
  proc.mkHost (fun name => if String.eqb name "SYNERGY_WHOLESALE_RESELLER_ID" then "12345"
                           else if String.eqb name "SYNERGY_WHOLESALE_API_KEY" then "secret"
                           else EmptyString)
              "go1.24" (fun _ => None).

Definition bareHost : proc.Host :=
  proc.mkHost (fun _ => EmptyString) "go1.24" (fun _ => Some "address already in use").

End Spec.
(** * Properties *)

Import rt.
Import synergywholesaleapi.
Import main.
Import Spec.

(** ** Conversions *)

Lemma wrap64_small (z : Z) : inInt64 z = true -> wrap64 z = z.
Proof.
  unfold inInt64, wrap64, minInt64, maxInt64. intros H.
  apply andb_true_iff in H. destruct H as [H1 H2].
  apply Z.leb_le in H1. apply Z.leb_le in H2.
  rewrite Z.mod_small; lia.
Qed.

Lemma wrap64_range (z : Z) : inInt64 (wrap64 z) = true.
Proof.
  unfold inInt64, wrap64, minInt64, maxInt64.
  pose proof (Z.mod_pos_bound (z + 2 ^ 63) (2 ^ 64) ltac:(lia)) as H.
  apply andb_true_iff. split; apply Z.leb_le; lia.
Qed.

Lemma float64_exact (z : Z) : Z.abs z < 2 ^ 53 -> float64 z = z.
Proof.
  intros H. unfold float64.
  destruct (Z.ltb_spec (Z.abs z) (2 ^ 53)); [reflexivity | lia].
Qed.

(** ** The date conversion *)

Lemma dateStringToTimestamp_unparsed (s : string) (e : time.ParseError) :
  time.ParseInLocation time.layoutChunks s time.Brisbane = inl e ->
  dateStringToTimestamp s = 0.
Proof.
  intros H. unfold dateStringToTimestamp.
  destruct (String.eqb s ""); [reflexivity |].
  change (time.LoadLocation "Australia/Brisbane") with (Some time.Brisbane).
  cbv iota beta. rewrite H. reflexivity.
Qed.

(** A value that does not begin with a digit does not parse. *)
Lemma ParseInLocation_needs_digit (s : string) (l : time.Location) :
  time.isDigit s 0 = false ->
  time.ParseInLocation time.layoutChunks s l = inl time.errBad.
Proof.
  intros H. unfold time.ParseInLocation, time.layoutChunks, time.parseChunks.
  change (time.skip s "") with (Some s). cbv iota beta.
  unfold time.parseStd. rewrite H.
  rewrite orb_true_r. reflexivity.
Qed.

(** C6. The date conversion maps ["2025-12-25 10:00:00"], read in the zone
    Australia/Brisbane (UTC+10), to the epoch value 1766620800; the empty
    string to 0; and every string [time.ParseInLocation] rejects for the
    layout ["2006-01-02 15:04:05"] to 0.  The function is total: it has no
    outcome but an integer. *)
Theorem dateStringToTimestamp_spec :
  dateStringToTimestamp "2025-12-25 10:00:00" = 1766620800
  /\ dateStringToTimestamp "" = 0
  /\ (forall (s : string) (e : time.ParseError),
        time.ParseInLocation time.layoutChunks s time.Brisbane = inl e ->
        dateStringToTimestamp s = 0).
Proof.
  split; [vm_compute; reflexivity |].
  split; [reflexivity |].
  intros s e. apply dateStringToTimestamp_unparsed.
Qed.

Lemma dateStringToTimestamp_spec_witness :
  time.ParseInLocation time.layoutChunks "25/12/2025 10:00" time.Brisbane = inl time.errBad
  /\ dateStringToTimestamp "25/12/2025 10:00" = 0.
Proof.
  split; [vm_compute; reflexivity |].
  apply (proj2 (proj2 dateStringToTimestamp_spec) "25/12/2025 10:00" time.errBad).
  vm_compute; reflexivity.
Defined.

Example dateStringToTimestamp_other_formats :
  dateStringToTimestamp "2025-12-25T10:00:00Z" = 0
  /\ dateStringToTimestamp "25 Dec 2025" = 0
  /\ dateStringToTimestamp "2025-13-01 00:00:00" = 0
  /\ dateStringToTimestamp "2025-02-29 00:00:00" = 0
  /\ dateStringToTimestamp "2025-12-25 10:00:00 AEST" = 0
  /\ dateStringToTimestamp "1970-01-01 10:00:00" = 0.
Proof. vm_compute. repeat split. Qed.

(** The timestamp of a date is within the integers a [float64] holds
    exactly. *)

Lemma digitVal_range (c : ascii) :
  time.isDigitChar c = true -> 0 <= time.digitVal c <= 9.
Proof.
  unfold time.isDigitChar, time.digitVal. intros H.
  apply andb_true_iff in H. destruct H as [H1 H2].
  apply Z.leb_le in H1. apply Z.leb_le in H2.
  change (byteZ "0") with 48 in *. change (byteZ "9") with 57 in *. lia.
Qed.

Lemma leadingInt_range (s : string) :
  forall x q rest,
    0 <= x ->
    time.leadingInt x s = Some (q, rest) ->
    0 <= q < (x + 1) * 10 ^ Z.of_nat (String.length s).
Proof.
  induction s as [| c t IH]; intros x q rest Hx H; cbn [time.leadingInt] in H.
  - injection H as H _. subst q. simpl. lia.
  - destruct (time.isDigitChar c) eqn:Hc.
    + destruct (2 ^ 63 / 10 <? x); [discriminate |].
      destruct (2 ^ 63 <? x * 10 + time.digitVal c); [discriminate |].
      pose proof (digitVal_range c Hc) as Hd.
      apply IH in H; [| lia].
      cbn [String.length]. rewrite Nat2Z.inj_succ, Z.pow_succ_r by lia.
      assert (0 < 10 ^ Z.of_nat (String.length t)) by (apply Z.pow_pos_nonneg; lia).
      nia.
    + injection H as H _. subst q.
      assert (0 < 10 ^ Z.of_nat (String.length (String c t)))
        by (apply Z.pow_pos_nonneg; lia).
      nia.
Qed.

Lemma take_length (n : nat) (s : string) : (String.length (time.take n s) <= n)%nat.
Proof.
  revert s. induction n as [| n IH]; intros s; simpl; [lia |].
  destruct s as [| c t]; simpl; [lia |]. specialize (IH t). lia.
Qed.

Lemma getnum_range (s : string) (fixed : bool) (v : Z) (rest : string) :
  time.getnum s fixed = Some (v, rest) -> 0 <= v <= 99.
Proof.
  unfold time.getnum. destruct s as [| c0 t0]; [discriminate |].
  destruct (time.isDigitChar c0) eqn:H0; [| discriminate]. simpl.
  pose proof (digitVal_range c0 H0) as R0.
  destruct t0 as [| c1 t1].
  - destruct fixed; [discriminate |]. intros H. injection H as H _. lia.
  - destruct (time.isDigitChar c1) eqn:H1.
    + pose proof (digitVal_range c1 H1) as R1. intros H. injection H as H _. lia.
    + destruct fixed; [discriminate |]. intros H. injection H as H _. lia.
Qed.

Lemma parseStd_range (s : time.std) (value value' : string) (st st' : time.fields) :
  fieldsInRange st ->
  time.parseStd s value st = inr (st', value') ->
  fieldsInRange st'.
Proof.
  unfold fieldsInRange. intros R H. destruct s; unfold time.parseStd in H.
  - destruct ((String.length value <? 4)%nat || negb (time.isDigit value 0)) eqn:Hd;
      [discriminate |].
    apply orb_false_iff in Hd. destruct Hd as [_ Hd]. apply negb_false_iff in Hd.
    destruct (time.atoi (time.take 4 value)) as [year |] eqn:Ha; [| discriminate].
    injection H as H _. subst st'. simpl.
    assert (0 <= year <= 9999); [| lia].
    unfold time.atoi in Ha.
    assert (Hsign : match time.take 4 value with
                    | String "-" t => (true, t)
                    | String "+" t => (false, t)
                    | _ => (false, time.take 4 value)
                    end = (false, time.take 4 value)).
    { destruct value as [| c t]; [reflexivity |].
      unfold time.isDigit in Hd. simpl in Hd. simpl.
      unfold time.isDigitChar in Hd.
      destruct c as [[] [] [] [] [] [] [] []]; try reflexivity; discriminate Hd. }
    rewrite Hsign in Ha.
    destruct (time.leadingInt 0 (time.take 4 value)) as [[q rest] |] eqn:Hl; [| discriminate].
    apply leadingInt_range in Hl; [| lia].
    pose proof (take_length 4 value) as Hlen.
    assert (10 ^ Z.of_nat (String.length (time.take 4 value)) <= 10 ^ 4)
      by (apply Z.pow_le_mono_r; lia).
    destruct rest; [| discriminate]. injection Ha as Ha. subst year.
    rewrite wrap64_small; [lia |].
    unfold inInt64, minInt64, maxInt64. apply andb_true_iff. split; apply Z.leb_le; lia.
  - destruct (time.getnum value true) as [[month v'] |] eqn:Hg; [| discriminate].
    destruct (Z.leb_spec month 0); [discriminate |].
    destruct (Z.ltb_spec 12 month); [discriminate |]. cbn [orb] in H.
    injection H as H _. subst st'. simpl. lia.
  - destruct (time.getnum value true) as [[day v'] |] eqn:Hg; [| discriminate].
    apply getnum_range in Hg. injection H as H _. subst st'. simpl. lia.
  - destruct (time.getnum value false) as [[hour v'] |] eqn:Hg; [| discriminate].
    destruct (Z.ltb_spec hour 0); [discriminate |].
    destruct (Z.leb_spec 24 hour); [discriminate |]. cbn [orb] in H.
    injection H as H _. subst st'. simpl. lia.
  - destruct (time.getnum value true) as [[mi v'] |] eqn:Hg; [| discriminate].
    destruct (Z.ltb_spec mi 0); [discriminate |].
    destruct (Z.leb_spec 60 mi); [discriminate |]. cbn [orb] in H.
    injection H as H _. subst st'. simpl. lia.
  - destruct (time.getnum value true) as [[sec v'] |] eqn:Hg; [| discriminate].
    destruct (Z.ltb_spec sec 0); [discriminate |].
    destruct (Z.leb_spec 60 sec); [discriminate |]. cbn [orb] in H.
    destruct v' as [| sep [| d rest]];
      try (injection H as H _; subst st'; simpl; lia).
    destruct (time.commaOrPeriod sep && time.isDigitChar d).
    + destruct (time.takeDigits (String d rest)) as [digits v''].
      destruct (time.parseNanoseconds digits); [| discriminate].
      injection H as H _. subst st'. simpl. lia.
    + injection H as H _. subst st'. simpl. lia.
Qed.

Lemma parseChunks_range (chunks : list (string * option time.std)) :
  forall value st st',
    fieldsInRange st ->
    time.parseChunks chunks value st = inr st' ->
    fieldsInRange st'.
Proof.
  induction chunks as [| [prefix ostd] chunks IH]; intros value st st' R H; simpl in H.
  - injection H as H. subst st'. exact R.
  - destruct (time.skip value prefix) as [v |]; [| discriminate].
    destruct ostd as [s |].
    + destruct (time.parseStd s v st) as [e | [st1 v1]] eqn:Hp; [discriminate |].
      exact (IH v1 st1 st' (parseStd_range _ _ _ _ _ R Hp) H).
    + destruct (String.length v =? 0)%nat; [| discriminate].
      injection H as H. subst st'. exact R.
Qed.

Lemma daysBefore_range (m : Z) : 0 <= time.daysBefore m <= 365.
Proof.
  unfold time.daysBefore.
  destruct (Z.to_nat m) as [| [| [| [| [| [| [| [| [| [| [| [| [| [| n]]]]]]]]]]]]]];
    simpl; try lia.
Qed.

Lemma dateStringToTimestamp_range (s : string) :
  Z.abs (dateStringToTimestamp s) < 2 ^ 53.
Proof.
  unfold dateStringToTimestamp.
  destruct (String.eqb s ""); [reflexivity |].
  change (time.LoadLocation "Australia/Brisbane") with (Some time.Brisbane). cbv iota.
  unfold time.ParseInLocation.
  destruct (time.parseChunks time.layoutChunks s time.fields0) as [e | st] eqn:Hp;
    [reflexivity |].
  apply parseChunks_range in Hp; [| unfold fieldsInRange; simpl; lia].
  destruct Hp as [Hy [Hm [Hd [Hh [Hmi Hs]]]]].
  cbn [time.f_year time.f_month time.f_day time.f_hour time.f_min time.f_sec time.f_nsec].
  destruct ((_ <? 1) || _); [reflexivity |].
  unfold time.Date, time.UTC, time.Unix.
  cbn [time.f_year time.f_month time.f_day time.f_hour time.f_min time.f_sec time.f_nsec
       time.lookup time.Brisbane time.unixSec fst snd].
  change (36000 =? 0) with false. cbv iota.
  set (month := if time.f_month st <? 0 then 1 else time.f_month st).
  set (day := if time.f_day st <? 0 then 1 else time.f_day st).
  assert (Rm : 0 <= month <= 12)
    by (unfold month; destruct (Z.ltb_spec (time.f_month st) 0); lia).
  assert (Rd : 0 <= day <= 99)
    by (unfold day; destruct (Z.ltb_spec (time.f_day st) 0); lia).
  pose proof (daysBefore_range (month - 1)) as Rb.
  unfold time.leapsThrough.
  match goal with
  | |- context [if ?c then ?a + 1 else ?a] =>
    assert (Hleap : a <= (if c then a + 1 else a) <= a + 1) by (destruct c; lia);
    generalize dependent (if c then a + 1 else a)
  end.
  intros d0 Hd0.
  match goal with
  | |- context [if ?c then ?a else ?b] => destruct c
  end; cbn [time.unixSec]; apply Z.abs_lt; change (2 ^ 53) with 9007199254740992;
  change (fst (fst (36000, minInt64, maxInt64))) with 36000;
  Z.div_mod_to_equations; lia.
Qed.

(** ** The collector *)

Lemma run_sendAll {G M A : Type} (env : Env) (ms : list M) (k : Prog G M A)
    (w : World G M) :
  run env (sendAll ms k) w =
  run env k (mkWorld (globals w) (clockReads w) (requests w) (logged w)
                     (channel w ++ ms)).
Proof.
  revert w. induction ms as [| m ms IH]; intros w; simpl.
  - rewrite app_nil_r. destruct w; reflexivity.
  - rewrite IH. simpl. rewrite <- app_assoc. reflexivity.
Qed.

Lemma collectDomains_skip (c : Collector) (d : DomainInfo) (rest : list DomainInfo) :
  Status d <> "OK" -> collectDomains c (d :: rest) = collectDomains c rest.
Proof.
  intros H. simpl. apply String.eqb_neq in H. rewrite H. reflexivity.
Qed.

Section ChannelInvariant.

Variable env : Env.
Variable P : prometheus.Metric -> Prop.

Lemma sendMetric_keeps {A : Type} (D : prometheus.Desc) (v : Z) (vals : list string)
    (k : Prog Globals prometheus.Metric A) :
  (forall m, prometheus.labelValues m = vals -> P m) ->
  keeps env P k -> keeps env P (sendMetric D v vals k).
Proof.
  intros HP Hk w Hw. unfold sendMetric, prometheus.NewConstMetric.
  destruct (prometheus.validateLabelValues _ _); simpl; [| exact Hw].
  apply Hk. simpl. apply Forall_app. split; [exact Hw |].
  constructor; [apply HP; reflexivity | constructor].
Qed.

Lemma collectNameServers_keeps {A : Type} (c : Collector) (d : DomainInfo)
    (servers : list string) (k : Prog Globals prometheus.Metric A) :
  (forall m, hd_error (prometheus.labelValues m) = Some (DomainName d) -> P m) ->
  keeps env P k -> keeps env P (collectNameServers c d servers k).
Proof.
  intros HP Hk. induction servers as [| s servers IH]; simpl; [exact Hk |].
  apply sendMetric_keeps; [| exact IH].
  intros m Hm. apply HP. rewrite Hm. reflexivity.
Qed.

Lemma collectDomains_keeps (c : Collector) (ds : list DomainInfo) :
  (forall d m, In d ds -> Status d = "OK" ->
               hd_error (prometheus.labelValues m) = Some (DomainName d) -> P m) ->
  keeps env P (collectDomains c ds).
Proof.
  induction ds as [| d ds IH]; intros HP; simpl.
  - intros w Hw. exact Hw.
  - assert (Hrest : keeps env P (collectDomains c ds)).
    { apply IH. intros d0 m Hin. apply HP. right. exact Hin. }
    destruct (String.eqb (Status d) "OK") eqn:Hst; simpl; [| exact Hrest].
    apply String.eqb_eq in Hst.
    assert (Hd : forall m, hd_error (prometheus.labelValues m) = Some (DomainName d) -> P m).
    { intros m. apply HP; [left; reflexivity | exact Hst]. }
    repeat (apply sendMetric_keeps; [intros m Hm; apply Hd; rewrite Hm; reflexivity |]).
    apply collectNameServers_keeps; assumption.
Qed.

End ChannelInvariant.

(** C4. A domain whose status is not exactly ["OK"] adds nothing to what
    [Collect] does: the loop over the domains is the same program with and
    without the record, whatever its other fields (no sample, no panic);
    and when every record of a name has a status other than ["OK"], no
    metric sent carries that name as its domain label. *)
Theorem Collect_status_filter (c : Collector) (d : DomainInfo) :
  Status d <> "OK" ->
  (forall pre post : list DomainInfo,
      collectDomains c (pre ++ d :: post) = collectDomains c (pre ++ post))
  /\ (forall (env : Env) (ds : list DomainInfo) (g : Globals) (m : prometheus.Metric),
        (forall d', In d' ds -> DomainName d' = DomainName d -> Status d' <> "OK") ->
        In m (channel (snd (run env (collectDomains c ds) (freshWorld g)))) ->
        hd_error (prometheus.labelValues m) <> Some (DomainName d)).
Proof.
  intros Hd. split.
  - intros pre post. induction pre as [| a pre IH].
    + apply collectDomains_skip. exact Hd.
    + simpl. rewrite IH. reflexivity.
  - intros env ds g m Hds Hin.
    pose proof (collectDomains_keeps env
                  (fun m => hd_error (prometheus.labelValues m) <> Some (DomainName d))
                  c ds) as H.
    assert (Hall : Forall (fun m => hd_error (prometheus.labelValues m) <> Some (DomainName d))
                          (channel (snd (run env (collectDomains c ds) (freshWorld g))))).
    { apply H; [| constructor].
      intros d0 m0 Hin0 Hst Hm0 Heq. rewrite Hm0 in Heq. injection Heq as Heq.
      exact (Hds d0 Hin0 Heq Hst). }
    rewrite Forall_forall in Hall. exact (Hall m Hin).
Qed.

Lemma Collect_status_filter_witness :
  Status deletedDomain <> "OK"
  /\ collectDomains newCollector ([] ++ deletedDomain :: []) = collectDomains newCollector ([] ++ []).
Proof.
  assert (H : Status deletedDomain <> "OK") by (vm_compute; discriminate).
  split; [exact H |].
  apply (proj1 (Collect_status_filter newCollector deletedDomain H) [] []).
Defined.

Lemma collectNameServers_sendAll {A : Type} (c : Collector) (d : DomainInfo)
    (servers : list string) (k : Prog Globals prometheus.Metric A) :
  List.length (prometheus.variableLabels (domainNameServer c)) = 2%nat ->
  utf8.ValidString (DomainName d) = true ->
  forallb utf8.ValidString servers = true ->
  collectNameServers c d servers k =
  sendAll (map (fun server =>
                  prometheus.mkMetric (domainNameServer c) prometheus.GaugeValue 1
                                      [DomainName d; server]) servers) k.
Proof.
  intros Hc Hn. induction servers as [| s servers IH]; intros Hs; simpl; [reflexivity |].
  simpl in Hs. apply andb_true_iff in Hs. destruct Hs as [Hs1 Hs2].
  unfold sendMetric, prometheus.NewConstMetric, prometheus.validateLabelValues.
  rewrite Hc. simpl. rewrite Hn, Hs1. simpl.
  rewrite IH by exact Hs2. reflexivity.
Qed.

Lemma run_channel_prefix {G M A : Type} (env : Env) (p : Prog G M A) (w : World G M) :
  exists l, channel (snd (run env p w)) = (channel w ++ l)%list.
Proof.
  revert w. induction p as [a | msg | X get k IH | set k IH | k IH | u ct b k IH
                            | msg k IH | m k IH]; intros w; simpl.
  - exists []. rewrite app_nil_r. reflexivity.
  - exists []. rewrite app_nil_r. reflexivity.
  - apply IH.
  - destruct (IH (mkWorld (set (globals w)) (clockReads w) (requests w) (logged w) (channel w)))
      as [l Hl]. exists l. exact Hl.
  - destruct (IH (clock env (clockReads w))
                 (mkWorld (globals w) (S (clockReads w)) (requests w) (logged w) (channel w)))
      as [l Hl]. exists l. exact Hl.
  - destruct (IH (upstream env (List.length (requests w)) b)
                 (mkWorld (globals w) (clockReads w) (requests w ++ [b]) (logged w) (channel w)))
      as [l Hl]. exists l. exact Hl.
  - destruct (IH (mkWorld (globals w) (clockReads w) (requests w) (logged w ++ [msg]) (channel w)))
      as [l Hl]. exists l. exact Hl.
  - destruct (IH (mkWorld (globals w) (clockReads w) (requests w) (logged w) (channel w ++ [m])))
      as [l Hl]. exists (m :: l). rewrite Hl. simpl. rewrite <- app_assoc. reflexivity.
Qed.

Lemma collectDomains_ok (d : DomainInfo) (rest : list DomainInfo) :
  Status d = "OK" ->
  validLabels d = true ->
  collectDomains newCollector (d :: rest) =
  sendAll
    ([ prometheus.mkMetric (domainAutoRenew newCollector) prometheus.GaugeValue
                           (float64 (AutoRenew d)) [DomainName d];
       prometheus.mkMetric (domainDNSSECKeyCount newCollector) prometheus.GaugeValue
                           (float64 (Z.of_nat (List.length (DNSSECKeys d)))) [DomainName d];
       prometheus.mkMetric (domainExpiry newCollector) prometheus.GaugeValue
                           (float64 (dateStringToTimestamp (DomainExpiry d)))
                           [DomainName d; DomainStatus d] ]
     ++ map (fun server =>
               prometheus.mkMetric (domainNameServer newCollector) prometheus.GaugeValue 1
                                   [DomainName d; server])
            (NameServers d))%list
    (collectDomains newCollector rest).
Proof.
  intros Hst Hv. unfold validLabels in Hv.
  apply andb_true_iff in Hv. destruct Hv as [Hv Hns].
  apply andb_true_iff in Hv. destruct Hv as [Hn Hs].
  simpl. rewrite Hst. simpl.
  unfold sendMetric, prometheus.NewConstMetric, prometheus.validateLabelValues.
  simpl. rewrite Hn, Hs. simpl.
  rewrite collectNameServers_sendAll by (reflexivity || assumption).
  reflexivity.
Qed.

(** C5. For a domain whose status is ["OK"] (with the label values valid
    UTF-8, as the decoder leaves them), [Collect] sends exactly: the
    auto-renew gauge with value [float64(AutoRenew)], labelled by the domain
    name; the DNSSEC key count gauge with value [float64(len(DNSSECKeys))],
    the number of keys (exactly, below 2^53 keys), labelled by the domain
    name; the expiry gauge with value [dateStringToTimestamp(DomainExpiry)],
    which its conversion to [float64] keeps, labelled by the domain name and
    the registry status; and one name server gauge of value 1 for each entry
    of [NameServers], in order, labelled by the domain name and the server;
    then it goes on with the rest of the domains.  The number of name server
    samples is the number of name servers. *)
Theorem Collect_ok_domain (d : DomainInfo) (rest : list DomainInfo) :
  Status d = "OK" ->
  validLabels d = true ->
  let nameServerInfo :=
    map (fun server =>
           prometheus.mkMetric
             (prometheus.NewDesc "domain_name_server_info" "Domain name server info"
                                 ["domain"; "name_server_info"])
             prometheus.GaugeValue 1 [DomainName d; server])
        (NameServers d) in
  collectDomains newCollector (d :: rest) =
  sendAll
    ([ prometheus.mkMetric
         (prometheus.NewDesc "domain_auto_renew_enable" "Domain auto-renewal status" ["domain"])
         prometheus.GaugeValue (float64 (AutoRenew d)) [DomainName d];
       prometheus.mkMetric
         (prometheus.NewDesc "domain_dnssec_key_count" "Number of DNSSEC keys per domain"
                             ["domain"])
         prometheus.GaugeValue (float64 (Z.of_nat (List.length (DNSSECKeys d))))
         [DomainName d];
       prometheus.mkMetric
         (prometheus.NewDesc "domain_expiry_timestamp_seconds"
                             "Domain expiry timestamp in seconds" ["domain"; "status"])
         prometheus.GaugeValue (dateStringToTimestamp (DomainExpiry d))
         [DomainName d; DomainStatus d] ]
     ++ nameServerInfo)%list
    (collectDomains newCollector rest)
  /\ List.length nameServerInfo = List.length (NameServers d)
  /\ (Z.of_nat (List.length (DNSSECKeys d)) < 2 ^ 53 ->
      float64 (Z.of_nat (List.length (DNSSECKeys d)))
      = Z.of_nat (List.length (DNSSECKeys d))).
Proof.
  intros Hst Hv nameServerInfo. split; [| split; [apply length_map |]].
  - rewrite (collectDomains_ok d rest Hst Hv).
    unfold GetDomainExpiryTimestamp.
    rewrite (float64_exact (dateStringToTimestamp (DomainExpiry d)))
      by apply dateStringToTimestamp_range.
    reflexivity.
  - intros H. apply float64_exact. lia.
Qed.

Lemma Collect_ok_domain_witness :
  Status exampleDomain = "OK" /\ validLabels exampleDomain = true
  /\ channel (snd (run (mkEnv (fun _ => 0) (fun _ _ => inl (TransportErr "")))
                       (collectDomains newCollector [exampleDomain])
                       (freshWorld (initialGlobals "" "" 0)))) =
     [ prometheus.mkMetric
         (prometheus.NewDesc "domain_auto_renew_enable" "Domain auto-renewal status" ["domain"])
         prometheus.GaugeValue 1 ["example.com"];
       prometheus.mkMetric
         (prometheus.NewDesc "domain_dnssec_key_count" "Number of DNSSEC keys per domain"
                             ["domain"])
         prometheus.GaugeValue 1 ["example.com"];
       prometheus.mkMetric
         (prometheus.NewDesc "domain_expiry_timestamp_seconds"
                             "Domain expiry timestamp in seconds" ["domain"; "status"])
         prometheus.GaugeValue 1766620800 ["example.com"; "ok"];
       prometheus.mkMetric
         (prometheus.NewDesc "domain_name_server_info" "Domain name server info"
                             ["domain"; "name_server_info"])
         prometheus.GaugeValue 1 ["example.com"; "ns1.example.com"];
       prometheus.mkMetric
         (prometheus.NewDesc "domain_name_server_info" "Domain name server info"
                             ["domain"; "name_server_info"])
         prometheus.GaugeValue 1 ["example.com"; "ns2.example.com"] ].
Proof.
  assert (H1 : Status exampleDomain = "OK") by reflexivity.
  assert (H2 : validLabels exampleDomain = true) by (vm_compute; reflexivity).
  split; [exact H1 |]. split; [exact H2 |].
  rewrite (proj1 (Collect_ok_domain exampleDomain [] H1 H2)).
  vm_compute. reflexivity.
Defined.

(** A record with a label that is not valid UTF-8 makes
    [MustNewConstMetric] panic; the decoder never produces one. *)
Example Collect_invalid_label_panics :
  fst (run (mkEnv (fun _ => 0) (fun _ => fun _ => inl (TransportErr "")))
           (collectDomains newCollector
              [mkDomainInfo "OK" "" (String "255"%char "") "" "" "" "" "" 0 [] []])
           (freshWorld (initialGlobals "" "" 0)))
  = Panicked "label values rejected".
Proof. vm_compute. reflexivity. Qed.

(** C10. [Describe] announces three descriptors, those of the auto-renew,
    expiry and name server metrics, and not the descriptor of the DNSSEC key
    count, of which [Collect] sends a sample for every domain it reports:
    each descriptor announced is one [Collect] emits, and the descriptor of
    the DNSSEC key count is emitted and not announced. *)
Theorem Describe_omits_dnssec_key_count :
  described newCollector =
    [ domainAutoRenew newCollector; domainExpiry newCollector;
      domainNameServer newCollector ]
  /\ ~ In (domainDNSSECKeyCount newCollector) (described newCollector)
  /\ (forall D, In D (described newCollector) ->
                In D (emitted newCollector [exampleDomain]))
  /\ (forall (d : DomainInfo) (rest : list DomainInfo),
        Status d = "OK" -> validLabels d = true ->
        In (domainDNSSECKeyCount newCollector) (emitted newCollector (d :: rest))).
Proof.
  split; [reflexivity |].
  split.
  { intros H. vm_compute in H.
    repeat (destruct H as [H | H]; [discriminate H |]). exact H. }
  split.
  { intros D H. vm_compute in H. vm_compute.
    repeat (destruct H as [H | H]; [subst D; tauto |]). contradiction. }
  intros d rest Hst Hv. unfold emitted.
  rewrite (collectDomains_ok d rest Hst Hv).
  rewrite run_sendAll.
  match goal with
  | |- In _ (map _ (channel (snd (run ?e ?k ?w)))) =>
    destruct (run_channel_prefix e k w) as [l Hl]; rewrite Hl
  end.
  apply in_map_iff.
  exists (prometheus.mkMetric (domainDNSSECKeyCount newCollector) prometheus.GaugeValue
            (float64 (Z.of_nat (List.length (DNSSECKeys d)))) [DomainName d]).
  split; [reflexivity |].
  apply in_or_app. left. simpl. right. left. reflexivity.
Qed.

Lemma Describe_omits_dnssec_key_count_witness :
  Status exampleDomain = "OK" /\ validLabels exampleDomain = true
  /\ In (domainDNSSECKeyCount newCollector) (emitted newCollector (exampleDomain :: [])).
Proof.
  assert (H1 : Status exampleDomain = "OK") by reflexivity.
  assert (H2 : validLabels exampleDomain = true) by (vm_compute; reflexivity).
  split; [exact H1 |]. split; [exact H2 |].
  exact (proj2 (proj2 (proj2 Describe_omits_dnssec_key_count)) exampleDomain [] H1 H2).
Defined.

(** ** The request envelope *)

Lemma string_app_assoc (a b c : string) : (a ++ b) ++ c = a ++ (b ++ c).
Proof.
  induction a as [| x a IH]; simpl; [reflexivity | rewrite IH; reflexivity].
Qed.

Lemma string_app_nil_r (a : string) : a ++ "" = a.
Proof.
  induction a as [| x a IH]; simpl; [reflexivity | rewrite IH; reflexivity].
Qed.

Lemma createSOAPRequest_text (r : ListDomainsRequest) :
  createSOAPRequest r = inr (
    xml.Header ++
    "<Envelope xmlns:SOAP-ENV=" ++ str dquote ++ "http://schemas.xmlsoap.org/soap/envelope/"
      ++ str dquote ++
      " xmlns:ns1=" ++ str dquote ++ "http://api.synergywholesale.com" ++ str dquote ++
      " xmlns:ns2=" ++ str dquote ++ "http://xml.apache.org/xml-soap" ++ str dquote ++ ">"
      ++ str newline ++
    "  <Body>" ++ str newline ++
    "    <ns1:listDomains>" ++ str newline ++
    "      <param xsi:type=" ++ str dquote ++ "ns2:Map" ++ str dquote ++ ">" ++ str newline ++
    "        <item>" ++ str newline ++
    "          <key>apiKey</key>" ++ str newline ++
    "          <value>" ++ xml.EscapeString (ApiKey r) ++ "</value>" ++ str newline ++
    "        </item>" ++ str newline ++
    "        <item>" ++ str newline ++
    "          <key>resellerID</key>" ++ str newline ++
    "          <value>" ++ xml.EscapeString (ResellerID r) ++ "</value>" ++ str newline ++
    "        </item>" ++ str newline ++
    "      </param>" ++ str newline ++
    "    </ns1:listDomains>" ++ str newline ++
    "  </Body>" ++ str newline ++
    "</Envelope>").
Proof.
  destruct r as [key rid].
  unfold createSOAPRequest.
  cbv -[xml.EscapeString String.append xml.Header].
  generalize (xml.EscapeString key) as k. generalize (xml.EscapeString rid) as i.
  intros i k. f_equal. unfold xml.Header, str.
  repeat rewrite string_app_assoc. simpl.
  reflexivity.
Qed.

Lemma createSOAPRequest_ok (r : ListDomainsRequest) :
  exists body, createSOAPRequest r = inr body.
Proof. eexists. apply createSOAPRequest_text. Qed.

(** C7. For every pair of credentials, [createSOAPRequest] succeeds and
    produces this document: the XML declaration; the root element
    [Envelope] with the three name space declarations (SOAP envelope, the
    API's, Apache XML-SOAP), in this order; in its [Body] the single
    element [ns1:listDomains], around the single [param] of type [ns2:Map],
    which holds two [item]s of a [key] and a [value]: [apiKey] first, then
    [resellerID], with the (escaped) credentials as values. *)
Theorem createSOAPRequest_envelope (r : ListDomainsRequest) :
  let q := str dquote in
  let nl := str newline in
  createSOAPRequest r = inr (
    "<?xml version=" ++ q ++ "1.0" ++ q ++ " encoding=" ++ q ++ "UTF-8" ++ q ++ "?>" ++ nl ++
    "<Envelope xmlns:SOAP-ENV=" ++ q ++ "http://schemas.xmlsoap.org/soap/envelope/" ++ q ++
      " xmlns:ns1=" ++ q ++ "http://api.synergywholesale.com" ++ q ++
      " xmlns:ns2=" ++ q ++ "http://xml.apache.org/xml-soap" ++ q ++ ">" ++ nl ++
    "  <Body>" ++ nl ++
    "    <ns1:listDomains>" ++ nl ++
    "      <param xsi:type=" ++ q ++ "ns2:Map" ++ q ++ ">" ++ nl ++
    "        <item>" ++ nl ++
    "          <key>apiKey</key>" ++ nl ++
    "          <value>" ++ xml.EscapeString (ApiKey r) ++ "</value>" ++ nl ++
    "        </item>" ++ nl ++
    "        <item>" ++ nl ++
    "          <key>resellerID</key>" ++ nl ++
    "          <value>" ++ xml.EscapeString (ResellerID r) ++ "</value>" ++ nl ++
    "        </item>" ++ nl ++
    "      </param>" ++ nl ++
    "    </ns1:listDomains>" ++ nl ++
    "  </Body>" ++ nl ++
    "</Envelope>").
Proof.
  intros q nl. subst q nl. rewrite createSOAPRequest_text. reflexivity.
Qed.

(** ** The cache *)

Lemma run_bind {G M A B : Type} (env : Env) (p : Prog G M A) (f : A -> Prog G M B)
    (w : World G M) :
  run env (bind p f) w =
  match run env p w with
  | (Done a, w') => run env (f a) w'
  | (Panicked msg, w') => (Panicked msg, w')
  end.
Proof.
  revert w. induction p; intros w; simpl; auto.
Qed.

Lemma requestBody_eq (g : Globals) :
  createSOAPRequest (mkRequest (apiKey g) (resellerID g)) = inr (requestBody g).
Proof.
  unfold requestBody.
  destruct (createSOAPRequest_ok (mkRequest (apiKey g) (resellerID g))) as [body Hb].
  rewrite Hb. reflexivity.
Qed.

Opaque createSOAPRequest UnmarshalSOAPResponse requestBody.

(** A run of [refresh]: one request, and then by the answer. *)
Lemma run_refresh {M : Type} (env : Env) (w : World Globals M) :
  run env refresh w =
  match reply env w with
  | inl err =>
    (Done zeroResponse,
     mkWorld (globals w) (clockReads w) (requests w ++ [requestBody (globals w)])
             (logged w ++ "Sending listDomains request to Synergy Wholesale API"
                :: match err with
                   | BodyReadErr _ => ["Request successful"]
                   | _ => []
                   end ++ ["Error sending SOAP request"]) (channel w))
  | inr data =>
    match UnmarshalSOAPResponse data zeroResponse with
    | inl err2 =>
      (Done zeroResponse,
       mkWorld (globals w) (clockReads w) (requests w ++ [requestBody (globals w)])
               (logged w ++ ["Sending listDomains request to Synergy Wholesale API";
                             "Request successful"; "Error"]) (channel w))
    | inr response =>
      (Done response,
       mkWorld (set_cacheExpires (add64 (clock env (clockReads w))
                                        (cacheTTLSeconds (globals w)))
                                 (set_listDomainsResponse response (globals w)))
               (S (clockReads w)) (requests w ++ [requestBody (globals w)])
               (logged w ++ ["Sending listDomains request to Synergy Wholesale API";
                             "Request successful"]) (channel w))
    end
  end.
Proof.
  unfold refresh, reply. simpl.
  unfold SendSOAPRequest. rewrite (requestBody_eq (globals w)). simpl.
  destruct (upstream env (List.length (requests w)) (requestBody (globals w)))
    as [err | data]; simpl.
  - destruct err; simpl; repeat rewrite <- app_assoc; reflexivity.
  - destruct (UnmarshalSOAPResponse data zeroResponse) as [err2 | response]; simpl.
    + repeat rewrite <- app_assoc. reflexivity.
    + repeat rewrite <- app_assoc. reflexivity.
Qed.

Opaque refresh.

Section Cache.

Variable env : Env.
Variable M : Type.
Variable w : World Globals M.

Let g := globals w.
Let now := clock env (clockReads w).
Let now2 := clock env (S (clockReads w)).
Let announce := "Sending listDomains request to Synergy Wholesale API".

Lemma getDomains_fresh :
  now < cacheExpires g ->
  run env getDomains w =
  (Done (listDomainsResponse g),
   mkWorld g (S (clockReads w)) (requests w) (logged w) (channel w)).
Proof.
  intros H. unfold getDomains. cbn [run]. fold g now.
  destruct (Z.gtb_spec (cacheExpires g) now) as [_ | Hle]; [reflexivity | lia].
Qed.

Lemma getDomains_stale :
  cacheExpires g <= now ->
  run env getDomains w =
  match reply env w with
  | inl err =>
    (Done zeroResponse,
     mkWorld g (S (clockReads w)) (requests w ++ [requestBody g])
             (logged w ++ announce
                :: match err with
                   | BodyReadErr _ => ["Request successful"]
                   | _ => []
                   end ++ ["Error sending SOAP request"]) (channel w))
  | inr data =>
    match UnmarshalSOAPResponse data zeroResponse with
    | inl err2 =>
      (Done zeroResponse,
       mkWorld g (S (clockReads w)) (requests w ++ [requestBody g])
               (logged w ++ [announce; "Request successful"; "Error"]) (channel w))
    | inr response =>
      (Done response,
       mkWorld (set_cacheExpires (add64 now2 (cacheTTLSeconds g))
                                 (set_listDomainsResponse response g))
               (S (S (clockReads w))) (requests w ++ [requestBody g])
               (logged w ++ [announce; "Request successful"]) (channel w))
    end
  end.
Proof.
  intros H. unfold getDomains. cbn [run]. fold g now.
  destruct (Z.gtb_spec (cacheExpires g) now) as [Hgt | _]; [lia |].
  rewrite run_refresh. unfold reply. cbn [globals clockReads requests logged channel].
  reflexivity.
Qed.

Lemma getDomains_failed :
  cacheExpires g <= now ->
  refreshFails env w = true ->
  fst (run env getDomains w) = Done zeroResponse
  /\ globals (snd (run env getDomains w)) = g
  /\ requests (snd (run env getDomains w)) = (requests w ++ [requestBody g])%list
  /\ clockReads (snd (run env getDomains w)) = S (clockReads w)
  /\ channel (snd (run env getDomains w)) = channel w.
Proof.
  intros H Hf. rewrite (getDomains_stale H). unfold refreshFails in Hf.
  destruct (reply env w) as [err | data]; [repeat split |].
  destruct (UnmarshalSOAPResponse data zeroResponse) as [err2 | r];
    [repeat split | discriminate Hf].
Qed.

End Cache.


(** C1. A call of [getDomains] reads the clock and compares: when the
    reading is strictly before [cacheExpires], it returns the stored
    response, sends no request and leaves the variables as they are; when
    the reading is at or after [cacheExpires], it sends one request, the
    encoded envelope, and, when the response decodes, stores the decoded
    response, sets [cacheExpires] to the clock (read again, after the
    exchange) plus the TTL, in 64-bit arithmetic, and returns the decoded
    response.  With nothing stored yet [cacheExpires] is 0, which no clock
    reading since the epoch is before. *)
Theorem getDomains_freshness (env : Env) (M : Type) (w : World Globals M) :
  let g := globals w in
  let now := clock env (clockReads w) in
  let now2 := clock env (S (clockReads w)) in
  let w' := snd (run env getDomains w) in
  (now < cacheExpires g ->
   fst (run env getDomains w) = Done (listDomainsResponse g)
   /\ requests w' = requests w
   /\ globals w' = g)
  /\ (cacheExpires g <= now ->
      createSOAPRequest (mkRequest (apiKey g) (resellerID g)) = inr (requestBody g)
      /\ requests w' = (requests w ++ [requestBody g])%list
      /\ forall (data : rt.Body) (response : ListDomainsResponse),
           reply env w = inr data ->
           UnmarshalSOAPResponse data zeroResponse = inr response ->
           fst (run env getDomains w) = Done response
           /\ listDomainsResponse (globals w') = response
           /\ cacheExpires (globals w') = add64 now2 (cacheTTLSeconds g)
           /\ (inInt64 (now2 + cacheTTLSeconds g) = true ->
               cacheExpires (globals w') = now2 + cacheTTLSeconds g))
  /\ (forall rid key ttl,
        g = initialGlobals rid key ttl -> 0 <= now -> cacheExpires g <= now).
Proof.
  intros g now now2 w'. subst g now now2 w'. split; [| split].
  - intros H. rewrite (getDomains_fresh env M w H). simpl. repeat split.
  - intros H. split; [apply requestBody_eq |].
    rewrite (getDomains_stale env M w H).
    split.
    + destruct (reply env w) as [err | data]; [reflexivity |].
      destruct (UnmarshalSOAPResponse data zeroResponse); reflexivity.
    + intros data response Hr Hu. rewrite Hr, Hu. simpl.
      repeat split. intros Hin. unfold add64. apply wrap64_small. exact Hin.
  - intros rid key ttl Hg Hnow. rewrite Hg. simpl. exact Hnow.
Qed.

Lemma getDomains_freshness_witness :
  clock exampleEnv 0 >= cacheExpires exampleGlobals
  /\ reply exampleEnv (freshWorld (M := prometheus.Metric) exampleGlobals) = inr exampleBody
  /\ UnmarshalSOAPResponse exampleBody zeroResponse = inr exampleResponse
  /\ fst (run exampleEnv getDomains (freshWorld (M := prometheus.Metric) exampleGlobals))
     = Done exampleResponse
  /\ cacheExpires (globals (snd (run exampleEnv getDomains
                                     (freshWorld (M:= prometheus.Metric) exampleGlobals))))
     = 1001 + 3600.
Proof.
  assert (H0 : cacheExpires exampleGlobals <= clock exampleEnv 0) by (vm_compute; discriminate).
  assert (H1 : reply exampleEnv (freshWorld (M := prometheus.Metric) exampleGlobals)
               = inr exampleBody) by reflexivity.
  assert (H2 : UnmarshalSOAPResponse exampleBody zeroResponse = inr exampleResponse)
    by (vm_compute; reflexivity).
  pose proof (proj2 (proj2 (proj1 (proj2
     (getDomains_freshness exampleEnv prometheus.Metric (freshWorld exampleGlobals))) H0))
     exampleBody exampleResponse H1 H2) as H.
  cbv zeta in H.
  destruct H as [Ha [_ [_ Hd]]].
  split; [vm_compute; discriminate |].
  split; [exact H1 |]. split; [exact H2 |]. split; [exact Ha |].
  apply Hd. vm_compute. reflexivity.
Defined.

(** C2. When the cache is stale and the refresh fails, in the exchange or
    in the decoding of the response, [getDomains] returns the empty
    response (no domains) and leaves the stored response and
    [cacheExpires] as they were; [Collect] then returns without panic and
    sends no metric. *)
Theorem getDomains_failed_refresh (env : Env) (w : World Globals prometheus.Metric) :
  cacheExpires (globals w) <= clock env (clockReads w) ->
  refreshFails env w = true ->
  fst (run env getDomains w) = Done zeroResponse
  /\ Domains (Return zeroResponse) = []
  /\ globals (snd (run env getDomains w)) = globals w
  /\ fst (run env (Collect newCollector) w) = Done tt
  /\ channel (snd (run env (Collect newCollector) w)) = channel w
  /\ globals (snd (run env (Collect newCollector) w)) = globals w.
Proof.
  intros H Hf.
  destruct (getDomains_failed env prometheus.Metric w H Hf) as [H1 [H2 [H3 [H4 H5]]]].
  split; [exact H1 |]. split; [reflexivity |]. split; [exact H2 |].
  unfold Collect. rewrite run_bind.
  destruct (run env getDomains w) as [o w1] eqn:Hrun. simpl in *. subst o.
  simpl. repeat split; assumption.
Qed.

Lemma getDomains_failed_refresh_witness :
  cacheExpires exampleGlobals <= clock downEnv 0
  /\ refreshFails downEnv (freshWorld (M := prometheus.Metric) exampleGlobals) = true
  /\ fst (run downEnv (Collect newCollector) (freshWorld exampleGlobals)) = Done tt
  /\ channel (snd (run downEnv (Collect newCollector) (freshWorld exampleGlobals))) = [].
Proof.
  assert (H0 : cacheExpires exampleGlobals <= clock downEnv 0) by (vm_compute; discriminate).
  assert (H1 : refreshFails downEnv (freshWorld (M := prometheus.Metric) exampleGlobals) = true)
    by reflexivity.
  destruct (getDomains_failed_refresh downEnv (freshWorld exampleGlobals) H0 H1)
    as [_ [_ [_ [Ha [Hb _]]]]].
  split; [exact H0 |]. split; [exact H1 |]. split; [exact Ha | exact Hb].
Defined.

(** C3, as the code has it.  When a stored response is stale and the
    refresh fails, [getDomains] returns the empty response for this call
    (not the stored one); the stored response and [cacheExpires] stay as
    they were, so that the next call, at a clock reading not before
    [cacheExpires], sends a request again. *)
Theorem getDomains_failure_keeps_entry (env : Env) (M : Type) (w : World Globals M) :
  cacheExpires (globals w) <= clock env (clockReads w) ->
  refreshFails env w = true ->
  let w' := snd (run env getDomains w) in
  fst (run env getDomains w) = Done zeroResponse
  /\ listDomainsResponse (globals w') = listDomainsResponse (globals w)
  /\ cacheExpires (globals w') = cacheExpires (globals w)
  /\ requests w' = (requests w ++ [requestBody (globals w)])%list
  /\ (cacheExpires (globals w) <= clock env (clockReads w') ->
      requests (snd (run env getDomains w'))
      = (requests w ++ [requestBody (globals w); requestBody (globals w)])%list).
Proof.
  intros H Hf w'.
  destruct (getDomains_failed env M w H Hf) as [H1 [H2 [H3 [H4 H5]]]].
  fold w' in H2, H3, H4, H5.
  split; [exact H1 |]. split; [rewrite H2; reflexivity |].
  split; [rewrite H2; reflexivity |]. split; [exact H3 |].
  intros Hnext.
  assert (Hstale : cacheExpires (globals w') <= clock env (clockReads w'))
    by (rewrite H2; exact Hnext).
  rewrite (getDomains_stale env M w' Hstale). rewrite H2.
  destruct (reply env w') as [err | data]; simpl.
  - rewrite H3, <- app_assoc. reflexivity.
  - destruct (UnmarshalSOAPResponse data zeroResponse); simpl;
      rewrite H3, <- app_assoc; reflexivity.
Qed.

Lemma getDomains_failure_keeps_entry_witness :
  let w1 := snd (run exampleEnv getDomains (freshWorld (M := prometheus.Metric) exampleGlobals)) in
  cacheExpires (globals w1) <= clock exampleEnv (clockReads w1)
  /\ refreshFails exampleEnv w1 = true
  /\ fst (run exampleEnv getDomains w1) = Done zeroResponse
  /\ listDomainsResponse (globals (snd (run exampleEnv getDomains w1))) = exampleResponse.
Proof.
  intros w1.
  assert (H0 : cacheExpires (globals w1) <= clock exampleEnv (clockReads w1))
    by (vm_compute; discriminate).
  assert (H1 : refreshFails exampleEnv w1 = true) by (vm_compute; reflexivity).
  destruct (getDomains_failure_keeps_entry exampleEnv prometheus.Metric w1 H0 H1)
    as [Ha [Hb _]].
  split; [exact H0 |]. split; [exact H1 |]. split; [exact Ha |].
  rewrite Hb. vm_compute. reflexivity.
Defined.

(** C3 as stated fails: a first call stores the response of the upstream
    (one domain, expiry 1001 + 3600); a second call at 5000 finds the
    upstream out of reach and returns the empty response, while the stored
    response is the one of the first call still. *)
Lemma getDomains_failure_fallback_counterexample :
  let w0 := freshWorld (M := prometheus.Metric) exampleGlobals in
  let w1 := snd (run exampleEnv getDomains w0) in
  let w2 := snd (run exampleEnv getDomains w1) in
  fst (run exampleEnv getDomains w0) = Done exampleResponse
  /\ listDomainsResponse (globals w1) = exampleResponse
  /\ cacheExpires (globals w1) <= clock exampleEnv (clockReads w1)
  /\ refreshFails exampleEnv w1 = true
  /\ fst (run exampleEnv getDomains w1) = Done zeroResponse
  /\ zeroResponse <> exampleResponse
  /\ listDomainsResponse (globals w2) = exampleResponse.
Proof.
  vm_compute. repeat split; try discriminate.
Qed.

(** ** Goroutines in [getDomains] side by side *)

Lemma runSchedule_app {G M A : Type} (env : Env) (s1 s2 : list nat)
    (ts : list (Prog G M A)) (w : World G M) :
  runSchedule env (s1 ++ s2) ts w =
  runSchedule env s2 (fst (runSchedule env s1 ts w)) (snd (runSchedule env s1 ts w)).
Proof.
  revert ts w. induction s1 as [| i s1 IH]; intros ts w; simpl; [reflexivity |].
  destruct (nth_error ts i) as [p |]; [| apply IH].
  destruct (step env p w) as [p' w']. apply IH.
Qed.

Lemma replaceNth_same {T : Type} (i : nat) (x : T) (l : list T) :
  nth_error l i = Some x -> replaceNth i x l = l.
Proof.
  revert i. induction l as [| h t IH]; intros [| i] H; simpl in *;
    try discriminate; try reflexivity.
  - injection H as H. subst. reflexivity.
  - rewrite IH by exact H. reflexivity.
Qed.

Lemma replaceNth_twice {T : Type} (i : nat) (x y : T) (l : list T) :
  replaceNth i y (replaceNth i x l) = replaceNth i y l.
Proof.
  revert i. induction l as [| h t IH]; intros [| i]; simpl; try reflexivity.
  rewrite IH. reflexivity.
Qed.

Lemma nth_error_replaceNth {T : Type} (i : nat) (x y : T) (l : list T) :
  nth_error l i = Some y -> nth_error (replaceNth i x l) i = Some x.
Proof.
  revert i. induction l as [| h t IH]; intros [| i] H; simpl in *;
    try discriminate; try reflexivity.
  apply IH. exact H.
Qed.

Lemma replaceNth_middle {T : Type} (l1 l2 : list T) (x y : T) :
  replaceNth (List.length l1) y (l1 ++ x :: l2) = (l1 ++ y :: l2)%list.
Proof.
  induction l1 as [| h t IH]; simpl; [reflexivity | rewrite IH; reflexivity].
Qed.

Lemma nth_error_middle {T : Type} (l1 l2 : list T) (x : T) :
  nth_error (l1 ++ x :: l2) (List.length l1) = Some x.
Proof.
  induction l1 as [| h t IH]; simpl; [reflexivity | exact IH].
Qed.

(** A goroutine can be run to its end by scheduling it alone. *)
Lemma run_to_end {G M A : Type} (env : Env) (p : Prog G M A) :
  forall (i : nat) (ts : list (Prog G M A)) (w : World G M),
    nth_error ts i = Some p ->
    exists k,
      runSchedule env (repeat i k) ts w =
      (replaceNth i (ended (fst (run env p w))) ts, snd (run env p w)).
Proof.
  induction p as [a | msg | X get k IH | set k IH | k IH | u ct b k IH
                  | msg k IH | m k IH]; intros i ts w Hi.
  - exists 0%nat. simpl. rewrite replaceNth_same by exact Hi. reflexivity.
  - exists 0%nat. simpl. rewrite replaceNth_same by exact Hi. reflexivity.
  - destruct (IH (get (globals w)) i (replaceNth i (k (get (globals w))) ts) w
                 (nth_error_replaceNth _ _ _ _ Hi)) as [n Hn].
    exists (S n). cbn [repeat runSchedule]. rewrite Hi. cbn [step]. cbn [run]. rewrite Hn, replaceNth_twice. reflexivity.
  - match goal with
    | |- context [run env (Store set k) w] =>
      destruct (IH i (replaceNth i k ts) (snd (step env (Store set k) w))
                   (nth_error_replaceNth _ _ _ _ Hi)) as [n Hn]
    end.
    exists (S n). cbn [repeat runSchedule]. rewrite Hi. cbn [step snd] in *. cbn [run]. rewrite Hn, replaceNth_twice. reflexivity.
  - destruct (IH (clock env (clockReads w)) i
                 (replaceNth i (k (clock env (clockReads w))) ts)
                 (snd (step env (TimeNowUnix k) w))
                 (nth_error_replaceNth _ _ _ _ Hi)) as [n Hn].
    exists (S n). cbn [repeat runSchedule]. rewrite Hi. cbn [step snd] in *. cbn [run]. rewrite Hn, replaceNth_twice. reflexivity.
  - destruct (IH (upstream env (List.length (requests w)) b) i
                 (replaceNth i (k (upstream env (List.length (requests w)) b)) ts)
                 (snd (step env (HTTPPost u ct b k) w))
                 (nth_error_replaceNth _ _ _ _ Hi)) as [n Hn].
    exists (S n). cbn [repeat runSchedule]. rewrite Hi. cbn [step snd] in *. cbn [run]. rewrite Hn, replaceNth_twice. reflexivity.
  - destruct (IH i (replaceNth i k ts) (snd (step env (Log msg k) w))
                 (nth_error_replaceNth _ _ _ _ Hi)) as [n Hn].
    exists (S n). cbn [repeat runSchedule]. rewrite Hi. cbn [step snd] in *. cbn [run]. rewrite Hn, replaceNth_twice. reflexivity.
  - destruct (IH i (replaceNth i k ts) (snd (step env (ChanSend m k) w))
                 (nth_error_replaceNth _ _ _ _ Hi)) as [n Hn].
    exists (S n). cbn [repeat runSchedule]. rewrite Hi. cbn [step snd] in *. cbn [run]. rewrite Hn, replaceNth_twice. reflexivity.
Qed.

(** What a run of [refresh] leaves: one more request, whatever the
    answer, and a result. *)
Lemma refresh_run {M : Type} (env : Env) (w : World Globals M) :
  exists r,
    fst (run env refresh w) = Done r
    /\ requests (snd (run env refresh w)) = (requests w ++ [requestBody (globals w)])%list.
Proof.
  rewrite run_refresh.
  destruct (reply env w) as [err | data].
  - eexists. split; reflexivity.
  - destruct (UnmarshalSOAPResponse data zeroResponse);
      eexists; split; reflexivity.
Qed.

(** Every goroutine of [waiting], in [getDomains], reads the expiry and the
    clock in turn and finds the cache stale: all of them are in [refresh]
    before any has sent a request. *)
Lemma all_pass_the_check {M : Type} (env : Env) (n : nat) :
  forall (before : list (Prog Globals M ListDomainsResponse)) (w : World Globals M),
    (forall k, (clockReads w <= k < clockReads w + n)%nat ->
               cacheExpires (globals w) <= clock env k) ->
    exists schedule,
      runSchedule env schedule (before ++ repeat getDomains n) w =
      ((before ++ repeat refresh n)%list,
       mkWorld (globals w) (clockReads w + n) (requests w) (logged w) (channel w)).
Proof.
  induction n as [| n IH]; intros before w Hstale.
  - exists []. cbn [repeat runSchedule]. rewrite Nat.add_0_r. destruct w; reflexivity.
  - pose (w1 := mkWorld (globals w) (S (clockReads w)) (requests w) (logged w) (channel w)).
    destruct (IH (before ++ [refresh])%list w1) as [s Hs].
    { intros k Hk. apply Hstale. cbn [clockReads w1] in Hk. unfold w1 in Hk.
      cbn [clockReads] in Hk. lia. }
    exists ([List.length before; List.length before] ++ s)%list.
    rewrite runSchedule_app.
    assert (H2 : runSchedule env [List.length before; List.length before]
                             (before ++ repeat getDomains (S n)) w
                 = ((before ++ refresh :: repeat getDomains n)%list, w1)).
    { cbn [repeat runSchedule]. rewrite nth_error_middle.
      unfold getDomains at 1. cbn [step].
      rewrite replaceNth_middle, nth_error_middle. cbn [step globals].
      rewrite replaceNth_middle.
      destruct (Z.gtb_spec (cacheExpires (globals w)) (clock env (clockReads w)))
        as [Hgt | _]; [| reflexivity].
      specialize (Hstale (clockReads w)). lia. }
    rewrite H2. cbn [fst snd].
    replace (before ++ refresh :: repeat getDomains n)%list
      with ((before ++ [refresh]) ++ repeat getDomains n)%list
      by (rewrite <- app_assoc; reflexivity).
    rewrite Hs. f_equal.
    + rewrite <- app_assoc. reflexivity.
    + unfold w1. cbn [globals clockReads requests logged channel]. f_equal. lia.
Qed.

(** A goroutine in [refresh] runs to its end when scheduled alone: it
    sends a request. *)
Lemma refresh_thread {M : Type} (env : Env)
    (before after : list (Prog Globals M ListDomainsResponse)) (w : World Globals M) :
  exists k r w',
    runSchedule env (repeat (List.length before) k) (before ++ refresh :: after) w
    = ((before ++ Ret r :: after)%list, w')
    /\ requests w' = (requests w ++ [requestBody (globals w)])%list.
Proof.
  destruct (run_to_end env refresh (List.length before) (before ++ refresh :: after) w
                       (nth_error_middle before after refresh)) as [k Hk].
  destruct (refresh_run env w) as [r [Hr Hreq]].
  exists k, r, (snd (run env refresh w)).
  split; [| exact Hreq].
  rewrite Hk, Hr. cbn [ended]. rewrite replaceNth_middle. reflexivity.
Qed.

(** Goroutines in [refresh] run to their end one after the other: each
    sends a request. *)
Lemma all_refresh {M : Type} (env : Env) (n : nat) :
  forall (before : list (Prog Globals M ListDomainsResponse)) (w : World Globals M),
    exists schedule after w',
      runSchedule env schedule (before ++ repeat refresh n) w = ((before ++ after)%list, w')
      /\ List.length after = n
      /\ Forall (fun t => result t <> None) after
      /\ List.length (requests w') = (List.length (requests w) + n)%nat.
Proof.
  induction n as [| n IH]; intros before w.
  - exists [], [], w. cbn [repeat runSchedule List.length]. repeat split; [constructor | lia].
  - destruct (refresh_thread env before (repeat refresh n) w) as [k [r [w1 [Hk Hreq]]]].
    destruct (IH (before ++ [Ret r])%list w1) as [s [after [w' [Hs [Hlen [Hres Hn]]]]]].
    exists (repeat (List.length before) k ++ s)%list, (Ret r :: after), w'.
    rewrite runSchedule_app. cbn [repeat]. rewrite Hk. cbn [fst snd].
    replace (before ++ Ret r :: repeat refresh n)%list
      with ((before ++ [Ret r]) ++ repeat refresh n)%list
      by (rewrite <- app_assoc; reflexivity).
    rewrite Hs. split; [rewrite <- app_assoc; reflexivity |].
    split; [cbn [List.length]; rewrite Hlen; reflexivity |].
    split; [constructor; [discriminate | exact Hres] |].
    rewrite Hn, Hreq, length_app. cbn [List.length]. lia.
Qed.

(** Calls one after the other on a fresh cache: the stored response each
    time, one reading of the clock each, nothing else. *)
Lemma calls_fresh {M : Type} (env : Env) (n : nat) :
  forall w : World Globals M,
    (forall k, (clockReads w <= k < clockReads w + n)%nat ->
               clock env k < cacheExpires (globals w)) ->
    run env (calls n) w =
    (Done (repeat (listDomainsResponse (globals w)) n),
     mkWorld (globals w) (clockReads w + n) (requests w) (logged w) (channel w)).
Proof.
  induction n as [| n IH]; intros w H.
  - simpl. rewrite Nat.add_0_r. destruct w; reflexivity.
  - cbn [calls]. rewrite run_bind.
    rewrite getDomains_fresh by (apply H; lia).
    cbv beta iota. rewrite run_bind.
    rewrite IH by (intros k Hk; apply H; cbn [clockReads globals] in *; lia).
    cbn [run clockReads globals requests logged channel repeat].
    f_equal. f_equal. lia.
Qed.




Transparent createSOAPRequest UnmarshalSOAPResponse requestBody refresh.

(** ** The decoder *)

(** *** Every decoding reads one element, and the fuel suffices *)

Lemma Skip_loop_split (toks : list xml.Token) (fin : xml.DecodeError) :
  forall k j : nat,
    xml.Skip_loop toks fin (k + S j) =
    match xml.Skip_loop toks fin k with
    | inl e => inl e
    | inr d1 => xml.Skip_loop (xml.pending d1) (xml.final d1) j
    end.
Proof.
  induction toks as [| t rest IH]; intros k j; simpl; [reflexivity |].
  destruct t; try apply IH.
  - apply (IH (S k) j).
  - destruct k as [| k']; simpl; [reflexivity | apply IH].
Qed.

Lemma Skip_loop_shorter (toks : list xml.Token) (fin : xml.DecodeError) :
  forall (k : nat) (d : xml.Decoder),
    xml.Skip_loop toks fin k = inr d ->
    (List.length (xml.pending d) < List.length toks)%nat /\ xml.final d = fin.
Proof.
  induction toks as [| t rest IH]; intros k d H; simpl in H; [discriminate |].
  destruct t; try (apply IH in H; simpl; destruct H; split; [lia | assumption]).
  destruct k as [| k'].
  - injection H as H. subst d. simpl. split; [lia | reflexivity].
  - apply IH in H. simpl. destruct H; split; [lia | assumption].
Qed.

Lemma Skip_shorter (d d' : xml.Decoder) :
  xml.Skip d = inr d' ->
  (List.length (xml.pending d') < List.length (xml.pending d))%nat
  /\ xml.final d' = xml.final d.
Proof. apply Skip_loop_shorter. Qed.

(** After a start element: the element is skipped, then the rest of the
    enclosing element. *)
Lemma Skip_after_start (n : xml.Name) (a : list xml.Attr) (rest : list xml.Token)
    (fin : xml.DecodeError) (d1 d2 : xml.Decoder) :
  xml.Skip (xml.mkDecoder rest fin) = inr d1 ->
  xml.Skip d1 = inr d2 ->
  xml.Skip (xml.mkDecoder (xml.StartElement n a :: rest) fin) = inr d2.
Proof.
  unfold xml.Skip. cbn [xml.pending xml.final xml.Skip_loop]. intros H1 H2.
  pose proof (Skip_loop_split rest fin 0 0) as E. cbn [Nat.add] in E.
  rewrite E, H1. exact H2.
Qed.

Lemma collectData_sound (fuel : nat) :
  forall data d,
    (List.length (xml.pending d) < fuel)%nat ->
    match xml.collectData fuel data d with
    | xml.Ok _ d' => xml.Skip d = inr d'
    | xml.Err _ => True
    | xml.OutOfFuel => False
    end.
Proof.
  induction fuel as [| fuel IH]; intros data [toks fin] Hlen; simpl in Hlen; [lia |].
  destruct toks as [| t rest]; [exact I |].
  cbn [List.length] in Hlen. destruct t as [n a | n | s | s | tg s | s];
    cbn [xml.collectData xml.NextToken xml.pending xml.final].
  all: try (specialize (IH data (xml.mkDecoder rest fin) ltac:(simpl; lia));
            destruct (xml.collectData fuel data (xml.mkDecoder rest fin));
            exact IH).
  - destruct (xml.Skip (xml.mkDecoder rest fin)) as [e | d1] eqn:Hs; [exact I |].
    pose proof (Skip_shorter _ _ Hs) as [Hl _]. simpl in Hl.
    specialize (IH data d1 ltac:(lia)).
    destruct (xml.collectData fuel data d1); [| exact I | exact IH].
    exact (Skip_after_start _ _ _ _ _ _ Hs IH).
  - reflexivity.
  - specialize (IH (data ++ s) (xml.mkDecoder rest fin) ltac:(simpl; lia)).
    destruct (xml.collectData fuel (data ++ s) (xml.mkDecoder rest fin)); exact IH.
Qed.

Lemma unmarshalSimple_sound {T : Type} (copy : string -> xml.DecodeError + T) :
  sound (xml.unmarshalSimple copy).
Proof.
  intros fuel depth v n a d Hlen. unfold xml.unmarshalSimple.
  destruct (xml.maxUnmarshalDepth <=? depth); [exact I |].
  pose proof (collectData_sound fuel "" d Hlen) as Hc.
  destruct (xml.collectData fuel "" d) as [data d1 | e |]; [| exact I | exact Hc].
  destruct (copy data); [exact I | exact Hc].
Qed.

Lemma unmarshalSlice_sound {T : Type} (um : xml.unmarshaler T) (zero : T) :
  sound um -> sound (xml.unmarshalSlice um zero).
Proof.
  intros Hum fuel depth v n a d Hlen. unfold xml.unmarshalSlice.
  destruct (xml.maxUnmarshalDepth <=? depth); [exact I |].
  specialize (Hum fuel (depth + 1) zero n a d Hlen).
  destruct (um fuel (depth + 1) zero n a d); exact Hum.
Qed.

Lemma intoField_sound {St F : Type} (get : St -> F) (set : F -> St -> St)
    (um : xml.unmarshaler F) :
  sound um -> sound (xml.intoField get set um).
Proof.
  intros Hum fuel depth v n a d Hlen. unfold xml.intoField.
  specialize (Hum fuel depth (get v) n a d Hlen).
  destruct (um fuel depth (get v) n a d); exact Hum.
Qed.

Lemma findPath_sound {St : Type} (fs : list (xml.fieldInfo St)) (parents : list string)
    (local : string) (um : xml.unmarshaler St) :
  Forall soundField fs ->
  xml.findPath fs parents local = xml.PerfectMatch um -> sound um.
Proof.
  induction fs as [| f rest IH]; intros Hfs; simpl; [discriminate |].
  inversion Hfs as [| f' rest' Hf Hrest]; subst.
  destruct f as [name set | name fparents any um0]; [exact (IH Hrest) |].
  destruct ((List.length fparents <? List.length parents)%nat
            || negb (xml.isPrefixOf parents fparents)); [exact (IH Hrest) |].
  destruct ((List.length fparents =? List.length parents)%nat && String.eqb name local).
  - intros H. injection H as H. subst um0. exact Hf.
  - destruct ((List.length parents <? List.length fparents)%nat
              && String.eqb (nth (List.length parents) fparents "") local);
      [discriminate | exact (IH Hrest)].
Qed.

Lemma saveAny_sound {St : Type} (fs : list (xml.fieldInfo St)) (um : xml.unmarshaler St) :
  Forall soundField fs ->
  xml.saveAny fs = Some um -> sound um.
Proof.
  induction fs as [| f rest IH]; intros Hfs; simpl; [discriminate |].
  inversion Hfs as [| f' rest' Hf Hrest]; subst.
  destruct f as [name set | name fparents any um0]; [exact (IH Hrest) |].
  destruct any; [| exact (IH Hrest)].
  intros H. injection H as H. subst um0. exact Hf.
Qed.

Section StructSound.

Variable St : Type.
Variable fs : list (xml.fieldInfo St).
Hypothesis fs_sound : Forall soundField fs.

Lemma pathLoop_sound (depth : Z) (fuel : nat) :
  forall sv parents d,
    (List.length (xml.pending d) < fuel)%nat ->
    match xml.pathLoop fs depth fuel sv parents d with
    | xml.Ok (b, _) d' => b = true /\ xml.Skip d = inr d'
    | xml.Err _ => True
    | xml.OutOfFuel => False
    end.
Proof.
  induction fuel as [| fuel IH]; intros sv parents [toks fin] Hlen; simpl in Hlen; [lia |].
  destruct toks as [| t rest]; [exact I |].
  cbn [List.length] in Hlen. destruct t as [n a | n | s | s | tg s | s];
    cbn [xml.pathLoop xml.NextToken xml.pending xml.final].
  all: try (specialize (IH sv parents (xml.mkDecoder rest fin) ltac:(simpl; lia));
            destruct (xml.pathLoop fs depth fuel sv parents (xml.mkDecoder rest fin))
              as [[b sv1] d1 | e |]; exact IH).
  - (* a child element *)
    assert (Hchild : pathResult St sv (xml.mkDecoder rest fin)
              (xml.unmarshalPathWith (xml.pathLoop fs depth fuel) fs fuel sv parents n a depth
                                     (xml.mkDecoder rest fin))).
    { unfold xml.unmarshalPathWith, pathResult.
      destruct (xml.findPath fs parents (xml.Local n)) as [um | parents' |] eqn:Hfind.
      - pose proof (findPath_sound _ _ _ _ fs_sound Hfind fuel (depth + 1) sv n a
                                   (xml.mkDecoder rest fin) ltac:(simpl; lia)) as Hum.
        destruct (um fuel (depth + 1) sv n a (xml.mkDecoder rest fin)); exact Hum.
      - specialize (IH sv parents' (xml.mkDecoder rest fin) ltac:(simpl; lia)).
        destruct (xml.pathLoop fs depth fuel sv parents' (xml.mkDecoder rest fin))
          as [[b sv1] d1 | e |]; [| exact I | exact IH].
        destruct IH as [Hb Hs]. subst b. exact Hs.
      - split; reflexivity. }
    unfold pathResult in Hchild.
    destruct (xml.unmarshalPathWith (xml.pathLoop fs depth fuel) fs fuel sv parents n a depth
                                    (xml.mkDecoder rest fin)) as [[b sv1] d1 | e |];
      [| exact I | exact Hchild].
    destruct b.
    + pose proof (Skip_shorter _ _ Hchild) as [Hl _]. simpl in Hl.
      specialize (IH sv1 parents d1 ltac:(lia)).
      destruct (xml.pathLoop fs depth fuel sv1 parents d1) as [[b sv2] d2 | e |];
        [| exact I | exact IH].
      destruct IH as [Hb Hs]. split; [exact Hb |].
      exact (Skip_after_start _ _ _ _ _ _ Hchild Hs).
    + destruct Hchild as [_ Hd]. subst d1.
      destruct (xml.Skip (xml.mkDecoder rest fin)) as [e | d1] eqn:Hs; [exact I |].
      pose proof (Skip_shorter _ _ Hs) as [Hl _]. simpl in Hl.
      specialize (IH sv1 parents d1 ltac:(lia)).
      destruct (xml.pathLoop fs depth fuel sv1 parents d1) as [[b sv2] d2 | e |];
        [| exact I | exact IH].
      destruct IH as [Hb Hs2]. split; [exact Hb |].
      exact (Skip_after_start _ _ _ _ _ _ Hs Hs2).
  - (* the end of the element *)
    split; reflexivity.
Qed.

Lemma unmarshalPath_sound (fuel : nat) (sv : St) (parents : list string) (n : xml.Name)
    (a : list xml.Attr) (depth : Z) (d : xml.Decoder) :
  (List.length (xml.pending d) < fuel)%nat ->
  pathResult St sv d (xml.unmarshalPath fs fuel sv parents n a depth d).
Proof.
  intros Hlen. unfold xml.unmarshalPath, xml.unmarshalPathWith, pathResult.
  destruct (xml.findPath fs parents (xml.Local n)) as [um | parents' |] eqn:Hfind.
  - pose proof (findPath_sound _ _ _ _ fs_sound Hfind fuel (depth + 1) sv n a d Hlen) as Hum.
    destruct (um fuel (depth + 1) sv n a d); exact Hum.
  - pose proof (pathLoop_sound depth fuel sv parents' d Hlen) as H.
    destruct (xml.pathLoop fs depth fuel sv parents' d) as [[b sv1] d1 | e |];
      [| exact I | exact H].
    destruct H as [Hb Hs]. subst b. exact Hs.
  - split; reflexivity.
Qed.

Lemma structLoop_sound (depth : Z) (fuel : nat) :
  forall sv d,
    (List.length (xml.pending d) < fuel)%nat ->
    match xml.structLoop fs depth fuel sv d with
    | xml.Ok _ d' => xml.Skip d = inr d'
    | xml.Err _ => True
    | xml.OutOfFuel => False
    end.
Proof.
  induction fuel as [| fuel IH]; intros sv [toks fin] Hlen; simpl in Hlen; [lia |].
  destruct toks as [| t rest]; [exact I |].
  cbn [List.length] in Hlen. destruct t as [n a | n | s | s | tg s | s];
    cbn [xml.structLoop xml.NextToken xml.pending xml.final].
  all: try (specialize (IH sv (xml.mkDecoder rest fin) ltac:(simpl; lia));
            destruct (xml.structLoop fs depth fuel sv (xml.mkDecoder rest fin))
              as [sv1 d1 | e |]; exact IH).
  - pose proof (unmarshalPath_sound fuel sv [] n a depth (xml.mkDecoder rest fin)
                                    ltac:(simpl; lia)) as Hchild.
    unfold pathResult in Hchild.
    destruct (xml.unmarshalPath fs fuel sv [] n a depth (xml.mkDecoder rest fin))
      as [[b sv1] d1 | e |]; [| exact I | exact Hchild].
    destruct b.
    + pose proof (Skip_shorter _ _ Hchild) as [Hl _]. simpl in Hl.
      specialize (IH sv1 d1 ltac:(lia)).
      destruct (xml.structLoop fs depth fuel sv1 d1) as [sv2 d2 | e |];
        [| exact I | exact IH].
      exact (Skip_after_start _ _ _ _ _ _ Hchild IH).
    + destruct Hchild as [_ Hd]. subst d1.
      destruct (xml.saveAny fs) as [um |] eqn:Hany.
      * pose proof (saveAny_sound _ _ fs_sound Hany fuel (depth + 1) sv1 n a
                                  (xml.mkDecoder rest fin) ltac:(simpl; lia)) as Hs.
        destruct (um fuel (depth + 1) sv1 n a (xml.mkDecoder rest fin))
          as [sv2 d2 | e |]; [| exact I | exact Hs].
        pose proof (Skip_shorter _ _ Hs) as [Hl _]. simpl in Hl.
        specialize (IH sv2 d2 ltac:(lia)).
        destruct (xml.structLoop fs depth fuel sv2 d2) as [sv3 d3 | e |];
          [| exact I | exact IH].
        exact (Skip_after_start _ _ _ _ _ _ Hs IH).
      * destruct (xml.Skip (xml.mkDecoder rest fin)) as [e | d1] eqn:Hs; [exact I |].
        pose proof (Skip_shorter _ _ Hs) as [Hl _]. simpl in Hl.
        specialize (IH sv1 d1 ltac:(lia)).
        destruct (xml.structLoop fs depth fuel sv1 d1) as [sv2 d2 | e |];
          [| exact I | exact IH].
        exact (Skip_after_start _ _ _ _ _ _ Hs IH).
  - reflexivity.
Qed.

End StructSound.

Lemma unmarshalStruct_sound {St : Type} (ti : xml.typeInfo St) :
  Forall soundField (xml.fields ti) -> sound (xml.unmarshalStruct ti).
Proof.
  intros Hfs fuel depth sv n a d Hlen. unfold xml.unmarshalStruct.
  destruct (xml.maxUnmarshalDepth <=? depth); [exact I |].
  destruct (xml.xmlname ti) as [[tag setName] |].
  - destruct (negb (String.eqb tag "") && negb (String.eqb tag (xml.Local n))); [exact I |].
    apply (structLoop_sound St (xml.fields ti) Hfs). exact Hlen.
  - apply (structLoop_sound St (xml.fields ti) Hfs). exact Hlen.
Qed.

Ltac sound_fields :=
  repeat first
    [ apply Forall_nil
    | apply Forall_cons
    | exact I
    | apply intoField_sound
    | apply unmarshalSlice_sound
    | apply unmarshalSimple_sound
    | apply unmarshalStruct_sound ].

Lemma apiSOAPEnvelope_sound :
  sound (xml.unmarshalStruct apiSOAPEnvelope_typeInfo).
Proof.
  apply unmarshalStruct_sound. unfold apiSOAPEnvelope_typeInfo. cbn [xml.fields soundField].
  sound_fields.
Qed.

(** *** The decoding of a response *)

Lemma findStart_noStart (toks : list xml.Token) (fin : xml.DecodeError) :
  noStart toks = true -> xml.findStart toks fin = inl fin.
Proof.
  induction toks as [| t rest IH]; simpl; [reflexivity |].
  intros H. apply andb_true_iff in H. destruct H as [Ht Hrest].
  destruct t; try discriminate; exact (IH Hrest).
Qed.

Lemma findStart_first (pre rest : list xml.Token) (n : xml.Name) (a : list xml.Attr)
    (fin : xml.DecodeError) :
  noStart pre = true ->
  xml.findStart (pre ++ xml.StartElement n a :: rest) fin
  = inr (n, a, xml.mkDecoder rest fin).
Proof.
  induction pre as [| t pre IH]; simpl; [reflexivity |].
  intros H. apply andb_true_iff in H. destruct H as [Ht Hrest].
  destruct t; try discriminate; exact (IH Hrest).
Qed.

(** Tokens that are neither start nor end elements pass in the loop over
    the content of a struct. *)
Lemma structLoop_textOnly {St : Type} (fs : list (xml.fieldInfo St)) (depth : Z)
    (misc rest : list xml.Token) (fin : xml.DecodeError) :
  textOnly misc = true ->
  forall (fuel : nat) (sv : St),
    xml.structLoop fs depth (List.length misc + fuel) sv (xml.mkDecoder (misc ++ rest) fin)
    = xml.structLoop fs depth fuel sv (xml.mkDecoder rest fin).
Proof.
  induction misc as [| t misc IH]; intros H fuel sv; [reflexivity |].
  simpl in H. apply andb_true_iff in H. destruct H as [Ht Hmisc].
  cbn [List.length Nat.add app xml.structLoop xml.NextToken xml.pending xml.final].
  destruct t; try discriminate; exact (IH Hmisc fuel sv).
Qed.

Lemma assignAttrs_Body (attrs : list xml.Attr)
    (sv : apiSOAPEnvelope ListDomainsResponse) :
  Body (xml.assignAttrs (xml.fields apiSOAPEnvelope_typeInfo) attrs sv) = Body sv.
Proof.
  unfold xml.assignAttrs. revert sv.
  induction attrs as [| a attrs IH]; intros sv; simpl; [reflexivity |].
  rewrite IH.
  destruct (String.eqb (xml.Local (xml.AttrName a)) "xmlns:SOAP-ENV");
    destruct (String.eqb (xml.Local (xml.AttrName a)) "xmlns:ns1");
    destruct (String.eqb (xml.Local (xml.AttrName a)) "xmlns:ns2"); reflexivity.
Qed.

(** What [Decode] answers for the envelope: never out of fuel; and where
    it succeeds, the first start element is named [Envelope] and the element
    it opens is closed in the input. *)
Lemma DecodeEnvelope_result (d : xml.Decoder) (r : ListDomainsResponse) :
  match DecodeEnvelope d r with
  | xml.Ok _ d' =>
    exists n a d1,
      xml.findStart (xml.pending d) (xml.final d) = inr (n, a, d1)
      /\ xml.Local n = "Envelope"
      /\ xml.Skip d1 = inr d'
  | xml.Err _ => True
  | xml.OutOfFuel => False
  end.
Proof.
  unfold DecodeEnvelope, xml.Decode.
  destruct (xml.findStart (xml.pending d) (xml.final d)) as [e | [[n a] d1]]; [exact I |].
  pose proof (apiSOAPEnvelope_sound (S (List.length (xml.pending d1))) 0
                (mkEnvelope (xml.mkName "" "") "" "" "" (mkBody r)) n a d1
                ltac:(lia)) as H.
  destruct (xml.unmarshalStruct apiSOAPEnvelope_typeInfo (S (List.length (xml.pending d1))) 0
              (mkEnvelope (xml.mkName "" "") "" "" "" (mkBody r)) n a d1)
    as [env d' | e |] eqn:Hu; [| exact I | exact H].
  exists n, a, d1. split; [reflexivity |]. split; [| exact H].
  unfold xml.unmarshalStruct in Hu. cbn [xml.xmlname apiSOAPEnvelope_typeInfo] in Hu.
  change (xml.maxUnmarshalDepth <=? 0) with false in Hu. cbv iota in Hu.
  change (negb (String.eqb "Envelope" "")) with true in Hu.
  destruct (String.eqb "Envelope" (xml.Local n)) eqn:Hn; [| discriminate Hu].
  apply String.eqb_eq in Hn. symmetry. exact Hn.
Qed.

Lemma UnmarshalSOAPResponse_wrong_root (d d1 : xml.Decoder) (r : ListDomainsResponse)
    (n : xml.Name) (a : list xml.Attr) :
  xml.findStart (xml.pending d) (xml.final d) = inr (n, a, d1) ->
  xml.Local n <> "Envelope" ->
  UnmarshalSOAPResponse d r
  = inl (UnmarshalErr (xml.UnmarshalError "Envelope" (xml.Local n))).
Proof.
  intros Hs Hn. unfold UnmarshalSOAPResponse, DecodeEnvelope, xml.Decode. rewrite Hs.
  unfold xml.unmarshalStruct. cbn [xml.xmlname apiSOAPEnvelope_typeInfo].
  change (xml.maxUnmarshalDepth <=? 0) with false. cbv iota.
  change (negb (String.eqb "Envelope" "")) with true.
  destruct (String.eqb "Envelope" (xml.Local n)) eqn:E.
  - apply String.eqb_eq in E. symmetry in E. contradiction.
  - reflexivity.
Qed.

(** The loop over the content of the envelope, from the start element
    [Envelope] on. *)
Lemma DecodeEnvelope_content (pre rest : list xml.Token) (fin : xml.DecodeError)
    (n : xml.Name) (a : list xml.Attr) (r : ListDomainsResponse) :
  noStart pre = true ->
  xml.Local n = "Envelope" ->
  DecodeEnvelope (xml.mkDecoder (pre ++ xml.StartElement n a :: rest) fin) r
  = xml.structLoop (xml.fields apiSOAPEnvelope_typeInfo) 0 (S (List.length rest))
      (xml.assignAttrs (xml.fields apiSOAPEnvelope_typeInfo) a
         (mkEnvelope n "" "" "" (mkBody r)))
      (xml.mkDecoder rest fin).
Proof.
  intros Hpre Hn. unfold DecodeEnvelope, xml.Decode.
  cbn [xml.pending xml.final]. rewrite (findStart_first pre rest n a fin Hpre).
  unfold xml.unmarshalStruct. cbn [xml.xmlname apiSOAPEnvelope_typeInfo xml.pending].
  change (xml.maxUnmarshalDepth <=? 0) with false. cbv iota.
  rewrite Hn. reflexivity.
Qed.

Lemma UnmarshalSOAPResponse_empty_envelope (pre misc rest : list xml.Token)
    (fin : xml.DecodeError) (n m : xml.Name) (a : list xml.Attr)
    (r : ListDomainsResponse) :
  noStart pre = true ->
  textOnly misc = true ->
  xml.Local n = "Envelope" ->
  UnmarshalSOAPResponse
    (xml.mkDecoder (pre ++ xml.StartElement n a :: misc ++ xml.EndElement m :: rest) fin) r
  = inr r.
Proof.
  intros Hpre Hmisc Hn. unfold UnmarshalSOAPResponse.
  rewrite (DecodeEnvelope_content pre _ fin n a r Hpre Hn).
  rewrite length_app. cbn [List.length].
  replace (S (List.length misc + S (List.length rest)))
    with (List.length misc + S (S (List.length rest)))%nat by lia.
  rewrite (structLoop_textOnly _ 0 misc _ fin Hmisc).
  cbn [xml.structLoop xml.NextToken xml.pending xml.final].
  rewrite assignAttrs_Body. reflexivity.
Qed.

Lemma UnmarshalSOAPResponse_wrong_operation (pre misc1 misc2 rest : list xml.Token)
    (fin : xml.DecodeError) (n nb x : xml.Name) (a ab ax : list xml.Attr)
    (r : ListDomainsResponse) :
  noStart pre = true ->
  textOnly misc1 = true ->
  textOnly misc2 = true ->
  xml.Local n = "Envelope" ->
  xml.Local nb = "Body" ->
  xml.Local x <> "listDomainsResponse" ->
  UnmarshalSOAPResponse
    (xml.mkDecoder (pre ++ xml.StartElement n a :: misc1
                        ++ xml.StartElement nb ab :: misc2
                        ++ xml.StartElement x ax :: rest) fin) r
  = inl (UnmarshalErr (xml.UnmarshalError "listDomainsResponse" (xml.Local x))).
Proof.
  intros Hpre H1 H2 Hn Hnb Hx. unfold UnmarshalSOAPResponse.
  rewrite (DecodeEnvelope_content pre _ fin n a r Hpre Hn).
  rewrite length_app. cbn [List.length].
  replace (S (List.length misc1 + S (List.length (misc2 ++ xml.StartElement x ax :: rest))))
    with (List.length misc1 + S (S (List.length (misc2 ++ xml.StartElement x ax :: rest))))%nat
    by lia.
  rewrite (structLoop_textOnly _ 0 misc1 _ fin H1).
  cbn [xml.structLoop xml.NextToken xml.pending xml.final].
  unfold xml.unmarshalPath, xml.unmarshalPathWith.
  cbn [xml.findPath apiSOAPEnvelope_typeInfo xml.fields List.length Nat.ltb Nat.leb
       Nat.eqb xml.isPrefixOf negb orb andb].
  rewrite Hnb. cbn [String.eqb Ascii.eqb Bool.eqb andb].
  unfold xml.intoField at 1. unfold xml.unmarshalStruct at 1.
  change (xml.maxUnmarshalDepth <=? 0 + 1) with false. cbv iota.
  cbn [xml.xmlname apiSOAPBody_typeInfo xml.fields xml.assignAttrs].
  rewrite length_app. cbn [List.length].
  replace (S (List.length misc2 + S (List.length rest)))
    with (List.length misc2 + S (S (List.length rest)))%nat by lia.
  match goal with
  | |- context [xml.structLoop _ (0 + 1) _ ?sv0 _] => generalize sv0
  end.
  intros body0.
  rewrite (structLoop_textOnly _ (0 + 1) misc2 _ fin H2).
  cbn [xml.structLoop xml.NextToken xml.pending xml.final].
  unfold xml.unmarshalPath, xml.unmarshalPathWith.
  cbn [xml.findPath List.length Nat.ltb Nat.leb Nat.eqb xml.isPrefixOf negb orb andb].
  assert (Herr : forall fuel depth sv,
             depth < xml.maxUnmarshalDepth ->
             xml.intoField Content (fun (v : ListDomainsResponse) (_ : apiSOAPBody ListDomainsResponse) => mkBody v)
               (xml.unmarshalStruct ListDomainsResponse_typeInfo) fuel depth sv x ax
               (xml.mkDecoder rest fin)
             = xml.Err (xml.UnmarshalError "listDomainsResponse" (xml.Local x))).
  { intros fuel depth sv Hd. unfold xml.intoField, xml.unmarshalStruct.
    destruct (Z.leb_spec xml.maxUnmarshalDepth depth) as [Hle | _]; [lia |].
    cbn [xml.xmlname ListDomainsResponse_typeInfo].
    change (negb (String.eqb "listDomainsResponse" "")) with true.
    destruct (String.eqb "listDomainsResponse" (xml.Local x)) eqn:E.
    - apply String.eqb_eq in E. symmetry in E. contradiction.
    - reflexivity. }
  destruct (String.eqb "Content" (xml.Local x)).
  - cbn [andb]. rewrite Herr by (vm_compute; reflexivity). reflexivity.
  - cbn [andb xml.saveAny]. rewrite Herr by (vm_compute; reflexivity). reflexivity.
Qed.




(** A response in order decodes to its domains; an [autoRenew] that is no
    number is an error of the decoder, with the nesting in place. *)
Example UnmarshalSOAPResponse_examples :
  UnmarshalSOAPResponse exampleBody zeroResponse = inr exampleResponse
  /\ wellFormed exampleBody = true
  /\ expectedNesting exampleBody = true
  /\ UnmarshalSOAPResponse
       (xml.mkDecoder
          (element "Envelope" (element "Body" (element "listDomainsResponse"
             (element "return" (element "domainList" (element "item"
                (textElement "autoRenew" "yes")))))))
          xml.EOF) zeroResponse
     = inl (UnmarshalErr (xml.NumError "yes")).
Proof.
  vm_compute. repeat split.
Qed.

(** ** A whole scrape *)

Lemma sendAll_app {G M A : Type} (l1 l2 : list M) (k : Prog G M A) :
  sendAll (l1 ++ l2) k = sendAll l1 (sendAll l2 k).
Proof.
  induction l1 as [| m l1 IH]; simpl; [reflexivity | rewrite IH; reflexivity].
Qed.

Lemma float64_timestamp (s : string) :
  float64 (dateStringToTimestamp s) = dateStringToTimestamp s.
Proof.
  apply float64_exact, dateStringToTimestamp_range.
Qed.

(** The loop of [Collect] sends the samples of the domains in order. *)
Lemma collectDomains_sendAll (ds : list DomainInfo) :
  forallb validLabels (filter isOK ds) = true ->
  collectDomains newCollector ds = sendAll (exposition ds) (Ret tt).
Proof.
  induction ds as [| d ds IH]; intros Hv; [reflexivity |].
  unfold exposition in *. cbn [filter] in *.
  destruct (isOK d) eqn:Hok.
  - cbn [forallb] in Hv. apply andb_true_iff in Hv. destruct Hv as [Hd Hrest].
    unfold isOK in Hok. apply String.eqb_eq in Hok.
    rewrite (collectDomains_ok d ds Hok Hd).
    cbn [flat_map]. rewrite (sendAll_app (samples d)). rewrite (IH Hrest).
    unfold samples, GetDomainExpiryTimestamp.
    rewrite float64_timestamp.
    change (float64 1) with 1. reflexivity.
  - unfold isOK in Hok. apply String.eqb_neq in Hok.
    rewrite (collectDomains_skip newCollector d ds Hok). apply IH. exact Hv.
Qed.

Lemma exposition_length (ds : list DomainInfo) :
  List.length (exposition ds)
  = fold_right (fun d n => (3 + List.length (NameServers d) + n)%nat) 0%nat
               (filter isOK ds).
Proof.
  unfold exposition.
  induction (filter isOK ds) as [| d l IH]; [reflexivity |].
  cbn [flat_map fold_right]. rewrite length_app, IH.
  unfold samples. rewrite length_app, length_map. reflexivity.
Qed.

Lemma Collect_after_getDomains (env : Env) (w w1 : World Globals prometheus.Metric)
    (resp : ListDomainsResponse) :
  run env getDomains w = (Done resp, w1) ->
  run env (Collect newCollector) w
  = run env (collectDomains newCollector (Domains (Return resp))) w1.
Proof.
  intros H. unfold Collect. rewrite run_bind, H. reflexivity.
Qed.

(** X1. A scrape sends, for the response [getDomains] returns, the samples
    of the domains whose status is ["OK"], domain after domain in the order
    of the response: for each, the auto-renew, the DNSSEC key count and the
    expiry sample and then one name server sample per name server; nothing
    for the other domains, and nothing else.  It does not panic (the label
    values being valid UTF-8) and touches nothing but the channel after
    [getDomains] has returned.  The number of samples is three plus the
    number of name servers, summed over the domains in order. *)
Theorem Collect_sends_exposition (env : Env) (w w1 : World Globals prometheus.Metric)
    (resp : ListDomainsResponse) :
  run env getDomains w = (Done resp, w1) ->
  forallb validLabels (filter isOK (Domains (Return resp))) = true ->
  run env (Collect newCollector) w
  = (Done tt,
     mkWorld (globals w1) (clockReads w1) (requests w1) (logged w1)
             (channel w1 ++ exposition (Domains (Return resp))))
  /\ List.length (exposition (Domains (Return resp)))
     = fold_right (fun d n => (3 + List.length (NameServers d) + n)%nat) 0%nat
                  (filter isOK (Domains (Return resp))).
Proof.
  intros Hg Hv. split; [| apply exposition_length].
  rewrite (Collect_after_getDomains env w w1 resp Hg).
  rewrite (collectDomains_sendAll _ Hv), run_sendAll. reflexivity.
Qed.

Lemma Collect_sends_exposition_witness :
  List.length
    (channel (snd (run exampleEnv (Collect newCollector) (freshWorld exampleGlobals))))
  = 5%nat.
Proof.
  assert (Hg : run exampleEnv getDomains (freshWorld exampleGlobals)
               = (Done exampleResponse,
                  snd (run exampleEnv getDomains
                           (freshWorld (M := prometheus.Metric) exampleGlobals))))
    by (vm_compute; reflexivity).
  assert (Hv : forallb validLabels (filter isOK (Domains (Return exampleResponse))) = true)
    by (vm_compute; reflexivity).
  destruct (Collect_sends_exposition exampleEnv _ _ exampleResponse Hg Hv) as [Hr Hl].
  rewrite Hr. cbn [snd channel]. rewrite length_app, Hl.
  vm_compute. reflexivity.
Defined.

(** X2. A scrape while the cached response has not expired (the clock
    reads strictly before [cacheExpires]) sends no request upstream, logs
    nothing and leaves the variables as they are: it reads the clock once
    and sends the samples of the cached response. *)
Theorem Collect_within_ttl (env : Env) (w : World Globals prometheus.Metric) :
  clock env (clockReads w) < cacheExpires (globals w) ->
  forallb validLabels
          (filter isOK (Domains (Return (listDomainsResponse (globals w))))) = true ->
  run env (Collect newCollector) w
  = (Done tt,
     mkWorld (globals w) (S (clockReads w)) (requests w) (logged w)
             (channel w
              ++ exposition (Domains (Return (listDomainsResponse (globals w)))))).
Proof.
  intros Hfresh Hv.
  rewrite (Collect_after_getDomains env w _ _ (getDomains_fresh env _ w Hfresh)).
  rewrite (collectDomains_sendAll _ Hv), run_sendAll. reflexivity.
Qed.

Lemma Collect_within_ttl_witness :
  requests
    (snd (run exampleEnv (Collect newCollector)
              (freshWorld (mkGlobals exampleResponse 5000 "123" "abc" 3600))))
  = [].
Proof.
  rewrite (Collect_within_ttl exampleEnv
             (freshWorld (mkGlobals exampleResponse 5000 "123" "abc" 3600))).
  - reflexivity.
  - vm_compute. reflexivity.
  - vm_compute. reflexivity.
Defined.

(** X3. [MustNewConstMetric] panics on a label value that is not valid
    UTF-8: a scrape over a response in which a domain of status ["OK"] has
    such a name panics at this domain, after the samples of the domains
    before it have been sent, and sends nothing for it or for the domains
    after it. *)
Theorem Collect_invalid_name_panics (env : Env) (w w1 : World Globals prometheus.Metric)
    (resp : ListDomainsResponse) (pre rest : list DomainInfo) (d : DomainInfo) :
  run env getDomains w = (Done resp, w1) ->
  Domains (Return resp) = (pre ++ d :: rest)%list ->
  forallb validLabels (filter isOK pre) = true ->
  Status d = "OK" ->
  utf8.ValidString (DomainName d) = false ->
  exists msg,
    run env (Collect newCollector) w
    = (Panicked msg,
       mkWorld (globals w1) (clockReads w1) (requests w1) (logged w1)
               (channel w1 ++ exposition pre)).
Proof.
  intros Hg Hds Hv Hok Hbad. exists "label values rejected".
  rewrite (Collect_after_getDomains env w w1 resp Hg), Hds.
  clear Hg Hds. revert w1.
  induction pre as [| p pre IH]; intros w1.
  - cbn [app collectDomains]. rewrite Hok. cbn [String.eqb Ascii.eqb Bool.eqb negb].
    unfold sendMetric, prometheus.NewConstMetric, prometheus.validateLabelValues.
    cbn [forallb]. rewrite Hbad. rewrite andb_false_r. cbn [run].
    unfold exposition. cbn [filter flat_map]. rewrite app_nil_r.
    destruct w1; reflexivity.
  - unfold exposition in *. cbn [filter] in *.
    destruct (isOK p) eqn:Hp.
    + cbn [forallb] in Hv. apply andb_true_iff in Hv. destruct Hv as [Hd Hrest].
      unfold isOK in Hp. apply String.eqb_eq in Hp.
      change ((p :: pre) ++ d :: rest)%list with (p :: (pre ++ d :: rest))%list.
      rewrite (collectDomains_ok p _ Hp Hd), run_sendAll.
      rewrite (IH Hrest). cbn [globals clockReads requests logged channel flat_map].
      unfold samples, GetDomainExpiryTimestamp. rewrite float64_timestamp.
      change (float64 1) with 1. rewrite <- !app_assoc. reflexivity.
    + unfold isOK in Hp. apply String.eqb_neq in Hp.
      change ((p :: pre) ++ d :: rest)%list with (p :: (pre ++ d :: rest))%list.
      rewrite (collectDomains_skip newCollector p _ Hp). apply IH. exact Hv.
Qed.

Lemma Collect_invalid_name_panics_witness :
  exists msg,
    fst (run exampleEnv (Collect newCollector)
             (freshWorld
                (mkGlobals
                   (mkResponse (xml.mkName "" "listDomainsResponse")
                      (mkDomainList (mkCommon "OK" "")
                         [exampleDomain;
                          mkDomainInfo "OK" "" badUTF8 "ok" "" "" "" "" 0 [] [];
                          exampleDomain]))
                   5000 "123" "abc" 3600)))
    = Panicked msg.
Proof.
  destruct (Collect_invalid_name_panics exampleEnv
              (freshWorld
                 (mkGlobals
                    (mkResponse (xml.mkName "" "listDomainsResponse")
                       (mkDomainList (mkCommon "OK" "")
                          [exampleDomain;
                           mkDomainInfo "OK" "" badUTF8 "ok" "" "" "" "" 0 [] [];
                           exampleDomain]))
                    5000 "123" "abc" 3600))
              _ _ [exampleDomain] [exampleDomain]
              (mkDomainInfo "OK" "" badUTF8 "ok" "" "" "" "" 0 [] [])
              eq_refl eq_refl eq_refl eq_refl eq_refl) as [msg H].
  exists msg. rewrite H. reflexivity.
Defined.

(** ** The TTL at its bounds *)

Opaque createSOAPRequest UnmarshalSOAPResponse requestBody refresh.

Lemma run_bind_Ret_snd {G M A B : Type} (env : Env) (p : Prog G M A) (f : A -> B)
    (w : World G M) :
  snd (run env (bind p (fun x => Ret (f x))) w) = snd (run env p w).
Proof.
  rewrite run_bind. destruct (run env p w) as [[a | msg] w']; reflexivity.
Qed.

(** Where the expiry a refresh stores is never after the reading of the
    clock it was computed from, and the clock does not go back, no call
    finds the cache fresh: every call sends a request. *)
Lemma calls_never_fresh {M : Type} (env : Env) (ttl : Z) (n : nat) :
  (forall i j, (i <= j)%nat -> clock env i <= clock env j) ->
  (forall i, add64 (clock env i) ttl <= clock env i) ->
  forall w : World Globals M,
    cacheTTLSeconds (globals w) = ttl ->
    cacheExpires (globals w) <= clock env (clockReads w) ->
    List.length (requests (snd (run env (calls n) w)))
    = (List.length (requests w) + n)%nat.
Proof.
  intros Hmono Hexp. induction n as [| n IH]; intros w Httl Hstale.
  - simpl. lia.
  - cbn [calls]. rewrite run_bind.
    rewrite (getDomains_stale env M w Hstale).
    destruct (reply env w) as [err | data].
    + cbv beta iota. rewrite run_bind_Ret_snd, IH.
      * cbn [requests]. rewrite length_app. cbn [List.length]. lia.
      * exact Httl.
      * cbn [globals clockReads]. etransitivity; [exact Hstale |].
        apply Hmono. lia.
    + destruct (UnmarshalSOAPResponse data zeroResponse) as [err2 | response].
      * cbv beta iota. rewrite run_bind_Ret_snd, IH.
        -- cbn [requests]. rewrite length_app. cbn [List.length]. lia.
        -- exact Httl.
        -- cbn [globals clockReads]. etransitivity; [exact Hstale |].
           apply Hmono. lia.
      * cbv beta iota. rewrite run_bind_Ret_snd, IH.
        -- cbn [requests]. rewrite length_app. cbn [List.length]. lia.
        -- cbn [globals set_cacheExpires set_listDomainsResponse cacheTTLSeconds].
           exact Httl.
        -- cbn [globals clockReads set_cacheExpires set_listDomainsResponse cacheExpires
                cacheTTLSeconds].
           rewrite Httl. etransitivity; [apply Hexp |]. apply Hmono. lia.
Qed.

Transparent createSOAPRequest UnmarshalSOAPResponse requestBody refresh.

Lemma add64_exact (a b : Z) :
  minInt64 <= a + b <= maxInt64 -> add64 a b = a + b.
Proof.
  intros H. unfold add64. apply wrap64_small. unfold inInt64.
  apply andb_true_iff. split; apply Z.leb_le; lia.
Qed.

Lemma add64_overflow (a b : Z) :
  maxInt64 < a + b -> a <= maxInt64 -> b <= maxInt64 -> add64 a b = a + b - 2 ^ 64.
Proof.
  unfold add64, wrap64, maxInt64. intros H Ha Hb.
  assert (E : (a + b + 2 ^ 63) mod 2 ^ 64 = a + b + 2 ^ 63 - 2 ^ 64).
  { symmetry. apply Z.mod_unique with (q := 1); lia. }
  rewrite E. lia.
Qed.

(** X4. A TTL of zero or less switches the cache off: with a clock that
    does not go back, every one of [n] calls of [getDomains], one after the
    other, finds the entry expired (also the entry the call before has just
    stored) and sends a request upstream, whatever the upstream answers. *)
Theorem getDomains_ttl_not_positive (env : Env) (M : Type) (w : World Globals M)
    (n : nat) :
  (forall i j, (i <= j)%nat -> clock env i <= clock env j) ->
  (forall i, 0 <= clock env i <= maxInt64) ->
  minInt64 <= cacheTTLSeconds (globals w) <= 0 ->
  cacheExpires (globals w) <= clock env (clockReads w) ->
  List.length (requests (snd (run env (calls n) w)))
  = (List.length (requests w) + n)%nat.
Proof.
  intros Hmono Hclock Httl Hstale.
  apply (calls_never_fresh env (cacheTTLSeconds (globals w))); auto.
  intros i. specialize (Hclock i).
  rewrite add64_exact; unfold minInt64, maxInt64 in *; lia.
Qed.

Lemma getDomains_ttl_not_positive_witness :
  List.length
    (requests (snd (run frozenEnv (calls 3)
                        (freshWorld (M := prometheus.Metric) (initialGlobals "123" "abc" 0)))))
  = 3%nat.
Proof.
  apply (getDomains_ttl_not_positive frozenEnv prometheus.Metric
           (freshWorld (initialGlobals "123" "abc" 0)) 3).
  - intros i j Hij. unfold frozenEnv. cbn [clock]. lia.
  - intros i. unfold frozenEnv, maxInt64. cbn [clock]. lia.
  - unfold minInt64. cbn [freshWorld initialGlobals globals cacheTTLSeconds]. lia.
  - unfold frozenEnv. cbn [freshWorld initialGlobals globals cacheExpires clock clockReads]. lia.
Defined.

(** X5. The expiry is computed in [int64]: with a TTL so large that the
    clock plus the TTL passes the greatest [int64], the sum wraps around to
    an instant before the epoch, and the entry a refresh stores has expired
    already.  Every one of [n] calls, one after the other, sends a request
    upstream. *)
Theorem getDomains_ttl_overflow (env : Env) (M : Type) (w : World Globals M) (n : nat) :
  (forall i j, (i <= j)%nat -> clock env i <= clock env j) ->
  (forall i, 0 <= clock env i <= maxInt64) ->
  cacheTTLSeconds (globals w) <= maxInt64 ->
  (forall i, maxInt64 < clock env i + cacheTTLSeconds (globals w)) ->
  cacheExpires (globals w) <= clock env (clockReads w) ->
  List.length (requests (snd (run env (calls n) w)))
  = (List.length (requests w) + n)%nat.
Proof.
  intros Hmono Hclock Httl Hover Hstale.
  apply (calls_never_fresh env (cacheTTLSeconds (globals w))); auto.
  intros i. specialize (Hclock i). specialize (Hover i).
  rewrite add64_overflow; unfold maxInt64 in *; lia.
Qed.

Lemma getDomains_ttl_overflow_witness :
  List.length
    (requests (snd (run frozenEnv (calls 3)
                        (freshWorld (M := prometheus.Metric)
                                    (initialGlobals "123" "abc" maxInt64)))))
  = 3%nat.
Proof.
  apply (getDomains_ttl_overflow frozenEnv prometheus.Metric
           (freshWorld (initialGlobals "123" "abc" maxInt64)) 3).
  - intros i j Hij. unfold frozenEnv. cbn [clock]. lia.
  - intros i. unfold frozenEnv, maxInt64. cbn [clock]. lia.
  - cbn [freshWorld initialGlobals globals cacheTTLSeconds]. lia.
  - intros i. unfold frozenEnv, maxInt64.
    cbn [freshWorld initialGlobals globals cacheTTLSeconds clock]. lia.
  - unfold frozenEnv. cbn [freshWorld initialGlobals globals cacheExpires clock clockReads]. lia.
Defined.

(** ** The exchange with the upstream *)

Opaque createSOAPRequest UnmarshalSOAPResponse.

Lemma run_SendSOAPRequest {G M : Type} (env : Env) (param : ListDomainsRequest)
    (body : string) (w : World G M) :
  createSOAPRequest param = inr body ->
  run env (SendSOAPRequest param) w
  = (Done (upstream env (List.length (requests w)) body),
     mkWorld (globals w) (clockReads w) (requests w ++ [body])
             (logged w
              ++ if answered (upstream env (List.length (requests w)) body)
                 then ["Request successful"] else [])
             (channel w)).
Proof.
  intros Hb. unfold SendSOAPRequest. rewrite Hb. cbn [run].
  destruct (upstream env (List.length (requests w)) body) as [[e | msg | msg | e] | data];
    cbn [run answered globals clockReads requests logged channel];
    rewrite ?app_nil_r; reflexivity.
Qed.

(** X6. [SendSOAPRequest] never fails before it has sent: for every pair
    of credentials the envelope encodes, and the call posts it, once.  It
    returns what the exchange gave (the body of the response, or the error
    of the transport), logs its one line when a response arrived, and
    touches neither the variables of the package nor the clock nor the
    channel. *)
Theorem SendSOAPRequest_posts_once (G M : Type) (env : Env)
    (param : ListDomainsRequest) (w : World G M) :
  exists body,
    createSOAPRequest param = inr body
    /\ run env (SendSOAPRequest param) w
       = (Done (upstream env (List.length (requests w)) body),
          mkWorld (globals w) (clockReads w) (requests w ++ [body])
                  (logged w
                   ++ if answered (upstream env (List.length (requests w)) body)
                      then ["Request successful"] else [])
                  (channel w)).
Proof.
  destruct (createSOAPRequest_ok param) as [body Hb].
  exists body. split; [exact Hb |]. apply run_SendSOAPRequest. exact Hb.
Qed.

Lemma run_Send {G M : Type} (env : Env) (request : ListDomainsRequest) (body : string)
    (w : World G M) :
  createSOAPRequest request = inr body ->
  run env (Send request) w
  = (Done match upstream env (List.length (requests w)) body with
          | inl err => inl err
          | inr data => UnmarshalSOAPResponse data zeroResponse
          end,
     mkWorld (globals w) (clockReads w) (requests w ++ [body])
             (logged w
              ++ if answered (upstream env (List.length (requests w)) body)
                 then ["Request successful"] else [])
             (channel w)).
Proof.
  intros Hb. unfold Send. rewrite run_bind, (run_SendSOAPRequest env request body w Hb).
  destruct (upstream env (List.length (requests w)) body) as [err | data]; [reflexivity |].
  destruct (UnmarshalSOAPResponse data zeroResponse); reflexivity.
Qed.

(** X7. [Send] is the exchange followed by the decoding, into a fresh
    response: one request posted; the error of the transport, or else what
    [UnmarshalSOAPResponse] makes of the body.  It keeps no trace of the
    response: the variables of the package are as before. *)
Theorem Send_decodes_the_reply (G M : Type) (env : Env) (request : ListDomainsRequest)
    (w : World G M) :
  exists body,
    createSOAPRequest request = inr body
    /\ fst (run env (Send request) w)
       = Done match upstream env (List.length (requests w)) body with
              | inl err => inl err
              | inr data => UnmarshalSOAPResponse data zeroResponse
              end
    /\ requests (snd (run env (Send request) w)) = (requests w ++ [body])%list
    /\ globals (snd (run env (Send request) w)) = globals w.
Proof.
  destruct (createSOAPRequest_ok request) as [body Hb].
  exists body. rewrite (run_Send env request body w Hb). repeat split. exact Hb.
Qed.

Opaque requestBody refresh.

(** X8. [getDomains] on an expired cache does what [Send] does with the
    credentials of the flags: it sends the same request, and returns the
    response [Send] returns, or the zero response where [Send] returns an
    error. *)
Theorem getDomains_agrees_with_Send (env : Env) (M : Type) (w : World Globals M) :
  let request := mkRequest (apiKey (globals w)) (resellerID (globals w)) in
  cacheExpires (globals w) <= clock env (clockReads w) ->
  fst (run env getDomains w)
  = Done match fst (run env (Send request) w) with
         | Done (inr response) => response
         | _ => zeroResponse
         end
  /\ requests (snd (run env getDomains w)) = requests (snd (run env (Send request) w)).
Proof.
  intros request Hstale.
  rewrite (getDomains_stale env M w Hstale).
  unfold request. rewrite (run_Send env _ _ w (requestBody_eq (globals w))).
  unfold reply.
  destruct (upstream env (List.length (requests w)) (requestBody (globals w)))
    as [err | data]; [split; reflexivity |].
  destruct (UnmarshalSOAPResponse data zeroResponse); split; reflexivity.
Qed.

Transparent createSOAPRequest UnmarshalSOAPResponse requestBody refresh.

Lemma getDomains_agrees_with_Send_witness :
  fst (run exampleEnv getDomains (freshWorld (M := prometheus.Metric) exampleGlobals))
  = Done match fst (run exampleEnv (Send (mkRequest "abc" "123"))
                        (freshWorld (M := prometheus.Metric) exampleGlobals)) with
         | Done (inr response) => response
         | _ => zeroResponse
         end.
Proof.
  apply (proj1 (getDomains_agrees_with_Send exampleEnv prometheus.Metric
                  (freshWorld exampleGlobals)
                  ltac:(unfold exampleGlobals, initialGlobals, exampleEnv;
                        cbn [freshWorld globals cacheExpires clock clockReads]; lia))).
Defined.

(** ** The date conversion on the texts of civil times *)

Lemma digit_cases (n : Z) :
  0 <= n <= 9 -> In n [0; 1; 2; 3; 4; 5; 6; 7; 8; 9].
Proof. cbn [In]. lia. Qed.

Ltac each_digit H :=
  apply digit_cases in H; cbn [In] in H;
  repeat (destruct H as [H | H]; [subst |]); [.. | contradiction].

Lemma isDigitChar_digitChar (n : Z) :
  0 <= n <= 9 -> time.isDigitChar (digitChar n) = true.
Proof. intros H. each_digit H; reflexivity. Qed.

Lemma digitVal_digitChar (n : Z) :
  0 <= n <= 9 -> time.digitVal (digitChar n) = n.
Proof. intros H. each_digit H; reflexivity. Qed.

Lemma isDigitChar_not_space (c : ascii) (t : string) :
  time.isDigitChar c = true -> time.cutspace (String c t) = String c t.
Proof.
  destruct c as [[] [] [] [] [] [] [] []]; intros H; try discriminate H; reflexivity.
Qed.

Lemma isDigitChar_not_sign (c : ascii) (t : string) :
  time.isDigitChar c = true ->
  time.atoi (String c t) =
  match time.leadingInt 0 (String c t) with
  | Some (q, EmptyString) => Some (wrap64 q)
  | _ => None
  end.
Proof.
  destruct c as [[] [] [] [] [] [] [] []]; intros H; try discriminate H; reflexivity.
Qed.

Lemma getnum_twoDigits (n : Z) (rest : string) (fixed : bool) :
  0 <= n <= 99 ->
  time.getnum (twoDigits n ++ rest) fixed = Some (n, rest).
Proof.
  intros H. unfold twoDigits. cbn [String.append]. unfold time.getnum.
  rewrite !isDigitChar_digitChar by (Z.div_mod_to_equations; lia).
  cbn [negb]. rewrite !digitVal_digitChar by (Z.div_mod_to_equations; lia).
  f_equal. f_equal. Z.div_mod_to_equations; lia.
Qed.

Lemma leadingInt_digit (x n : Z) (t : string) :
  0 <= n <= 9 -> 0 <= x <= 1000 ->
  time.leadingInt x (String (digitChar n) t) = time.leadingInt (x * 10 + n) t.
Proof.
  intros Hn Hx. cbn [time.leadingInt].
  rewrite isDigitChar_digitChar, digitVal_digitChar by exact Hn.
  change (2 ^ 63 / 10) with 922337203685477580.
  destruct (Z.ltb_spec 922337203685477580 x); [lia |].
  change (2 ^ 63) with 9223372036854775808.
  destruct (Z.ltb_spec 9223372036854775808 (x * 10 + n)); [lia | reflexivity].
Qed.

Lemma atoi_fourDigits (y : Z) :
  0 <= y <= 9999 -> time.atoi (fourDigits y) = Some y.
Proof.
  intros H. unfold fourDigits, twoDigits. cbn [String.append].
  rewrite isDigitChar_not_sign
    by (apply isDigitChar_digitChar; Z.div_mod_to_equations; lia).
  rewrite !leadingInt_digit by (Z.div_mod_to_equations; lia).
  cbn [time.leadingInt]. f_equal.
  rewrite wrap64_small.
  - Z.div_mod_to_equations; lia.
  - unfold inInt64, minInt64, maxInt64. apply andb_true_iff.
    split; apply Z.leb_le; Z.div_mod_to_equations; lia.
Qed.

Lemma take_fourDigits (y : Z) (rest : string) :
  time.take 4 (fourDigits y ++ rest) = fourDigits y.
Proof. reflexivity. Qed.

Lemma skipn_fourDigits (y : Z) (rest : string) :
  utf8.skipn 4 (fourDigits y ++ rest) = rest.
Proof. reflexivity. Qed.

(** The calendar of [time] and the calendar counted out agree. *)
Lemma isLeap_leapYear (y : Z) : time.isLeap y = leapYear y.
Proof.
  unfold time.isLeap, leapYear.
  destruct (y mod 4 =? 0), (y mod 100 =? 0), (y mod 400 =? 0); reflexivity.
Qed.

Lemma month_cases (mo : Z) :
  1 <= mo <= 12 -> In mo [1; 2; 3; 4; 5; 6; 7; 8; 9; 10; 11; 12].
Proof. cbn [In]. lia. Qed.

Ltac each_month H :=
  apply month_cases in H; cbn [In] in H;
  repeat (destruct H as [H | H]; [subst |]); [.. | contradiction].

Lemma daysIn_monthLength (mo y : Z) :
  1 <= mo <= 12 -> time.daysIn mo y = monthLength y mo.
Proof.
  intros H. unfold time.daysIn, monthLength. rewrite isLeap_leapYear.
  unfold time.daysBefore.
  each_month H;
    repeat match goal with
           | |- context [Z.to_nat ?e] =>
             let v := eval vm_compute in (Z.to_nat e) in change (Z.to_nat e) with v
           end;
    destruct (leapYear y); vm_compute; reflexivity.
Qed.

Lemma daysBefore_daysBeforeMonth (mo y : Z) :
  1 <= mo <= 12 ->
  time.daysBefore (mo - 1) + (if time.isLeap y && (3 <=? mo) then 1 else 0)
  = daysBeforeMonth y (Z.to_nat (mo - 1)).
Proof.
  intros H. rewrite isLeap_leapYear. unfold time.daysBefore.
  each_month H;
    repeat match goal with
           | |- context [Z.to_nat ?e] =>
             let v := eval vm_compute in (Z.to_nat e) in change (Z.to_nat e) with v
           end;
    cbn [daysBeforeMonth nth]; unfold monthLength;
    destruct (leapYear y); vm_compute; reflexivity.
Qed.

Lemma leapsThrough_step (y : Z) :
  1 <= y ->
  time.leapsThrough y = time.leapsThrough (y - 1) + (if leapYear y then 1 else 0).
Proof.
  intros H. unfold time.leapsThrough, leapYear.
  destruct (Z.eqb_spec (y mod 4) 0), (Z.eqb_spec (y mod 100) 0), (Z.eqb_spec (y mod 400) 0);
    cbn [andb negb]; Z.div_mod_to_equations; lia.
Qed.

Lemma daysBeforeYear_closed (n : nat) :
  daysBeforeYear n
  = 365 * Z.of_nat n
    + (time.leapsThrough (1970 + Z.of_nat n - 1) - time.leapsThrough 1969).
Proof.
  induction n as [| n IH].
  - cbn [daysBeforeYear]. change (1970 + Z.of_nat 0 - 1) with 1969. lia.
  - cbn [daysBeforeYear]. rewrite IH. unfold yearLength.
    replace (1970 + Z.of_nat (S n) - 1) with (1970 + Z.of_nat n) by lia.
    rewrite (leapsThrough_step (1970 + Z.of_nat n)) by lia.
    replace (1970 + Z.of_nat n - 1) with (1970 + Z.of_nat n - 1) by lia.
    destruct (leapYear (1970 + Z.of_nat n)); lia.
Qed.

(** The elements of the layout, read off the text of a civil time. *)
Lemma parseStd_year (y : Z) (rest : string) (st : time.fields) :
  0 <= y <= 9999 ->
  time.parseStd time.stdLongYear (fourDigits y ++ rest) st
  = inr (time.mkFields y (time.f_month st) (time.f_day st) (time.f_hour st)
                       (time.f_min st) (time.f_sec st) (time.f_nsec st), rest).
Proof.
  intros H. unfold time.parseStd.
  rewrite take_fourDigits, skipn_fourDigits, (atoi_fourDigits y H).
  assert (E : time.isDigit (fourDigits y ++ rest) 0 = true).
  { unfold time.isDigit, fourDigits, twoDigits. cbn [String.append String.get].
    apply isDigitChar_digitChar. Z.div_mod_to_equations; lia. }
  rewrite E. reflexivity.
Qed.

Lemma skip_space (n : Z) (rest : string) :
  0 <= n <= 99 ->
  time.skip (" " ++ twoDigits n ++ rest) " " = Some (twoDigits n ++ rest).
Proof.
  intros H. unfold twoDigits. cbn [String.append]. unfold time.skip.
  cbn [String.length time.skip_loop Ascii.eqb Bool.eqb negb].
  change (time.cutspace " ") with EmptyString.
  match goal with
  | |- context [time.cutspace (String " " ?v)] =>
    change (time.cutspace (String " " v)) with (time.cutspace v)
  end.
  rewrite isDigitChar_not_space
    by (apply isDigitChar_digitChar; Z.div_mod_to_equations; lia).
  reflexivity.
Qed.

(** The text of a civil time up to the minutes, whatever follows: the
    fields are read and checked one after the other. *)
Lemma parseChunks_to_seconds (y mo d h mi : Z) (rest : string) :
  0 <= y <= 9999 -> 0 <= mo <= 99 -> 0 <= d <= 99 -> 0 <= h <= 99 -> 0 <= mi <= 99 ->
  time.parseChunks time.layoutChunks
    (fourDigits y ++ "-" ++ twoDigits mo ++ "-" ++ twoDigits d ++ " "
     ++ twoDigits h ++ ":" ++ twoDigits mi ++ rest)
    time.fields0
  = if (mo <=? 0) || (12 <? mo) then inl (time.errRange "month")
    else if 24 <=? h then inl (time.errRange "hour")
    else if 60 <=? mi then inl (time.errRange "minute")
    else time.parseChunks [(":", Some time.stdZeroSecond); ("", None)] rest
                          (time.mkFields y mo d h mi 0 0).
Proof.
  intros Hy Hmo Hd Hh Hmi. unfold time.layoutChunks.
  cbn [time.parseChunks].
  change (time.skip ?v "") with (Some v). cbv iota beta.
  rewrite (parseStd_year y _ _ Hy). cbv iota beta.
  change (time.skip ("-" ++ ?v) "-") with (Some v). cbv iota beta.
  unfold time.parseStd at 1. rewrite getnum_twoDigits by lia.
  destruct ((mo <=? 0) || (12 <? mo)); [reflexivity |]. cbv iota beta.
  change (time.skip ("-" ++ ?v) "-") with (Some v). cbv iota beta.
  unfold time.parseStd at 1. rewrite getnum_twoDigits by lia. cbv iota beta.
  rewrite skip_space by lia. cbv iota beta.
  unfold time.parseStd at 1. rewrite getnum_twoDigits by lia.
  destruct (Z.ltb_spec h 0); [lia |]. cbn [orb].
  destruct (24 <=? h); [reflexivity |]. cbv iota beta.
  change (time.skip (":" ++ ?v) ":") with (Some v). cbv iota beta.
  unfold time.parseStd at 1. rewrite getnum_twoDigits by lia.
  destruct (Z.ltb_spec mi 0); [lia |]. cbn [orb].
  destruct (60 <=? mi); reflexivity.
Qed.

(** The seconds, at the end of the text. *)
Lemma parseChunks_seconds (s : Z) (st : time.fields) :
  0 <= s <= 99 ->
  time.parseChunks [(":", Some time.stdZeroSecond); ("", None)] (":" ++ twoDigits s) st
  = if 60 <=? s then inl (time.errRange "second")
    else inr (time.mkFields (time.f_year st) (time.f_month st) (time.f_day st)
                            (time.f_hour st) (time.f_min st) s (time.f_nsec st)).
Proof.
  intros Hs. cbn [time.parseChunks].
  change (time.skip (":" ++ ?v) ":") with (Some v). cbv iota beta.
  unfold time.parseStd.
  rewrite <- (string_app_nil_r (twoDigits s)), getnum_twoDigits by lia.
  destruct (Z.ltb_spec s 0); [lia |]. cbn [orb].
  destruct (60 <=? s); reflexivity.
Qed.

Lemma formatDateTime_parses (y mo d h mi s : Z) :
  0 <= y <= 9999 -> 0 <= mo <= 99 -> 0 <= d <= 99 ->
  0 <= h <= 99 -> 0 <= mi <= 99 -> 0 <= s <= 99 ->
  time.parseChunks time.layoutChunks (formatDateTime y mo d h mi s) time.fields0
  = if (mo <=? 0) || (12 <? mo) then inl (time.errRange "month")
    else if 24 <=? h then inl (time.errRange "hour")
    else if 60 <=? mi then inl (time.errRange "minute")
    else if 60 <=? s then inl (time.errRange "second")
    else inr (time.mkFields y mo d h mi s 0).
Proof.
  intros Hy Hmo Hd Hh Hmi Hs. unfold formatDateTime.
  rewrite parseChunks_to_seconds by assumption.
  rewrite parseChunks_seconds by assumption. reflexivity.
Qed.

Lemma formatDateTime_not_empty (y mo d h mi s : Z) (tail : string) :
  String.eqb (formatDateTime y mo d h mi s ++ tail) "" = false.
Proof. reflexivity. Qed.

Lemma Date_Brisbane (y mo d h mi s ns : Z) :
  1970 <= y -> 1 <= mo <= 12 ->
  time.unixSec (time.Date (time.mkFields y mo d h mi s ns) time.Brisbane)
  = secondsSince1970 y mo d h mi s - 36000.
Proof.
  intros Hy Hmo. unfold time.Date, secondsSince1970.
  cbn [time.f_year time.f_month time.f_day time.f_hour time.f_min time.f_sec time.f_nsec
       time.lookup time.Brisbane fst snd].
  change (36000 =? 0) with false. cbv iota.
  rewrite daysBeforeYear_closed, <- (daysBefore_daysBeforeMonth mo y Hmo).
  rewrite Z2Nat.id by lia.
  replace (1970 + (y - 1970) - 1) with (y - 1) by lia.
  destruct (time.isLeap y && (3 <=? mo));
    match goal with
    | |- context [if ?c then _ else _] => destruct c
    end; cbn [time.unixSec]; lia.
Qed.

Lemma monthLength_range (y mo : Z) : 28 <= monthLength y mo <= 31.
Proof.
  unfold monthLength.
  destruct (mo =? 2); [destruct (leapYear y); lia |].
  destruct ((mo =? 4) || (mo =? 6) || (mo =? 9) || (mo =? 11)); lia.
Qed.

(** What [dateStringToTimestamp] makes of the fields [Parse] has read off
    the text of a valid civil time, whatever the nanoseconds. *)
Lemma ParseInLocation_fields (value : string) (y mo d h mi s ns : Z) :
  validCivil y mo d h mi s ->
  String.eqb value "" = false ->
  time.parseChunks time.layoutChunks value time.fields0
  = inr (time.mkFields y mo d h mi s ns) ->
  dateStringToTimestamp value = secondsSince1970 y mo d h mi s - 36000.
Proof.
  intros (Hy & Hmo & Hd & Hh & Hmi & Hs) Hne Hp.
  unfold dateStringToTimestamp. rewrite Hne.
  change (time.LoadLocation "Australia/Brisbane") with (Some time.Brisbane). cbv iota.
  unfold time.ParseInLocation. rewrite Hp.
  cbn [time.f_year time.f_month time.f_day time.f_hour time.f_min time.f_sec time.f_nsec].
  destruct (Z.ltb_spec mo 0); [lia |]. destruct (Z.ltb_spec d 0); [lia |].
  rewrite (daysIn_monthLength mo y Hmo).
  destruct (Z.ltb_spec d 1); [lia |]. destruct (Z.ltb_spec (monthLength y mo) d); [lia |].
  cbn [orb]. unfold time.UTC, time.Unix.
  apply Date_Brisbane; lia.
Qed.

Lemma validCivil_parses (y mo d h mi s : Z) :
  validCivil y mo d h mi s ->
  time.parseChunks time.layoutChunks (formatDateTime y mo d h mi s) time.fields0
  = inr (time.mkFields y mo d h mi s 0).
Proof.
  intros (Hy & Hmo & Hd & Hh & Hmi & Hs).
  pose proof (monthLength_range y mo).
  rewrite formatDateTime_parses by lia.
  destruct (Z.leb_spec mo 0); [lia |]. destruct (Z.ltb_spec 12 mo); [lia |].
  destruct (Z.leb_spec 24 h); [lia |]. destruct (Z.leb_spec 60 mi); [lia |].
  destruct (Z.leb_spec 60 s); [lia |]. reflexivity.
Qed.

Lemma dateStringToTimestamp_valid (y mo d h mi s : Z) :
  validCivil y mo d h mi s ->
  dateStringToTimestamp (formatDateTime y mo d h mi s)
  = secondsSince1970 y mo d h mi s - 36000.
Proof.
  intros V. apply (ParseInLocation_fields _ y mo d h mi s 0 V).
  - reflexivity.
  - apply validCivil_parses. exact V.
Qed.



(** *** The order of civil times *)

Lemma daysBeforeMonth_mono (y : Z) (n m : nat) :
  (n <= m)%nat -> daysBeforeMonth y n <= daysBeforeMonth y m.
Proof.
  induction 1 as [| m Hle IH]; [lia |].
  cbn [daysBeforeMonth]. pose proof (monthLength_range y (Z.of_nat (S m))). lia.
Qed.

Lemma daysBeforeMonth_year (y : Z) : daysBeforeMonth y 12 = yearLength y.
Proof.
  unfold yearLength. cbn [daysBeforeMonth]. unfold monthLength.
  destruct (leapYear y); vm_compute; reflexivity.
Qed.

Lemma yearLength_range (y : Z) : 365 <= yearLength y <= 366.
Proof. unfold yearLength. destruct (leapYear y); lia. Qed.

Lemma daysBeforeYear_mono (n m : nat) :
  (n < m)%nat ->
  daysBeforeYear n + yearLength (1970 + Z.of_nat n) <= daysBeforeYear m.
Proof.
  induction 1 as [| m Hle IH]; cbn [daysBeforeYear]; [lia |].
  pose proof (yearLength_range (1970 + Z.of_nat m)). lia.
Qed.

(** The day of the year of a date is within the year, and grows with the
    month and the day. *)
Lemma dayOfYear_range (y mo d : Z) :
  1 <= mo <= 12 -> 1 <= d <= monthLength y mo ->
  0 <= daysBeforeMonth y (Z.to_nat (mo - 1)) + (d - 1) < yearLength y.
Proof.
  intros Hmo Hd.
  pose proof (daysBeforeMonth_mono y 0 (Z.to_nat (mo - 1)) ltac:(lia)) as H0.
  pose proof (daysBeforeMonth_mono y (S (Z.to_nat (mo - 1))) 12 ltac:(lia)) as H1.
  rewrite daysBeforeMonth_year in H1. cbn [daysBeforeMonth] in H0, H1.
  replace (Z.of_nat (S (Z.to_nat (mo - 1)))) with mo in H1 by lia. lia.
Qed.

Lemma dayOfYear_mono (y mo1 d1 mo2 d2 : Z) :
  1 <= mo1 <= 12 -> 1 <= d1 <= monthLength y mo1 ->
  1 <= mo2 <= 12 -> 1 <= d2 <= monthLength y mo2 ->
  mo1 < mo2 ->
  daysBeforeMonth y (Z.to_nat (mo1 - 1)) + (d1 - 1)
  < daysBeforeMonth y (Z.to_nat (mo2 - 1)) + (d2 - 1).
Proof.
  intros Hmo1 Hd1 Hmo2 Hd2 Hlt.
  pose proof (daysBeforeMonth_mono y (S (Z.to_nat (mo1 - 1))) (Z.to_nat (mo2 - 1))
                                   ltac:(lia)) as H.
  cbn [daysBeforeMonth] in H.
  replace (Z.of_nat (S (Z.to_nat (mo1 - 1)))) with mo1 in H by lia. lia.
Qed.

Lemma secondsSince1970_mono (y1 mo1 d1 h1 mi1 s1 y2 mo2 d2 h2 mi2 s2 : Z) :
  validCivil y1 mo1 d1 h1 mi1 s1 ->
  validCivil y2 mo2 d2 h2 mi2 s2 ->
  lexLt [y1; mo1; d1; h1; mi1; s1] [y2; mo2; d2; h2; mi2; s2] = true ->
  secondsSince1970 y1 mo1 d1 h1 mi1 s1 < secondsSince1970 y2 mo2 d2 h2 mi2 s2.
Proof.
  intros (Hy1 & Hmo1 & Hd1 & Hh1 & Hmi1 & Hs1) (Hy2 & Hmo2 & Hd2 & Hh2 & Hmi2 & Hs2) Hlt.
  unfold secondsSince1970.
  pose proof (dayOfYear_range y1 mo1 d1 Hmo1 Hd1) as R1.
  pose proof (dayOfYear_range y2 mo2 d2 Hmo2 Hd2) as R2.
  cbn [lexLt] in Hlt.
  destruct (Z.ltb_spec y1 y2) as [Hy | Hy].
  { pose proof (daysBeforeYear_mono (Z.to_nat (y1 - 1970)) (Z.to_nat (y2 - 1970))
                                    ltac:(lia)) as H.
    replace (1970 + Z.of_nat (Z.to_nat (y1 - 1970))) with y1 in H by lia. lia. }
  destruct (Z.eqb_spec y1 y2) as [Ey | Ey]; [subst y2 | discriminate Hlt].
  cbn [orb andb] in Hlt.
  destruct (Z.ltb_spec mo1 mo2) as [Hmo | Hmo].
  { pose proof (dayOfYear_mono y1 mo1 d1 mo2 d2 Hmo1 Hd1 Hmo2 Hd2 Hmo). lia. }
  destruct (Z.eqb_spec mo1 mo2) as [Emo | Emo]; [subst mo2 | discriminate Hlt].
  cbn [orb andb] in Hlt.
  destruct (Z.ltb_spec d1 d2) as [Hd | Hd]; [lia |].
  destruct (Z.eqb_spec d1 d2) as [Ed | Ed]; [subst d2 | discriminate Hlt].
  cbn [orb andb] in Hlt.
  destruct (Z.ltb_spec h1 h2) as [Hh | Hh]; [lia |].
  destruct (Z.eqb_spec h1 h2) as [Eh | Eh]; [subst h2 | discriminate Hlt].
  cbn [orb andb] in Hlt.
  destruct (Z.ltb_spec mi1 mi2) as [Hmi | Hmi]; [lia |].
  destruct (Z.eqb_spec mi1 mi2) as [Emi | Emi]; [subst mi2 | discriminate Hlt].
  cbn [orb andb] in Hlt.
  destruct (Z.ltb_spec s1 s2) as [Hs | Hs]; [lia |].
  destruct (Z.eqb_spec s1 s2); discriminate Hlt.
Qed.



(** *** Texts that are no civil time, and texts with more than one *)

Lemma parseChunks_error (value : string) (e : time.ParseError) :
  time.parseChunks time.layoutChunks value time.fields0 = inl e ->
  dateStringToTimestamp value = 0.
Proof.
  intros H. apply (dateStringToTimestamp_unparsed value e).
  unfold time.ParseInLocation. rewrite H. reflexivity.
Qed.

(** X11. A field out of its range makes the date 0: the text
    [YYYY-MM-DD hh:mm:ss] with a month that is not 1 to 12, a day that is
    not a day of the month (30 February; 29 February of a common year; day
    0), an hour above 23, or a minute or a second above 59. *)
Theorem dateStringToTimestamp_out_of_range (y mo d h mi s : Z) :
  0 <= y <= 9999 -> 0 <= mo <= 99 -> 0 <= d <= 99 ->
  0 <= h <= 99 -> 0 <= mi <= 99 -> 0 <= s <= 99 ->
  mo < 1 \/ 12 < mo \/ d < 1 \/ monthLength y mo < d \/ 23 < h \/ 59 < mi \/ 59 < s ->
  dateStringToTimestamp (formatDateTime y mo d h mi s) = 0.
Proof.
  intros Hy Hmo Hd Hh Hmi Hs Hbad.
  pose proof (formatDateTime_parses y mo d h mi s Hy Hmo Hd Hh Hmi Hs) as Hp.
  destruct (Z.leb_spec mo 0); [apply (parseChunks_error _ _ Hp) |].
  destruct (Z.ltb_spec 12 mo); [apply (parseChunks_error _ _ Hp) |].
  cbn [orb] in Hp.
  destruct (Z.leb_spec 24 h); [apply (parseChunks_error _ _ Hp) |].
  destruct (Z.leb_spec 60 mi); [apply (parseChunks_error _ _ Hp) |].
  destruct (Z.leb_spec 60 s); [apply (parseChunks_error _ _ Hp) |].
  apply (dateStringToTimestamp_unparsed _ (time.errRange "day")).
  unfold time.ParseInLocation. rewrite Hp.
  cbn [time.f_year time.f_month time.f_day time.f_hour time.f_min time.f_sec time.f_nsec].
  destruct (Z.ltb_spec mo 0); [lia |]. destruct (Z.ltb_spec d 0); [lia |].
  rewrite (daysIn_monthLength mo y) by lia.
  destruct (Z.ltb_spec d 1); [reflexivity |].
  destruct (Z.ltb_spec (monthLength y mo) d); [reflexivity | lia].
Qed.

Lemma dateStringToTimestamp_out_of_range_witness :
  dateStringToTimestamp "2025-02-29 12:00:00" = 0.
Proof.
  change "2025-02-29 12:00:00" with (formatDateTime 2025 2 29 12 0 0).
  apply dateStringToTimestamp_out_of_range; try lia.
  right. right. right. left. vm_compute. reflexivity.
Defined.

Lemma formatDateTime_app (y mo d h mi s : Z) (tail : string) :
  formatDateTime y mo d h mi s ++ tail
  = fourDigits y ++ "-" ++ twoDigits mo ++ "-" ++ twoDigits d ++ " "
    ++ twoDigits h ++ ":" ++ twoDigits mi ++ ":" ++ twoDigits s ++ tail.
Proof.
  unfold formatDateTime. rewrite !string_app_assoc. reflexivity.
Qed.

(** The seconds, followed by text that is no fractional second. *)
Lemma parseChunks_seconds_text (s : Z) (tail : string) (st : time.fields) :
  0 <= s <= 99 ->
  tail <> "" -> startsFraction tail = false ->
  exists e,
    time.parseChunks [(":", Some time.stdZeroSecond); ("", None)]
                     (":" ++ twoDigits s ++ tail) st = inl e.
Proof.
  intros Hs Hne Hfr. cbn [time.parseChunks].
  change (time.skip (":" ++ ?v) ":") with (Some v). cbv iota beta.
  unfold time.parseStd. rewrite getnum_twoDigits by lia.
  destruct ((s <? 0) || (60 <=? s)); [eexists; reflexivity |].
  assert (E : forall st' : time.fields,
             match tail with
             | String sep (String d0 rest) =>
               if time.commaOrPeriod sep && time.isDigitChar d0
               then
                 let '(digits, value'') := time.takeDigits (String d0 rest) in
                 match time.parseNanoseconds digits with
                 | Some ns =>
                   inr (time.mkFields (time.f_year st) (time.f_month st) (time.f_day st)
                                      (time.f_hour st) (time.f_min st) s ns, value'')
                 | None => inl time.errBad
                 end
               else inr (st', tail)
             | _ => inr (st', tail)
             end = inr (st', tail)).
  { intros st'. destruct tail as [| sep [| d0 rest]]; try reflexivity.
    cbn [startsFraction] in Hfr. rewrite Hfr. reflexivity. }
  rewrite E. cbv iota beta.
  change (time.skip tail "") with (Some tail). cbv iota beta.
  destruct tail as [| c t]; [congruence |].
  eexists. reflexivity.
Qed.

(** X12. Text after the seconds makes the date 0, unless it begins a
    fractional second (a period or a comma, then a digit): a zone, a [Z], a
    space, a third digit of seconds. *)
Theorem dateStringToTimestamp_extra_text (y mo d h mi s : Z) (tail : string) :
  0 <= y <= 9999 -> 0 <= mo <= 99 -> 0 <= d <= 99 ->
  0 <= h <= 99 -> 0 <= mi <= 99 -> 0 <= s <= 99 ->
  tail <> "" -> startsFraction tail = false ->
  dateStringToTimestamp (formatDateTime y mo d h mi s ++ tail) = 0.
Proof.
  intros Hy Hmo Hd Hh Hmi Hs Hne Hfr.
  rewrite formatDateTime_app.
  pose proof (parseChunks_to_seconds y mo d h mi (":" ++ twoDigits s ++ tail)
                                     Hy Hmo Hd Hh Hmi) as Hp.
  destruct ((mo <=? 0) || (12 <? mo)); [apply (parseChunks_error _ _ Hp) |].
  destruct (24 <=? h); [apply (parseChunks_error _ _ Hp) |].
  destruct (60 <=? mi); [apply (parseChunks_error _ _ Hp) |].
  destruct (parseChunks_seconds_text s tail (time.mkFields y mo d h mi 0 0) Hs Hne Hfr)
    as [e He].
  rewrite He in Hp. apply (parseChunks_error _ _ Hp).
Qed.

Lemma dateStringToTimestamp_extra_text_witness :
  dateStringToTimestamp "2025-12-25 10:00:00 AEST" = 0.
Proof.
  change "2025-12-25 10:00:00 AEST" with (formatDateTime 2025 12 25 10 0 0 ++ " AEST").
  apply dateStringToTimestamp_extra_text; try lia; [discriminate | reflexivity].
Defined.

(** The digits of a fractional second. *)
Lemma takeDigits_allDigits (s : string) :
  allDigits s = true -> time.takeDigits s = (s, EmptyString).
Proof.
  unfold allDigits. induction s as [| c t IH]; intros H; [reflexivity |].
  cbn [list_ascii_of_string forallb] in H. apply andb_true_iff in H.
  destruct H as [Hc Ht]. cbn [time.takeDigits]. rewrite Hc, (IH Ht). reflexivity.
Qed.

Lemma take_allDigits (n : nat) (s : string) :
  allDigits s = true -> allDigits (time.take n s) = true.
Proof.
  unfold allDigits. revert s. induction n as [| n IH]; intros s H; [reflexivity |].
  destruct s as [| c t]; [reflexivity |].
  cbn [list_ascii_of_string forallb] in H. apply andb_true_iff in H.
  destruct H as [Hc Ht]. cbn [time.take list_ascii_of_string forallb].
  rewrite Hc, (IH t Ht). reflexivity.
Qed.

Lemma leadingInt_allDigits (s : string) :
  allDigits s = true ->
  forall x, 0 <= x -> x < 10 ^ (9 - Z.of_nat (String.length s)) ->
            (String.length s <= 9)%nat ->
            exists q, time.leadingInt x s = Some (q, EmptyString) /\ 0 <= q < 10 ^ 9.
Proof.
  unfold allDigits. induction s as [| c t IH]; intros H x Hx0 Hx Hlen.
  - exists x. cbn [String.length Z.of_nat] in Hx. split; [reflexivity | lia].
  - cbn [list_ascii_of_string forallb] in H. apply andb_true_iff in H.
    destruct H as [Hc Ht]. cbn [String.length] in Hx, Hlen.
    assert (Hp : 10 ^ (9 - Z.of_nat (String.length t))
                 = 10 * 10 ^ (9 - Z.of_nat (S (String.length t)))).
    { replace (9 - Z.of_nat (String.length t))
        with (Z.succ (9 - Z.of_nat (S (String.length t)))) by lia.
      apply Z.pow_succ_r. lia. }
    assert (Hb : 10 ^ (9 - Z.of_nat (S (String.length t))) <= 10 ^ 9).
    { apply Z.pow_le_mono_r; lia. }
    pose proof (digitVal_range c Hc) as Hd.
    cbn [time.leadingInt]. rewrite Hc.
    change (2 ^ 63 / 10) with 922337203685477580.
    change (2 ^ 63) with 9223372036854775808.
    change (10 ^ 9) with 1000000000 in Hb.
    destruct (Z.ltb_spec 922337203685477580 x); [lia |].
    destruct (Z.ltb_spec 9223372036854775808 (x * 10 + time.digitVal c)); [lia |].
    apply (IH Ht); lia.
Qed.

Lemma parseNanoseconds_allDigits (c : ascii) (t : string) :
  allDigits (String c t) = true ->
  exists ns, time.parseNanoseconds (String c t) = Some ns.
Proof.
  intros H. unfold time.parseNanoseconds.
  pose proof (take_allDigits 9 _ H) as H9.
  assert (Hc : time.isDigitChar c = true).
  { unfold allDigits in H. cbn [list_ascii_of_string forallb] in H.
    apply andb_true_iff in H. apply H. }
  change (time.take 9 (String c t)) with (String c (time.take 8 t)) in *.
  rewrite (isDigitChar_not_sign c _ Hc).
  destruct (leadingInt_allDigits _ H9 0) as [q [Hq Hr]].
  - lia.
  - apply Z.pow_pos_nonneg; [lia |].
    pose proof (take_length 9 (String c t)) as L.
    change (time.take 9 (String c t)) with (String c (time.take 8 t)) in L. lia.
  - pose proof (take_length 9 (String c t)) as L.
    change (time.take 9 (String c t)) with (String c (time.take 8 t)) in L. exact L.
  - rewrite Hq. eexists. reflexivity.
Qed.

Lemma parseChunks_seconds_fraction (s : Z) (sep : ascii) (frac : string)
    (st : time.fields) :
  0 <= s <= 59 ->
  time.commaOrPeriod sep = true -> frac <> "" -> allDigits frac = true ->
  exists ns,
    time.parseChunks [(":", Some time.stdZeroSecond); ("", None)]
                     (":" ++ twoDigits s ++ String sep frac) st
    = inr (time.mkFields (time.f_year st) (time.f_month st) (time.f_day st)
                         (time.f_hour st) (time.f_min st) s ns).
Proof.
  intros Hs Hsep Hne Hfr. destruct frac as [| c t]; [congruence |].
  destruct (parseNanoseconds_allDigits c t Hfr) as [ns Hns].
  exists ns. cbn [time.parseChunks].
  change (time.skip (":" ++ ?v) ":") with (Some v). cbv iota beta.
  unfold time.parseStd. rewrite getnum_twoDigits by lia.
  destruct (Z.ltb_spec s 0); [lia |]. destruct (Z.leb_spec 60 s); [lia |].
  cbn [orb]. cbv iota beta.
  assert (Hc : time.isDigitChar c = true).
  { unfold allDigits in Hfr. cbn [list_ascii_of_string forallb] in Hfr.
    apply andb_true_iff in Hfr. apply Hfr. }
  rewrite Hsep, Hc. cbn [andb].
  rewrite (takeDigits_allDigits _ Hfr), Hns. reflexivity.
Qed.

(** X13. A fractional second after the seconds (a period or a comma and
    digits, any number of them) is accepted, though the layout has none, and
    dropped: the timestamp is that of the civil time without it. *)
Theorem dateStringToTimestamp_fraction (y mo d h mi s : Z) (sep : ascii)
    (frac : string) :
  validCivil y mo d h mi s ->
  time.commaOrPeriod sep = true -> frac <> "" -> allDigits frac = true ->
  dateStringToTimestamp (formatDateTime y mo d h mi s ++ String sep frac)
  = dateStringToTimestamp (formatDateTime y mo d h mi s).
Proof.
  intros V Hsep Hne Hfr.
  rewrite (dateStringToTimestamp_valid _ _ _ _ _ _ V).
  pose proof V as (Hy & Hmo & Hd & Hh & Hmi & Hs).
  pose proof (monthLength_range y mo) as Hml.
  destruct (parseChunks_seconds_fraction s sep frac (time.mkFields y mo d h mi 0 0)
                                         Hs Hsep Hne Hfr) as [ns Hns].
  apply (ParseInLocation_fields _ y mo d h mi s ns V).
  - apply formatDateTime_not_empty.
  - rewrite formatDateTime_app.
    rewrite parseChunks_to_seconds by lia.
    destruct (Z.leb_spec mo 0); [lia |]. destruct (Z.ltb_spec 12 mo); [lia |].
    destruct (Z.leb_spec 24 h); [lia |]. destruct (Z.leb_spec 60 mi); [lia |].
    cbn [orb]. exact Hns.
Qed.

Lemma dateStringToTimestamp_fraction_witness :
  dateStringToTimestamp "2025-12-25 10:00:00.123456789012"
  = dateStringToTimestamp "2025-12-25 10:00:00".
Proof.
  change "2025-12-25 10:00:00.123456789012"
    with (formatDateTime 2025 12 25 10 0 0 ++ String "." "123456789012").
  change "2025-12-25 10:00:00" with (formatDateTime 2025 12 25 10 0 0).
  apply dateStringToTimestamp_fraction.
  - unfold validCivil. repeat split; try lia; vm_compute; discriminate.
  - reflexivity.
  - discriminate.
  - reflexivity.
Defined.

(** ** The decoding of a document of the API *)

(** *** What the loops of the decoder read *)

Lemma collectData_text (text data : string) (m : xml.Name) (rest : list xml.Token)
    (fin : xml.DecodeError) (fuel : nat) :
  (List.length (textContent text ++ xml.EndElement m :: rest) < fuel)%nat ->
  xml.collectData fuel data (xml.mkDecoder (textContent text ++ xml.EndElement m :: rest) fin)
  = xml.Ok (data ++ text) (xml.mkDecoder rest fin).
Proof.
  unfold textContent. destruct (String.eqb_spec text "") as [E | E]; intros H.
  - subst text. rewrite string_app_nil_r.
    destruct fuel as [| fuel]; [cbn in H; lia |]. reflexivity.
  - cbn [app List.length] in H.
    destruct fuel as [| [| fuel]]; [lia | lia |]. reflexivity.
Qed.

Lemma reads_simple {T : Type} (B : Z) (copy : string -> xml.DecodeError + T)
    (n : xml.Name) (text : string) (v v' : T) :
  B < xml.maxUnmarshalDepth ->
  copy text = inr v' ->
  reads B (xml.unmarshalSimple copy) n (textContent text) v v'.
Proof.
  intros HB Hc fuel depth a m rest fin Hd Hlen. unfold xml.unmarshalSimple.
  destruct (Z.leb_spec xml.maxUnmarshalDepth depth); [lia |].
  rewrite (collectData_text text "" m rest fin fuel Hlen).
  cbn [String.append]. rewrite Hc. reflexivity.
Qed.

Lemma reads_intoField {St F : Type} (B : Z) (get : St -> F) (set : F -> St -> St)
    (um : xml.unmarshaler F) (n : xml.Name) (content : list xml.Token) (sv : St) (v' : F) :
  reads B um n content (get sv) v' ->
  reads B (xml.intoField get set um) n content sv (set v' sv).
Proof.
  intros H fuel depth a m rest fin Hd Hlen. unfold xml.intoField.
  rewrite (H fuel depth a m rest fin Hd Hlen). reflexivity.
Qed.

Lemma reads_slice {T : Type} (B : Z) (elem : xml.unmarshaler T) (zero : T)
    (n : xml.Name) (content : list xml.Token) (l : list T) (v' : T) :
  B < xml.maxUnmarshalDepth ->
  reads (B + 1) elem n content zero v' ->
  reads B (xml.unmarshalSlice elem zero) n content l (l ++ [v'])%list.
Proof.
  intros HB H fuel depth a m rest fin Hd Hlen. unfold xml.unmarshalSlice.
  destruct (Z.leb_spec xml.maxUnmarshalDepth depth); [lia |].
  rewrite (H fuel (depth + 1) a m rest fin ltac:(lia) Hlen). reflexivity.
Qed.

Lemma element_app (dr : Dress) (name : string) (content after : list xml.Token) :
  (elementIn dr name content ++ after)%list
  = xml.StartElement (xml.mkName (spaceOf dr name) name) (attrsOf dr name)
    :: (content ++ xml.EndElement (xml.mkName (spaceOf dr name) name) :: after)%list.
Proof.
  unfold elementIn. cbn [app]. rewrite <- app_assoc. reflexivity.
Qed.

Ltac norm_app :=
  repeat (progress cbn [app] in * || rewrite <- app_assoc in * ).

Ltac len_norm :=
  repeat (progress cbn [List.length] in * || rewrite length_app in * ).

Lemma loops_nil {St : Type} (B : Z) (fs : list (xml.fieldInfo St)) (sv : St) :
  loops B fs [] sv sv.
Proof.
  intros fuel depth m rest fin Hd Hlen.
  destruct fuel as [| fuel]; [cbn in Hlen; lia |]. reflexivity.
Qed.

Section Loops.

Variable St : Type.
Variable B : Z.
Variable fs : list (xml.fieldInfo St).
Variable dr : Dress.

Lemma loops_field (name : string) (um : xml.unmarshaler St)
    (content after : list xml.Token) (sv sv1 sv2 : St) :
  xml.findPath fs [] name = xml.PerfectMatch um ->
  reads (B + 1) um (xml.mkName (spaceOf dr name) name) content sv sv1 ->
  loops B fs after sv1 sv2 ->
  loops B fs (elementIn dr name content ++ after) sv sv2.
Proof.
  intros Hf Hr Hl fuel depth m rest fin Hd Hlen.
  rewrite element_app in *. norm_app. cbn [List.length] in Hlen.
  destruct fuel as [| fuel]; [lia |].
  cbn [xml.structLoop xml.NextToken xml.pending xml.final].
  unfold xml.unmarshalPath, xml.unmarshalPathWith. cbn [xml.Local]. rewrite Hf.
  rewrite Hr by (lia || (len_norm; lia)).
  apply Hl; [exact Hd |].
  len_norm. lia.
Qed.

Lemma loops_prefix (name : string) (parents : list string)
    (content after : list xml.Token) (sv sv1 sv2 : St) :
  xml.findPath fs [] name = xml.PrefixMatch parents ->
  pathLoops B fs parents content sv sv1 ->
  loops B fs after sv1 sv2 ->
  loops B fs (elementIn dr name content ++ after) sv sv2.
Proof.
  intros Hf Hr Hl fuel depth m rest fin Hd Hlen.
  rewrite element_app in *. norm_app. cbn [List.length] in Hlen.
  destruct fuel as [| fuel]; [lia |].
  cbn [xml.structLoop xml.NextToken xml.pending xml.final].
  unfold xml.unmarshalPath, xml.unmarshalPathWith. cbn [xml.Local]. rewrite Hf.
  rewrite Hr by (lia || (len_norm; lia)).
  apply Hl; [exact Hd |].
  len_norm. lia.
Qed.

Lemma loops_any (name : string) (um : xml.unmarshaler St)
    (content after : list xml.Token) (sv sv1 sv2 : St) :
  xml.findPath fs [] name = xml.NoMatch ->
  xml.saveAny fs = Some um ->
  reads (B + 1) um (xml.mkName (spaceOf dr name) name) content sv sv1 ->
  loops B fs after sv1 sv2 ->
  loops B fs (elementIn dr name content ++ after) sv sv2.
Proof.
  intros Hf Ha Hr Hl fuel depth m rest fin Hd Hlen.
  rewrite element_app in *. norm_app. cbn [List.length] in Hlen.
  destruct fuel as [| fuel]; [lia |].
  cbn [xml.structLoop xml.NextToken xml.pending xml.final].
  unfold xml.unmarshalPath, xml.unmarshalPathWith. cbn [xml.Local]. rewrite Hf, Ha.
  rewrite Hr by (lia || (len_norm; lia)).
  apply Hl; [exact Hd |].
  len_norm. lia.
Qed.

Lemma pathLoops_nil (parents : list string) (sv : St) :
  pathLoops B fs parents [] sv sv.
Proof.
  intros fuel depth m rest fin Hd Hlen.
  destruct fuel as [| fuel]; [cbn in Hlen; lia |]. reflexivity.
Qed.

Lemma pathLoops_field (parents : list string) (name : string) (um : xml.unmarshaler St)
    (content after : list xml.Token) (sv sv1 sv2 : St) :
  xml.findPath fs parents name = xml.PerfectMatch um ->
  reads (B + 1) um (xml.mkName (spaceOf dr name) name) content sv sv1 ->
  pathLoops B fs parents after sv1 sv2 ->
  pathLoops B fs parents (elementIn dr name content ++ after) sv sv2.
Proof.
  intros Hf Hr Hl fuel depth m rest fin Hd Hlen.
  rewrite element_app in *. norm_app. cbn [List.length] in Hlen.
  destruct fuel as [| fuel]; [lia |].
  cbn [xml.pathLoop xml.NextToken xml.pending xml.final].
  unfold xml.unmarshalPathWith. cbn [xml.Local]. rewrite Hf.
  rewrite Hr by (lia || (len_norm; lia)).
  apply Hl; [exact Hd |].
  len_norm. lia.
Qed.

Lemma pathLoops_prefix (parents parents' : list string) (name : string)
    (content after : list xml.Token) (sv sv1 sv2 : St) :
  xml.findPath fs parents name = xml.PrefixMatch parents' ->
  pathLoops B fs parents' content sv sv1 ->
  pathLoops B fs parents after sv1 sv2 ->
  pathLoops B fs parents (elementIn dr name content ++ after) sv sv2.
Proof.
  intros Hf Hr Hl fuel depth m rest fin Hd Hlen.
  rewrite element_app in *. norm_app. cbn [List.length] in Hlen.
  destruct fuel as [| fuel]; [lia |].
  cbn [xml.pathLoop xml.NextToken xml.pending xml.final].
  unfold xml.unmarshalPathWith. cbn [xml.Local]. rewrite Hf.
  rewrite Hr by (lia || (len_norm; lia)).
  apply Hl; [exact Hd |].
  len_norm. lia.
Qed.

Lemma loops_optional (empty : bool) (toks after : list xml.Token) (sv sv1 sv2 : St) :
  loops B fs after sv1 sv2 ->
  (loops B fs after sv1 sv2 -> loops B fs (toks ++ after) sv sv2) ->
  (omitEmpty dr = true -> empty = true -> sv1 = sv) ->
  loops B fs (optional dr empty toks ++ after) sv sv2.
Proof.
  intros Hafter Hpresent Hsame. unfold optional.
  destruct (omitEmpty dr); [destruct empty |]; cbn [andb app].
  - rewrite <- (Hsame eq_refl eq_refl). exact Hafter.
  - apply Hpresent. exact Hafter.
  - apply Hpresent. exact Hafter.
Qed.

End Loops.

(** Tokens that are [ignorable] inside an element are skipped with it;
    what is left of them is [ignorable] again. *)
Lemma ignorable_Skip_loop (toks : list xml.Token) :
  forall (k : nat) (after : list xml.Token) (fin : xml.DecodeError),
    ignorable toks (S k) = true ->
    exists g,
      xml.Skip_loop (toks ++ after) fin k = inr (xml.mkDecoder (g ++ after) fin)
      /\ ignorable g 0 = true
      /\ (List.length g < List.length toks)%nat.
Proof.
  induction toks as [| t toks IH]; intros k after fin H; [discriminate H |].
  destruct t; cbn [ignorable andb] in H; cbn [app xml.Skip_loop List.length].
  - destruct (IH (S k) after fin H) as [g [H1 [H2 H3]]].
    exists g. repeat split; [exact H1 | exact H2 | lia].
  - destruct k as [| k].
    + exists toks. repeat split; [exact H | lia].
    + destruct (IH k after fin H) as [g [H1 [H2 H3]]].
      exists g. repeat split; [exact H1 | exact H2 | lia].
  - destruct (IH k after fin H) as [g [H1 [H2 H3]]].
    exists g. repeat split; [exact H1 | exact H2 | lia].
  - destruct (IH k after fin H) as [g [H1 [H2 H3]]].
    exists g. repeat split; [exact H1 | exact H2 | lia].
  - destruct (IH k after fin H) as [g [H1 [H2 H3]]].
    exists g. repeat split; [exact H1 | exact H2 | lia].
  - destruct (IH k after fin H) as [g [H1 [H2 H3]]].
    exists g. repeat split; [exact H1 | exact H2 | lia].
Qed.

Lemma loops_filler_upto {St : Type} (B : Z) (fs : list (xml.fieldInfo St))
    (content : list xml.Token) (sv sv' : St) :
  (forall local, unknownName local = true -> xml.findPath fs [] local = xml.NoMatch) ->
  xml.saveAny fs = None ->
  loops B fs content sv sv' ->
  forall (k : nat) (g : list xml.Token),
    (List.length g <= k)%nat ->
    ignorable g 0 = true ->
    loops B fs (g ++ content) sv sv'.
Proof.
  intros Hf Ha Hl. induction k as [| k IH]; intros g Hk Hg.
  - destruct g; [exact Hl | cbn in Hk; lia].
  - destruct g as [| t g]; [exact Hl |].
    cbn [List.length] in Hk.
    intros fuel depth m rest fin Hd Hlen.
    norm_app. cbn [List.length] in Hlen. destruct fuel as [| fuel]; [lia |].
    destruct t; cbn [ignorable andb] in Hg;
      cbn [xml.structLoop xml.NextToken xml.pending xml.final].
    + apply andb_true_iff in Hg. destruct Hg as [Hn Hg].
      unfold xml.unmarshalPath, xml.unmarshalPathWith. rewrite (Hf _ Hn), Ha.
      destruct (ignorable_Skip_loop g 0 (content ++ xml.EndElement m :: rest) fin Hg)
        as [g' [H1 [H2 H3]]].
      unfold xml.Skip. cbn [xml.pending xml.final]. rewrite H1.
      rewrite app_assoc.
      apply (IH g' ltac:(lia) H2); [exact Hd |].
      rewrite <- app_assoc. len_norm. lia.
    + discriminate Hg.
    + rewrite app_assoc. apply (IH g ltac:(lia) Hg); [exact Hd |].
      rewrite <- app_assoc. exact (proj2 (Nat.succ_lt_mono _ _) Hlen).
    + rewrite app_assoc. apply (IH g ltac:(lia) Hg); [exact Hd |].
      rewrite <- app_assoc. exact (proj2 (Nat.succ_lt_mono _ _) Hlen).
    + rewrite app_assoc. apply (IH g ltac:(lia) Hg); [exact Hd |].
      rewrite <- app_assoc. exact (proj2 (Nat.succ_lt_mono _ _) Hlen).
    + rewrite app_assoc. apply (IH g ltac:(lia) Hg); [exact Hd |].
      rewrite <- app_assoc. exact (proj2 (Nat.succ_lt_mono _ _) Hlen).
Qed.

Lemma loops_filler {St : Type} (B : Z) (fs : list (xml.fieldInfo St))
    (g content : list xml.Token) (sv sv' : St) :
  (forall local, unknownName local = true -> xml.findPath fs [] local = xml.NoMatch) ->
  xml.saveAny fs = None ->
  ignorable g 0 = true ->
  loops B fs content sv sv' ->
  loops B fs (g ++ content) sv sv'.
Proof.
  intros Hf Ha Hg Hl.
  apply (loops_filler_upto B fs content sv sv' Hf Ha Hl (List.length g) g (le_n _) Hg).
Qed.

Lemma pathLoops_filler_upto {St : Type} (B : Z) (fs : list (xml.fieldInfo St))
    (parents : list string) (content : list xml.Token) (sv sv' : St) :
  (forall local, unknownName local = true ->
                 xml.findPath fs parents local = xml.NoMatch) ->
  pathLoops B fs parents content sv sv' ->
  forall (k : nat) (g : list xml.Token),
    (List.length g <= k)%nat ->
    ignorable g 0 = true ->
    pathLoops B fs parents (g ++ content) sv sv'.
Proof.
  intros Hf Hl. induction k as [| k IH]; intros g Hk Hg.
  - destruct g; [exact Hl | cbn in Hk; lia].
  - destruct g as [| t g]; [exact Hl |].
    cbn [List.length] in Hk.
    intros fuel depth m rest fin Hd Hlen.
    norm_app. cbn [List.length] in Hlen. destruct fuel as [| fuel]; [lia |].
    destruct t; cbn [ignorable andb] in Hg;
      cbn [xml.pathLoop xml.NextToken xml.pending xml.final].
    + apply andb_true_iff in Hg. destruct Hg as [Hn Hg].
      unfold xml.unmarshalPathWith. rewrite (Hf _ Hn).
      destruct (ignorable_Skip_loop g 0 (content ++ xml.EndElement m :: rest) fin Hg)
        as [g' [H1 [H2 H3]]].
      unfold xml.Skip. cbn [xml.pending xml.final]. rewrite H1.
      rewrite app_assoc.
      apply (IH g' ltac:(lia) H2); [exact Hd |].
      rewrite <- app_assoc. len_norm. lia.
    + discriminate Hg.
    + rewrite app_assoc. apply (IH g ltac:(lia) Hg); [exact Hd |].
      rewrite <- app_assoc. exact (proj2 (Nat.succ_lt_mono _ _) Hlen).
    + rewrite app_assoc. apply (IH g ltac:(lia) Hg); [exact Hd |].
      rewrite <- app_assoc. exact (proj2 (Nat.succ_lt_mono _ _) Hlen).
    + rewrite app_assoc. apply (IH g ltac:(lia) Hg); [exact Hd |].
      rewrite <- app_assoc. exact (proj2 (Nat.succ_lt_mono _ _) Hlen).
    + rewrite app_assoc. apply (IH g ltac:(lia) Hg); [exact Hd |].
      rewrite <- app_assoc. exact (proj2 (Nat.succ_lt_mono _ _) Hlen).
Qed.

Lemma pathLoops_filler {St : Type} (B : Z) (fs : list (xml.fieldInfo St))
    (parents : list string) (g content : list xml.Token) (sv sv' : St) :
  (forall local, unknownName local = true ->
                 xml.findPath fs parents local = xml.NoMatch) ->
  ignorable g 0 = true ->
  pathLoops B fs parents content sv sv' ->
  pathLoops B fs parents (g ++ content) sv sv'.
Proof.
  intros Hf Hg Hl.
  apply (pathLoops_filler_upto B fs parents content sv sv' Hf Hl (List.length g) g
                               (le_n _) Hg).
Qed.

(** *** The structs of the response *)

Lemma assignAttrs_none {St : Type} (fs : list (xml.fieldInfo St)) :
  (forall a sv, xml.assignAttr fs a sv = sv) ->
  forall attrs sv, xml.assignAttrs fs attrs sv = sv.
Proof.
  intros H attrs. unfold xml.assignAttrs.
  induction attrs as [| a attrs IH]; intros sv; cbn [fold_left]; [reflexivity |].
  rewrite H. apply IH.
Qed.

Lemma reads_struct {St : Type} (B : Z) (ti : xml.typeInfo St) (n : xml.Name)
    (content : list xml.Token) (sv sv' : St) :
  B < xml.maxUnmarshalDepth ->
  (forall a sv, xml.assignAttr (xml.fields ti) a sv = sv) ->
  loops B (xml.fields ti) content
        match xml.xmlname ti with
        | Some (_, setName) => setName n sv
        | None => sv
        end sv' ->
  match xml.xmlname ti with
  | Some (tag, _) => tag = xml.Local n
  | None => True
  end ->
  reads B (xml.unmarshalStruct ti) n content sv sv'.
Proof.
  intros HB Ha Hl Hn fuel depth a m rest fin Hd Hlen. unfold xml.unmarshalStruct.
  destruct (Z.leb_spec xml.maxUnmarshalDepth depth); [lia |].
  destruct (xml.xmlname ti) as [[tag setName] |].
  - subst tag. rewrite String.eqb_refl. rewrite andb_false_r.
    rewrite (assignAttrs_none _ Ha). apply Hl; assumption.
  - rewrite (assignAttrs_none _ Ha). apply Hl; assumption.
Qed.

Lemma children_cons (dr : Dress) (c : list xml.Token) (cs : list (list xml.Token)) :
  children dr (c :: cs) = (filler dr ++ c ++ children dr cs)%list.
Proof.
  unfold children. cbn [flat_map]. rewrite <- app_assoc. reflexivity.
Qed.

Lemma children_nil (dr : Dress) : children dr [] = (filler dr ++ [])%list.
Proof. reflexivity. Qed.

Ltac unknown_names H :=
  unfold unknownName in H; apply negb_true_iff in H;
  cbn [existsb knownNames] in H;
  repeat (apply orb_false_iff in H; let E := fresh "E" in destruct H as [E H]);
  cbn -[String.eqb];
  repeat match goal with
         | E : String.eqb _ _ = false |- _ => rewrite E; clear E
         end;
  reflexivity.

Lemma unknown_DomainInfo (local : string) :
  unknownName local = true ->
  xml.findPath (xml.fields DomainInfo_typeInfo) [] local = xml.NoMatch
  /\ xml.findPath (xml.fields DomainInfo_typeInfo) ["nameServers"] local = xml.NoMatch
  /\ xml.findPath (xml.fields DomainInfo_typeInfo) ["DSData"] local = xml.NoMatch
  /\ xml.findPath (xml.fields DomainInfo_typeInfo) ["DSData"; "item"] local = xml.NoMatch.
Proof.
  intros H. repeat split; unknown_names H.
Qed.

Lemma reads_text (B : Z) (n : xml.Name) (text v : string) :
  B < xml.maxUnmarshalDepth ->
  reads B unmarshalString n (textContent text) v text.
Proof.
  intros HB. apply reads_simple; [exact HB | reflexivity].
Qed.

Ltac flat_domain :=
  cbv beta;
  cbn [Status ErrorMessage DomainName DomainStatus DomainCreated DomainExpiry CreatedDate
       TransferStatus AutoRenew NameServers DNSSECKeys app].

Section Document.

Variable dr : Dress.
Hypothesis filler_ignorable : ignorable (filler dr) 0 = true.

Let fsD := xml.fields DomainInfo_typeInfo.

Lemma pathLoops_nameServers (B : Z) (servers : list string) :
  B + 2 < xml.maxUnmarshalDepth ->
  forall (st em dn ds dc de cd ts : string) (ar : Z) (ns ks : list string),
    pathLoops B fsD ["nameServers"]
              (children dr (map (textIn dr "item") servers))
              (mkDomainInfo st em dn ds dc de cd ts ar ns ks)
              (mkDomainInfo st em dn ds dc de cd ts ar (ns ++ servers) ks).
Proof.
  intros HB. induction servers as [| s servers IH]; intros.
  - cbn [map]. rewrite children_nil, (app_nil_r ns).
    apply pathLoops_filler;
      [intros l Hl; apply (unknown_DomainInfo l Hl) | exact filler_ignorable |].
    apply pathLoops_nil.
  - cbn [map]. rewrite children_cons.
    apply pathLoops_filler;
      [intros l Hl; apply (unknown_DomainInfo l Hl) | exact filler_ignorable |].
    unfold textIn at 1.
    eapply pathLoops_field; [reflexivity | |].
    + apply reads_intoField, reads_slice; [lia |]. apply reads_text. lia.
    + replace (ns ++ s :: servers)%list with ((ns ++ [s]) ++ servers)%list
        by (rewrite <- app_assoc; reflexivity).
      apply IH.
Qed.

Lemma pathLoops_DSData (B : Z) (keys : list string) :
  B + 2 < xml.maxUnmarshalDepth ->
  forall (st em dn ds dc de cd ts : string) (ar : Z) (ns ks : list string),
    pathLoops B fsD ["DSData"]
              (children dr
                 (map (fun key => elementIn dr "item" (children dr [textIn dr "UUID" key]))
                      keys))
              (mkDomainInfo st em dn ds dc de cd ts ar ns ks)
              (mkDomainInfo st em dn ds dc de cd ts ar ns (ks ++ keys)).
Proof.
  intros HB. induction keys as [| key keys IH]; intros.
  - cbn [map]. rewrite children_nil, (app_nil_r ks).
    apply pathLoops_filler;
      [intros l Hl; apply (unknown_DomainInfo l Hl) | exact filler_ignorable |].
    apply pathLoops_nil.
  - cbn [map]. rewrite children_cons.
    apply pathLoops_filler;
      [intros l Hl; apply (unknown_DomainInfo l Hl) | exact filler_ignorable |].
    eapply pathLoops_prefix; [reflexivity | |].
    + rewrite children_cons, children_nil.
      apply pathLoops_filler;
        [intros l Hl; apply (unknown_DomainInfo l Hl) | exact filler_ignorable |].
      unfold textIn at 1.
      eapply pathLoops_field; [reflexivity | |].
      * apply reads_intoField, reads_slice; [lia |]. apply reads_text. lia.
      * apply pathLoops_filler;
          [intros l Hl; apply (unknown_DomainInfo l Hl) | exact filler_ignorable |].
        apply pathLoops_nil.
    + replace (ks ++ key :: keys)%list with ((ks ++ [key]) ++ keys)%list
        by (rewrite <- app_assoc; reflexivity).
      apply IH.
Qed.

Lemma reads_item (B : Z) (n : xml.Name) (d : DomainInfo) (autoRenew : string) :
  B + 3 < xml.maxUnmarshalDepth ->
  copyInt autoRenew = inr (AutoRenew d) ->
  reads B (xml.unmarshalStruct DomainInfo_typeInfo) n (itemContent dr d autoRenew)
        zeroDomainInfo d.
Proof.
  intros HB Har. destruct d as [st em dn ds dc de cd ts ar ns ks].
  cbn [AutoRenew] in Har.
  apply reads_struct; [lia | intros; reflexivity | | exact I].
  cbn [xml.xmlname DomainInfo_typeInfo]. unfold itemContent, zeroDomainInfo.
  flat_domain.
  do 8 (rewrite children_cons;
        apply loops_filler;
        [intros l Hl; apply (unknown_DomainInfo l Hl) | reflexivity
         | exact filler_ignorable |];
        unfold fieldIn at 1;
        eapply loops_optional;
        [| intros Hrest; unfold textIn at 1;
           eapply loops_field;
           [reflexivity | apply reads_intoField, reads_text; lia | exact Hrest]
         | intros _ E; apply String.eqb_eq in E; subst; reflexivity];
        flat_domain).
  rewrite children_cons.
  apply loops_filler;
    [intros l Hl; apply (unknown_DomainInfo l Hl) | reflexivity | exact filler_ignorable |].
  unfold fieldIn at 1.
  eapply loops_optional;
    [| intros Hrest; unfold textIn at 1;
       eapply loops_field;
       [reflexivity | apply reads_intoField, (reads_simple _ _ _ _ _ ar); [lia | exact Har]
        | exact Hrest]
     | intros _ E; apply String.eqb_eq in E; subst autoRenew;
       injection Har as Har; subst ar; reflexivity].
  flat_domain.
  rewrite children_cons.
  apply loops_filler;
    [intros l Hl; apply (unknown_DomainInfo l Hl) | reflexivity | exact filler_ignorable |].
  eapply loops_optional;
    [| intros Hrest;
       eapply loops_prefix;
       [reflexivity | apply pathLoops_nameServers; lia | exact Hrest]
     | intros _ E; destruct ns; [reflexivity | discriminate E]].
  flat_domain.
  rewrite children_cons.
  apply loops_filler;
    [intros l Hl; apply (unknown_DomainInfo l Hl) | reflexivity | exact filler_ignorable |].
  eapply loops_optional;
    [| intros Hrest;
       eapply loops_prefix;
       [reflexivity | apply pathLoops_DSData; lia | exact Hrest]
     | intros _ E; destruct ks; [reflexivity | discriminate E]].
  flat_domain.
  rewrite children_nil.
  apply loops_filler;
    [intros l Hl; apply (unknown_DomainInfo l Hl) | reflexivity | exact filler_ignorable |].
  apply loops_nil.
Qed.

End Document.

(** The decimal text of an [int64] is read back as the number. *)
Lemma digits_app (s1 s2 : string) :
  forall acc,
    strconv.digits acc (s1 ++ s2)
    = match strconv.digits acc s1 with
      | Some v => strconv.digits v s2
      | None => None
      end.
Proof.
  induction s1 as [| c s1 IH]; intros acc; cbn [String.append strconv.digits];
    [reflexivity |].
  destruct (time.isDigitChar c); [apply IH | reflexivity].
Qed.

Lemma digits_decimal (fuel : nat) :
  forall n, 0 <= n < 10 ^ Z.of_nat fuel -> strconv.digits 0 (decimal fuel n) = Some n.
Proof.
  induction fuel as [| fuel IH]; intros n Hn.
  - change (10 ^ Z.of_nat 0) with 1 in Hn. assert (n = 0) by lia. subst n. reflexivity.
  - cbn [decimal]. rewrite digits_app.
    assert (Hd : 0 <= n mod 10 <= 9) by (Z.div_mod_to_equations; lia).
    assert (Hlast : forall v, strconv.digits v (String (digitChar (n mod 10)) "")
                              = Some (v * 10 + n mod 10)).
    { intros v. cbn [strconv.digits].
      rewrite isDigitChar_digitChar, digitVal_digitChar by exact Hd. reflexivity. }
    destruct (Z.ltb_spec n 10) as [Hlt | Hge].
    + change (strconv.digits 0 "") with (Some 0). cbv iota.
      rewrite Hlast. f_equal. Z.div_mod_to_equations; lia.
    + rewrite IH.
      * rewrite Hlast. f_equal. Z.div_mod_to_equations; lia.
      * rewrite Nat2Z.inj_succ, Z.pow_succ_r in Hn by lia.
        Z.div_mod_to_equations; lia.
Qed.

Lemma decimal_shape (fuel : nat) (n : Z) :
  0 <= n ->
  exists s, decimal (S fuel) n = s ++ String (digitChar (n mod 10)) "".
Proof.
  intros Hn. cbn [decimal]. eexists. reflexivity.
Qed.

Lemma decimal_first (fuel : nat) :
  forall n, 0 <= n ->
            exists c t, decimal (S fuel) n = String c t /\ time.isDigitChar c = true.
Proof.
  induction fuel as [| fuel IH]; intros n Hn.
  - cbn [decimal]. destruct (n <? 10); cbn [String.append];
      (eexists; eexists; split; [reflexivity |];
       apply isDigitChar_digitChar; Z.div_mod_to_equations; lia).
  - change (decimal (S (S fuel)) n)
      with ((if n <? 10 then EmptyString else decimal (S fuel) (n / 10))
            ++ String (digitChar (n mod 10)) EmptyString).
    destruct (n <? 10).
    + cbn [String.append]. eexists. eexists. split; [reflexivity |].
      apply isDigitChar_digitChar. Z.div_mod_to_equations; lia.
    + destruct (IH (n / 10)) as [c [t [E Hc]]]; [Z.div_mod_to_equations; lia |].
      rewrite E. cbn [String.append]. eexists. eexists. split; [reflexivity | exact Hc].
Qed.

(** Text that begins and ends with a digit or a sign has no white space to
    trim. *)
Lemma isDigitChar_plain (c : ascii) : time.isDigitChar c = true -> plainByte c = true.
Proof.
  destruct c as [[] [] [] [] [] [] [] []]; intros H; try discriminate H; reflexivity.
Qed.

Lemma get_last (s : string) (c : ascii) :
  String.get (String.length s) (s ++ String c "") = Some c.
Proof.
  induction s as [| x s IH]; [reflexivity | exact IH].
Qed.

Lemma length_snoc (s : string) (c : ascii) :
  String.length (s ++ String c "") = S (String.length s).
Proof.
  induction s as [| x s IH]; cbn [String.append String.length]; [reflexivity |].
  rewrite IH. reflexivity.
Qed.

Lemma TrimSpace_plain (c1 c2 : ascii) (t s : string) :
  String c1 t = s ++ String c2 "" ->
  plainByte c1 = true -> plainByte c2 = true ->
  strings.TrimSpace (String c1 t) = String c1 t.
Proof.
  intros E H1 H2. unfold strings.TrimSpace.
  assert (L : strings.trimLeft (String.length (String c1 t)) (String c1 t) = String c1 t).
  { cbn [String.length strings.trimLeft utf8.DecodeRuneInString].
    unfold plainByte in H1. apply andb_true_iff in H1. destruct H1 as [Ha Hs].
    rewrite Ha. apply negb_true_iff in Hs. rewrite Hs. reflexivity. }
  rewrite L.
  cbn [String.length strings.trimRight].
  unfold strings.DecodeLastRuneInString.
  rewrite E, length_snoc, get_last.
  unfold plainByte in H2. apply andb_true_iff in H2. destruct H2 as [Ha Hs].
  rewrite Ha. apply negb_true_iff in Hs. rewrite Hs. reflexivity.
Qed.

Lemma isDigitChar_no_sign (c : ascii) :
  time.isDigitChar c = true -> Ascii.eqb c "-" = false /\ Ascii.eqb c "+" = false.
Proof.
  destruct c as [[] [] [] [] [] [] [] []]; intros H; try discriminate H; split; reflexivity.
Qed.

Lemma copyInt_formatInt (z : Z) :
  inInt64 z = true -> copyInt (formatInt z) = inr z.
Proof.
  unfold inInt64, minInt64, maxInt64. intros H.
  apply andb_true_iff in H. destruct H as [Hlo Hhi].
  apply Z.leb_le in Hlo. apply Z.leb_le in Hhi.
  assert (P19 : 2 ^ 63 < 10 ^ Z.of_nat 19) by (vm_compute; reflexivity).
  unfold formatInt, copyInt. destruct (Z.ltb_spec z 0) as [Hneg | Hpos].
  - destruct (decimal_shape 18 (- z) ltac:(lia)) as [s0 Es].
    destruct (decimal_first 18 (- z) ltac:(lia)) as [c [t [Ec Hc]]].
    assert (Hd : 0 <= (- z) mod 10 <= 9) by (Z.div_mod_to_equations; lia).
    rewrite (TrimSpace_plain "-" (digitChar ((- z) mod 10)) (decimal 19 (- z)) (String "-" s0));
      [| cbn [String.append]; rewrite Es; reflexivity | reflexivity
       | apply isDigitChar_plain, isDigitChar_digitChar; exact Hd].
    cbn [String.length Nat.eqb]. unfold strconv.ParseInt.
    cbn [Ascii.eqb Bool.eqb orb andb negb].
    pose proof (digits_decimal 19 (- z) ltac:(lia)) as Hdig.
    rewrite Ec in *. rewrite Hdig.
    destruct (Z.ltb_spec (2 ^ 63) (- z)); [lia |].
    f_equal. lia.
  - destruct (decimal_shape 18 z Hpos) as [s0 Es].
    destruct (decimal_first 18 z Hpos) as [c [t [Ec Hc]]].
    assert (Hd : 0 <= z mod 10 <= 9) by (Z.div_mod_to_equations; lia).
    pose proof (digits_decimal 19 z ltac:(lia)) as Hdig.
    rewrite Ec in *.
    rewrite (TrimSpace_plain c (digitChar (z mod 10)) t s0 Es);
      [| apply isDigitChar_plain; exact Hc
       | apply isDigitChar_plain, isDigitChar_digitChar; exact Hd].
    cbn [String.length Nat.eqb]. unfold strconv.ParseInt.
    destruct (isDigitChar_no_sign c Hc) as [Hm Hp]. rewrite Hm, Hp.
    cbn [orb andb negb]. rewrite Hdig.
    destruct (Z.leb_spec (2 ^ 63) z); [lia |]. reflexivity.
Qed.

Lemma unknown_DomainList (local : string) :
  unknownName local = true ->
  xml.findPath (xml.fields DomainList_typeInfo) [] local = xml.NoMatch
  /\ xml.findPath (xml.fields DomainList_typeInfo) ["domainList"] local = xml.NoMatch.
Proof.
  intros H. repeat split; unknown_names H.
Qed.

Lemma unknown_ListDomainsResponse (local : string) :
  unknownName local = true ->
  xml.findPath (xml.fields ListDomainsResponse_typeInfo) [] local = xml.NoMatch.
Proof.
  intros H. unknown_names H.
Qed.

Lemma unknown_Envelope (local : string) :
  unknownName local = true ->
  xml.findPath (xml.fields apiSOAPEnvelope_typeInfo) [] local = xml.NoMatch.
Proof.
  intros H. unknown_names H.
Qed.

Section Response.

Variable dr : Dress.
Hypothesis filler_ignorable : ignorable (filler dr) 0 = true.

Let fsL := xml.fields DomainList_typeInfo.

(** The items of the list, each with the text of its auto-renewal. *)
Lemma pathLoops_domainList (B : Z) (items : list (DomainInfo * string)) :
  B + 5 < xml.maxUnmarshalDepth ->
  Forall (fun p => copyInt (snd p) = inr (AutoRenew (fst p))) items ->
  forall (c : SOAPResponseCommon) (l : list DomainInfo),
    pathLoops B fsL ["domainList"]
              (children dr (map (fun p => itemTokensWith dr (fst p) (snd p)) items))
              (mkDomainList c l) (mkDomainList c (l ++ map fst items)).
Proof.
  intros HB. induction 1 as [| [d ar] items Hd Hitems IH]; intros c l.
  - cbn [map]. rewrite children_nil, (app_nil_r l).
    apply pathLoops_filler;
      [intros x Hx; apply (unknown_DomainList x Hx) | exact filler_ignorable |].
    apply pathLoops_nil.
  - cbn [map fst snd]. rewrite children_cons.
    apply pathLoops_filler;
      [intros x Hx; apply (unknown_DomainList x Hx) | exact filler_ignorable |].
    unfold itemTokensWith at 1.
    eapply pathLoops_field; [reflexivity | |].
    + apply reads_intoField, reads_slice; [lia |].
      apply (reads_item dr filler_ignorable); [lia | exact Hd].
    + cbv beta. cbn [Common Domains].
      replace (l ++ d :: map fst items)%list with ((l ++ [d]) ++ map fst items)%list
        by (rewrite <- app_assoc; reflexivity).
      apply IH.
Qed.

Lemma reads_return (B : Z) (n : xml.Name) (status errorMessage : string)
    (items : list (DomainInfo * string)) (r0 : DomainList) :
  B + 6 < xml.maxUnmarshalDepth ->
  Forall (fun p => copyInt (snd p) = inr (AutoRenew (fst p))) items ->
  (omitEmpty dr = true -> Common r0 = mkCommon "" "") ->
  reads B (xml.unmarshalStruct DomainList_typeInfo) n
        (returnContent dr status errorMessage
                       (map (fun p => itemTokensWith dr (fst p) (snd p)) items))
        r0
        (mkDomainList (mkCommon status errorMessage) (Domains r0 ++ map fst items)).
Proof.
  intros HB Hitems Hz. destruct r0 as [[st0 em0] l0]. cbn [Common] in Hz.
  apply reads_struct; [lia | intros; reflexivity | | exact I].
  cbn [xml.xmlname DomainList_typeInfo Domains]. unfold returnContent.
  do 2 (rewrite children_cons;
        apply loops_filler;
        [intros x Hx; apply (unknown_DomainList x Hx) | reflexivity
         | exact filler_ignorable |];
        unfold fieldIn at 1;
        eapply loops_optional;
        [| intros Hrest; unfold textIn at 1;
           eapply loops_field;
           [reflexivity | apply reads_intoField, reads_text; lia | exact Hrest]
         | intros Ho E; apply String.eqb_eq in E; subst;
           injection (Hz Ho) as -> ->; reflexivity];
        cbv beta; cbn [Common Domains CommonStatus CommonErrorMessage]).
  rewrite children_cons.
  apply loops_filler;
    [intros x Hx; apply (unknown_DomainList x Hx) | reflexivity | exact filler_ignorable |].
  eapply loops_optional;
    [| intros Hrest;
       eapply loops_prefix;
       [reflexivity | apply pathLoops_domainList; [lia | exact Hitems] | exact Hrest]
     | intros _ E; destruct items; [cbn [map]; rewrite app_nil_r; reflexivity
                                   | discriminate E]].
  rewrite children_nil.
  apply loops_filler;
    [intros x Hx; apply (unknown_DomainList x Hx) | reflexivity | exact filler_ignorable |].
  apply loops_nil.
Qed.

Lemma reads_listDomainsResponse (B : Z) (status errorMessage : string)
    (items : list (DomainInfo * string)) (r0 : ListDomainsResponse) :
  B + 7 < xml.maxUnmarshalDepth ->
  Forall (fun p => copyInt (snd p) = inr (AutoRenew (fst p))) items ->
  (omitEmpty dr = true -> Common (Return r0) = mkCommon "" "") ->
  reads B (xml.unmarshalStruct ListDomainsResponse_typeInfo)
        (xml.mkName (spaceOf dr "listDomainsResponse") "listDomainsResponse")
        (children dr
           [ elementIn dr "return"
               (returnContent dr status errorMessage
                              (map (fun p => itemTokensWith dr (fst p) (snd p)) items)) ])
        r0
        (mkResponse (xml.mkName (spaceOf dr "listDomainsResponse") "listDomainsResponse")
                    (mkDomainList (mkCommon status errorMessage)
                                  (Domains (Return r0) ++ map fst items))).
Proof.
  intros HB Hitems Hz. destruct r0 as [n0 ret0]. cbn [Return] in Hz.
  apply reads_struct; [lia | intros; reflexivity | | reflexivity].
  cbn [xml.xmlname ListDomainsResponse_typeInfo Return].
  rewrite children_cons.
  apply loops_filler;
    [intros x Hx; apply (unknown_ListDomainsResponse x Hx) | reflexivity
     | exact filler_ignorable |].
  eapply loops_field; [reflexivity | |].
  - apply reads_intoField. apply reads_return; [lia | exact Hitems | exact Hz].
  - cbv beta. cbn [XMLName Return].
    rewrite children_nil.
    apply loops_filler;
      [intros x Hx; apply (unknown_ListDomainsResponse x Hx) | reflexivity
       | exact filler_ignorable |].
    apply loops_nil.
Qed.

Lemma reads_Body (B : Z) (n : xml.Name) (status errorMessage : string)
    (items : list (DomainInfo * string)) (r0 : ListDomainsResponse) :
  B + 8 < xml.maxUnmarshalDepth ->
  Forall (fun p => copyInt (snd p) = inr (AutoRenew (fst p))) items ->
  (omitEmpty dr = true -> Common (Return r0) = mkCommon "" "") ->
  reads B (xml.unmarshalStruct apiSOAPBody_typeInfo) n
        (elementIn dr "listDomainsResponse"
           (children dr
              [ elementIn dr "return"
                  (returnContent dr status errorMessage
                                 (map (fun p => itemTokensWith dr (fst p) (snd p)) items)) ]))
        (mkBody r0)
        (mkBody
           (mkResponse (xml.mkName (spaceOf dr "listDomainsResponse") "listDomainsResponse")
                       (mkDomainList (mkCommon status errorMessage)
                                     (Domains (Return r0) ++ map fst items)))).
Proof.
  intros HB Hitems Hz.
  apply reads_struct; [lia | intros; reflexivity | | exact I].
  cbn [xml.xmlname apiSOAPBody_typeInfo].
  rewrite <- (app_nil_r (elementIn dr "listDomainsResponse" _)).
  eapply loops_any; [reflexivity | reflexivity | |].
  - apply reads_intoField. cbn [Content].
    apply reads_listDomainsResponse; [lia | exact Hitems | exact Hz].
  - cbv beta. apply loops_nil.
Qed.

(** The document, read from its first start element on. *)
Lemma UnmarshalSOAPResponse_returnTokens (pre trailing : list xml.Token)
    (fin : xml.DecodeError) (status errorMessage : string)
    (items : list (DomainInfo * string)) (r0 : ListDomainsResponse) :
  noStart pre = true ->
  Forall (fun p => copyInt (snd p) = inr (AutoRenew (fst p))) items ->
  (omitEmpty dr = true -> Common (Return r0) = mkCommon "" "") ->
  UnmarshalSOAPResponse
    (xml.mkDecoder
       (pre ++ returnTokens dr status errorMessage
                            (map (fun p => itemTokensWith dr (fst p) (snd p)) items)
            ++ trailing) fin) r0
  = inr (mkResponse (xml.mkName (spaceOf dr "listDomainsResponse") "listDomainsResponse")
                    (mkDomainList (mkCommon status errorMessage)
                                  (Domains (Return r0) ++ map fst items))).
Proof.
  intros Hpre Hitems Hz. unfold UnmarshalSOAPResponse, returnTokens.
  rewrite element_app.
  rewrite (DecodeEnvelope_content pre _ fin (xml.mkName (spaceOf dr "Envelope") "Envelope")
                                   _ r0 Hpre eq_refl).
  match goal with
  | |- context [xml.structLoop _ 0 _ ?sv0 _] =>
    assert (Hb : Body sv0 = mkBody r0) by apply assignAttrs_Body;
    generalize dependent sv0
  end.
  intros sv0 Hb.
  assert (L : loops 0 (xml.fields apiSOAPEnvelope_typeInfo)
                    (children dr
                       [ elementIn dr "Body"
                           (elementIn dr "listDomainsResponse"
                              (children dr
                                 [ elementIn dr "return"
                                     (returnContent dr status errorMessage
                                        (map (fun p => itemTokensWith dr (fst p) (snd p))
                                             items)) ])) ])
                    sv0
                    (mkEnvelope (EnvelopeXMLName sv0) (Xmlns sv0) (Xmlns1 sv0) (Xmlns2 sv0)
                       (mkBody
                          (mkResponse
                             (xml.mkName (spaceOf dr "listDomainsResponse")
                                         "listDomainsResponse")
                             (mkDomainList (mkCommon status errorMessage)
                                           (Domains (Return r0) ++ map fst items)))))).
  { rewrite children_cons.
    apply loops_filler;
      [intros x Hx; apply (unknown_Envelope x Hx) | reflexivity | exact filler_ignorable |].
    eapply loops_field; [reflexivity | |].
    - apply reads_intoField. rewrite Hb.
      apply reads_Body; [vm_compute; reflexivity | exact Hitems | exact Hz].
    - cbv beta. rewrite children_nil.
      apply loops_filler;
        [intros x Hx; apply (unknown_Envelope x Hx) | reflexivity | exact filler_ignorable |].
      apply loops_nil. }
  rewrite (L _ 0 _ trailing fin (Z.le_refl 0) (Nat.lt_succ_diag_r _)).
  reflexivity.
Qed.

End Response.

(** *** The round trip *)

Lemma responseTokens_items (dr : Dress) (r : DomainList) :
  responseTokens dr r
  = returnTokens dr (CommonStatus (Common r)) (CommonErrorMessage (Common r))
      (map (fun p => itemTokensWith dr (fst p) (snd p))
           (map (fun d => (d, formatInt (AutoRenew d))) (Domains r))).
Proof.
  unfold responseTokens. rewrite map_map. reflexivity.
Qed.

Lemma formatInt_items (ds : list DomainInfo) :
  Forall (fun d => inInt64 (AutoRenew d) = true) ds ->
  Forall (fun p => copyInt (snd p) = inr (AutoRenew (fst p)))
         (map (fun d => (d, formatInt (AutoRenew d))) ds)
  /\ map fst (map (fun d => (d, formatInt (AutoRenew d))) ds) = ds.
Proof.
  intros H. split.
  - apply Forall_map. eapply Forall_impl; [| exact H].
    intros d Hd. apply copyInt_formatInt. exact Hd.
  - rewrite map_map. cbn [fst]. apply map_id.
Qed.

Lemma UnmarshalSOAPResponse_responseTokens (dr : Dress) (r : DomainList)
    (pre trailing : list xml.Token) (fin : xml.DecodeError) (r0 : ListDomainsResponse) :
  ignorable (filler dr) 0 = true ->
  noStart pre = true ->
  Forall (fun d => inInt64 (AutoRenew d) = true) (Domains r) ->
  (omitEmpty dr = true -> Common (Return r0) = mkCommon "" "") ->
  UnmarshalSOAPResponse (xml.mkDecoder (pre ++ responseTokens dr r ++ trailing) fin) r0
  = inr (mkResponse (xml.mkName (spaceOf dr "listDomainsResponse") "listDomainsResponse")
                    (mkDomainList (Common r) (Domains (Return r0) ++ Domains r))).
Proof.
  intros Hf Hpre Hds Hz. destruct (formatInt_items _ Hds) as [Hitems Hfst].
  rewrite responseTokens_items.
  rewrite (UnmarshalSOAPResponse_returnTokens dr Hf pre trailing fin _ _ _ r0 Hpre Hitems Hz).
  rewrite Hfst. destruct r as [[st em] ds]. reflexivity.
Qed.

(** X14. [UnmarshalSOAPResponse] reads the document of a response back:
    from an envelope whose body holds [listDomainsResponse], in it [return]
    with the status, the error message and, under [domainList], one [item]
    per domain with its fields as text, its name servers under
    [nameServers>item] and its DNSSEC keys under [DSData>item>UUID], it
    returns a response with exactly this status, error message and list of
    domains, in order.  This holds whatever the name spaces and the
    attributes of the elements; whatever white space, comments and elements
    of other names stand between the elements the structs have fields for,
    before the envelope and after it; and whether the elements that would be
    empty are written or left out.  Decoded into a response that holds
    domains already, the domains of the document are appended to them. *)
Theorem UnmarshalSOAPResponse_reads_document (dr : Dress) (r : DomainList)
    (pre trailing : list xml.Token) (fin : xml.DecodeError) :
  ignorable (filler dr) 0 = true ->
  noStart pre = true ->
  Forall (fun d => inInt64 (AutoRenew d) = true) (Domains r) ->
  UnmarshalSOAPResponse (xml.mkDecoder (pre ++ responseTokens dr r ++ trailing) fin)
                        zeroResponse
  = inr (mkResponse (xml.mkName (spaceOf dr "listDomainsResponse") "listDomainsResponse") r)
  /\ forall r0 : ListDomainsResponse,
       (omitEmpty dr = true -> Common (Return r0) = mkCommon "" "") ->
       UnmarshalSOAPResponse (xml.mkDecoder (pre ++ responseTokens dr r ++ trailing) fin) r0
       = inr (mkResponse
                (xml.mkName (spaceOf dr "listDomainsResponse") "listDomainsResponse")
                (mkDomainList (Common r) (Domains (Return r0) ++ Domains r))).
Proof.
  intros Hf Hpre Hds. split.
  - rewrite (UnmarshalSOAPResponse_responseTokens dr r pre trailing fin zeroResponse
                                                  Hf Hpre Hds (fun _ => eq_refl)).
    destruct r as [c ds]. reflexivity.
  - intros r0 Hz. apply UnmarshalSOAPResponse_responseTokens; assumption.
Qed.

Lemma UnmarshalSOAPResponse_reads_document_witness :
  UnmarshalSOAPResponse
    (xml.mkDecoder
       ([xml.ProcInst "xml" "version=1.0"]
        ++ responseTokens dressed (Return exampleResponse)
        ++ [xml.CharData (str newline)]) xml.EOF)
    zeroResponse
  = inr (mkResponse (xml.mkName "http://api.synergywholesale.com" "listDomainsResponse")
                    (Return exampleResponse)).
Proof.
  apply (proj1 (UnmarshalSOAPResponse_reads_document dressed (Return exampleResponse)
                  [xml.ProcInst "xml" "version=1.0"] [xml.CharData (str newline)] xml.EOF
                  eq_refl eq_refl
                  ltac:(repeat constructor))).
Defined.

(** ** A scrape, end to end *)

Opaque createSOAPRequest UnmarshalSOAPResponse requestBody refresh.

(** X15. A scrape on an expired (or empty) cache, against an upstream
    that answers with the document of a response: one request goes
    upstream, the response is stored with its expiry (the clock read after
    the exchange, plus the TTL), and the channel receives the samples of
    the domains of the document whose status is ["OK"], in the order of the
    document. *)
Theorem Collect_scrapes_document (env : Env) (w : World Globals prometheus.Metric)
    (dr : Dress) (r : DomainList) (pre trailing : list xml.Token)
    (fin : xml.DecodeError) :
  let g := globals w in
  let response :=
    mkResponse (xml.mkName (spaceOf dr "listDomainsResponse") "listDomainsResponse") r in
  cacheExpires g <= clock env (clockReads w) ->
  reply env w = inr (xml.mkDecoder (pre ++ responseTokens dr r ++ trailing) fin) ->
  ignorable (filler dr) 0 = true ->
  noStart pre = true ->
  Forall (fun d => inInt64 (AutoRenew d) = true) (Domains r) ->
  forallb validLabels (filter isOK (Domains r)) = true ->
  run env (Collect newCollector) w
  = (Done tt,
     mkWorld (set_cacheExpires (add64 (clock env (S (clockReads w))) (cacheTTLSeconds g))
                               (set_listDomainsResponse response g))
             (S (S (clockReads w)))
             (requests w ++ [requestBody g])
             (logged w ++ ["Sending listDomains request to Synergy Wholesale API";
                           "Request successful"])
             (channel w ++ exposition (Domains r))).
Proof.
  intros g response Hstale Hreply Hf Hpre Hds Hv.
  pose proof (getDomains_stale env prometheus.Metric w Hstale) as Hg.
  rewrite Hreply in Hg.
  rewrite (UnmarshalSOAPResponse_responseTokens dr r pre trailing fin zeroResponse
                                                Hf Hpre Hds (fun _ => eq_refl)) in Hg.
  assert (E : mkDomainList (Common r) (Domains (Return zeroResponse) ++ Domains r) = r)
    by (destruct r; reflexivity).
  rewrite E in Hg.
  rewrite (Collect_after_getDomains env w _ _ Hg).
  cbn [Return Domains].
  rewrite (collectDomains_sendAll _ Hv), run_sendAll. reflexivity.
Qed.

Transparent createSOAPRequest UnmarshalSOAPResponse requestBody refresh.

Lemma Collect_scrapes_document_witness :
  channel (snd (run dressedEnv (Collect newCollector) (freshWorld exampleGlobals)))
  = exposition [exampleDomain].
Proof.
  rewrite (Collect_scrapes_document dressedEnv (freshWorld exampleGlobals) dressed
             (Return exampleResponse) [] [] xml.EOF).
  - reflexivity.
  - unfold exampleGlobals, initialGlobals, dressedEnv.
    cbn [freshWorld globals cacheExpires clock clockReads]. lia.
  - reflexivity.
  - reflexivity.
  - reflexivity.
  - repeat constructor.
  - vm_compute. reflexivity.
Defined.

(** *** A value that does not decode *)

Lemma fails_simple {T : Type} (B : Z) (copy : string -> xml.DecodeError + T)
    (n m : xml.Name) (text : string) (v : T) (e : xml.DecodeError) :
  B < xml.maxUnmarshalDepth ->
  copy text = inl e ->
  fails B (xml.unmarshalSimple copy) n (textContent text ++ [xml.EndElement m]) v e.
Proof.
  intros HB Hc fuel depth a rest fin Hd Hlen. unfold xml.unmarshalSimple.
  destruct (Z.leb_spec xml.maxUnmarshalDepth depth); [lia |].
  rewrite <- app_assoc in *. cbn [app] in *.
  rewrite (collectData_text text "" m rest fin fuel Hlen).
  cbn [String.append]. rewrite Hc. reflexivity.
Qed.

Lemma fails_intoField {St F : Type} (B : Z) (get : St -> F) (set : F -> St -> St)
    (um : xml.unmarshaler F) (n : xml.Name) (content : list xml.Token) (sv : St)
    (e : xml.DecodeError) :
  fails B um n content (get sv) e ->
  fails B (xml.intoField get set um) n content sv e.
Proof.
  intros H fuel depth a rest fin Hd Hlen. unfold xml.intoField.
  rewrite (H fuel depth a rest fin Hd Hlen). reflexivity.
Qed.

Lemma fails_slice {T : Type} (B : Z) (elem : xml.unmarshaler T) (zero : T)
    (n : xml.Name) (content : list xml.Token) (l : list T) (e : xml.DecodeError) :
  B < xml.maxUnmarshalDepth ->
  fails (B + 1) elem n content zero e ->
  fails B (xml.unmarshalSlice elem zero) n content l e.
Proof.
  intros HB H fuel depth a rest fin Hd Hlen. unfold xml.unmarshalSlice.
  destruct (Z.leb_spec xml.maxUnmarshalDepth depth); [lia |].
  rewrite (H fuel (depth + 1) a rest fin ltac:(lia) Hlen). reflexivity.
Qed.

Lemma fails_struct {St : Type} (B : Z) (ti : xml.typeInfo St) (n : xml.Name)
    (content : list xml.Token) (sv : St) (e : xml.DecodeError) :
  B < xml.maxUnmarshalDepth ->
  (forall a sv, xml.assignAttr (xml.fields ti) a sv = sv) ->
  loopsFail B (xml.fields ti) content
            match xml.xmlname ti with
            | Some (_, setName) => setName n sv
            | None => sv
            end e ->
  match xml.xmlname ti with
  | Some (tag, _) => tag = xml.Local n
  | None => True
  end ->
  fails B (xml.unmarshalStruct ti) n content sv e.
Proof.
  intros HB Ha Hl Hn fuel depth a rest fin Hd Hlen. unfold xml.unmarshalStruct.
  destruct (Z.leb_spec xml.maxUnmarshalDepth depth); [lia |].
  destruct (xml.xmlname ti) as [[tag setName] |].
  - subst tag. rewrite String.eqb_refl. rewrite andb_false_r.
    rewrite (assignAttrs_none _ Ha). apply Hl; assumption.
  - rewrite (assignAttrs_none _ Ha). apply Hl; assumption.
Qed.

Section LoopsFail.

Variable St : Type.
Variable B : Z.
Variable fs : list (xml.fieldInfo St).
Variable dr : Dress.

(** The element of a field whose text does not decode. *)
Lemma loopsFail_text (name : string) (um : xml.unmarshaler St)
    (content after : list xml.Token) (sv : St) (e : xml.DecodeError) :
  xml.findPath fs [] name = xml.PerfectMatch um ->
  fails (B + 1) um (xml.mkName (spaceOf dr name) name)
        (content ++ [xml.EndElement (xml.mkName (spaceOf dr name) name)]) sv e ->
  loopsFail B fs (elementIn dr name content ++ after) sv e.
Proof.
  intros Hf Hr fuel depth rest fin Hd Hlen.
  rewrite element_app in *. norm_app. cbn [List.length] in Hlen.
  destruct fuel as [| fuel]; [lia |].
  cbn [xml.structLoop xml.NextToken xml.pending xml.final].
  unfold xml.unmarshalPath, xml.unmarshalPathWith. cbn [xml.Local]. rewrite Hf.
  pose proof (Hr fuel (depth + 1) (attrsOf dr name) (after ++ rest)%list fin) as H.
  norm_app. rewrite H by (lia || (len_norm; lia)). reflexivity.
Qed.

(** The element of a field the decoding fails inside of. *)
Lemma loopsFail_field (name : string) (um : xml.unmarshaler St)
    (content after : list xml.Token) (sv : St) (e : xml.DecodeError) :
  xml.findPath fs [] name = xml.PerfectMatch um ->
  fails (B + 1) um (xml.mkName (spaceOf dr name) name) content sv e ->
  loopsFail B fs (elementIn dr name content ++ after) sv e.
Proof.
  intros Hf Hr fuel depth rest fin Hd Hlen.
  rewrite element_app in *. norm_app. cbn [List.length] in Hlen.
  destruct fuel as [| fuel]; [lia |].
  cbn [xml.structLoop xml.NextToken xml.pending xml.final].
  unfold xml.unmarshalPath, xml.unmarshalPathWith. cbn [xml.Local]. rewrite Hf.
  rewrite Hr by (lia || (len_norm; lia)). reflexivity.
Qed.

Lemma loopsFail_prefix (name : string) (parents : list string)
    (content after : list xml.Token) (sv : St) (e : xml.DecodeError) :
  xml.findPath fs [] name = xml.PrefixMatch parents ->
  pathLoopsFail B fs parents content sv e ->
  loopsFail B fs (elementIn dr name content ++ after) sv e.
Proof.
  intros Hf Hr fuel depth rest fin Hd Hlen.
  rewrite element_app in *. norm_app. cbn [List.length] in Hlen.
  destruct fuel as [| fuel]; [lia |].
  cbn [xml.structLoop xml.NextToken xml.pending xml.final].
  unfold xml.unmarshalPath, xml.unmarshalPathWith. cbn [xml.Local]. rewrite Hf.
  rewrite Hr by (lia || (len_norm; lia)). reflexivity.
Qed.

Lemma loopsFail_any (name : string) (um : xml.unmarshaler St)
    (content after : list xml.Token) (sv : St) (e : xml.DecodeError) :
  xml.findPath fs [] name = xml.NoMatch ->
  xml.saveAny fs = Some um ->
  fails (B + 1) um (xml.mkName (spaceOf dr name) name) content sv e ->
  loopsFail B fs (elementIn dr name content ++ after) sv e.
Proof.
  intros Hf Ha Hr fuel depth rest fin Hd Hlen.
  rewrite element_app in *. norm_app. cbn [List.length] in Hlen.
  destruct fuel as [| fuel]; [lia |].
  cbn [xml.structLoop xml.NextToken xml.pending xml.final].
  unfold xml.unmarshalPath, xml.unmarshalPathWith. cbn [xml.Local]. rewrite Hf, Ha.
  rewrite Hr by (lia || (len_norm; lia)). reflexivity.
Qed.

Lemma loopsFail_after_field (name : string) (um : xml.unmarshaler St)
    (content after : list xml.Token) (sv sv1 : St) (e : xml.DecodeError) :
  xml.findPath fs [] name = xml.PerfectMatch um ->
  reads (B + 1) um (xml.mkName (spaceOf dr name) name) content sv sv1 ->
  loopsFail B fs after sv1 e ->
  loopsFail B fs (elementIn dr name content ++ after) sv e.
Proof.
  intros Hf Hr Hl fuel depth rest fin Hd Hlen.
  rewrite element_app in *. norm_app. cbn [List.length] in Hlen.
  destruct fuel as [| fuel]; [lia |].
  cbn [xml.structLoop xml.NextToken xml.pending xml.final].
  unfold xml.unmarshalPath, xml.unmarshalPathWith. cbn [xml.Local]. rewrite Hf.
  rewrite Hr by (lia || (len_norm; lia)).
  apply Hl; [exact Hd |]. len_norm. lia.
Qed.

Lemma loopsFail_optional (empty : bool) (toks after : list xml.Token) (sv sv1 : St)
    (e : xml.DecodeError) :
  loopsFail B fs after sv1 e ->
  (loopsFail B fs after sv1 e -> loopsFail B fs (toks ++ after) sv e) ->
  (omitEmpty dr = true -> empty = true -> sv1 = sv) ->
  loopsFail B fs (optional dr empty toks ++ after) sv e.
Proof.
  intros Hafter Hpresent Hsame. unfold optional.
  destruct (omitEmpty dr); [destruct empty |]; cbn [andb app].
  - rewrite <- (Hsame eq_refl eq_refl). exact Hafter.
  - apply Hpresent. exact Hafter.
  - apply Hpresent. exact Hafter.
Qed.

Lemma pathLoopsFail_field (parents : list string) (name : string)
    (um : xml.unmarshaler St) (content after : list xml.Token) (sv : St)
    (e : xml.DecodeError) :
  xml.findPath fs parents name = xml.PerfectMatch um ->
  fails (B + 1) um (xml.mkName (spaceOf dr name) name) content sv e ->
  pathLoopsFail B fs parents (elementIn dr name content ++ after) sv e.
Proof.
  intros Hf Hr fuel depth rest fin Hd Hlen.
  rewrite element_app in *. norm_app. cbn [List.length] in Hlen.
  destruct fuel as [| fuel]; [lia |].
  cbn [xml.pathLoop xml.NextToken xml.pending xml.final].
  unfold xml.unmarshalPathWith. cbn [xml.Local]. rewrite Hf.
  rewrite Hr by (lia || (len_norm; lia)). reflexivity.
Qed.

Lemma pathLoopsFail_after_field (parents : list string) (name : string)
    (um : xml.unmarshaler St) (content after : list xml.Token) (sv sv1 : St)
    (e : xml.DecodeError) :
  xml.findPath fs parents name = xml.PerfectMatch um ->
  reads (B + 1) um (xml.mkName (spaceOf dr name) name) content sv sv1 ->
  pathLoopsFail B fs parents after sv1 e ->
  pathLoopsFail B fs parents (elementIn dr name content ++ after) sv e.
Proof.
  intros Hf Hr Hl fuel depth rest fin Hd Hlen.
  rewrite element_app in *. norm_app. cbn [List.length] in Hlen.
  destruct fuel as [| fuel]; [lia |].
  cbn [xml.pathLoop xml.NextToken xml.pending xml.final].
  unfold xml.unmarshalPathWith. cbn [xml.Local]. rewrite Hf.
  rewrite Hr by (lia || (len_norm; lia)).
  apply Hl; [exact Hd |]. len_norm. lia.
Qed.

End LoopsFail.

Lemma loopsFail_filler_upto {St : Type} (B : Z) (fs : list (xml.fieldInfo St))
    (content : list xml.Token) (sv : St) (e : xml.DecodeError) :
  (forall local, unknownName local = true -> xml.findPath fs [] local = xml.NoMatch) ->
  xml.saveAny fs = None ->
  loopsFail B fs content sv e ->
  forall (k : nat) (g : list xml.Token),
    (List.length g <= k)%nat ->
    ignorable g 0 = true ->
    loopsFail B fs (g ++ content) sv e.
Proof.
  intros Hf Ha Hl. induction k as [| k IH]; intros g Hk Hg.
  - destruct g; [exact Hl | cbn in Hk; lia].
  - destruct g as [| t g]; [exact Hl |].
    cbn [List.length] in Hk.
    intros fuel depth rest fin Hd Hlen.
    norm_app. cbn [List.length] in Hlen. destruct fuel as [| fuel]; [lia |].
    destruct t; cbn [ignorable andb] in Hg;
      cbn [xml.structLoop xml.NextToken xml.pending xml.final].
    + apply andb_true_iff in Hg. destruct Hg as [Hn Hg].
      unfold xml.unmarshalPath, xml.unmarshalPathWith. rewrite (Hf _ Hn), Ha.
      destruct (ignorable_Skip_loop g 0 (content ++ rest) fin Hg) as [g' [H1 [H2 H3]]].
      unfold xml.Skip. cbn [xml.pending xml.final]. rewrite H1.
      rewrite app_assoc.
      apply (IH g' ltac:(lia) H2); [exact Hd |].
      rewrite <- app_assoc. len_norm. lia.
    + discriminate Hg.
    + rewrite app_assoc. apply (IH g ltac:(lia) Hg); [exact Hd |].
      rewrite <- app_assoc. exact (proj2 (Nat.succ_lt_mono _ _) Hlen).
    + rewrite app_assoc. apply (IH g ltac:(lia) Hg); [exact Hd |].
      rewrite <- app_assoc. exact (proj2 (Nat.succ_lt_mono _ _) Hlen).
    + rewrite app_assoc. apply (IH g ltac:(lia) Hg); [exact Hd |].
      rewrite <- app_assoc. exact (proj2 (Nat.succ_lt_mono _ _) Hlen).
    + rewrite app_assoc. apply (IH g ltac:(lia) Hg); [exact Hd |].
      rewrite <- app_assoc. exact (proj2 (Nat.succ_lt_mono _ _) Hlen).
Qed.

Lemma loopsFail_filler {St : Type} (B : Z) (fs : list (xml.fieldInfo St))
    (g content : list xml.Token) (sv : St) (e : xml.DecodeError) :
  (forall local, unknownName local = true -> xml.findPath fs [] local = xml.NoMatch) ->
  xml.saveAny fs = None ->
  ignorable g 0 = true ->
  loopsFail B fs content sv e ->
  loopsFail B fs (g ++ content) sv e.
Proof.
  intros Hf Ha Hg Hl.
  apply (loopsFail_filler_upto B fs content sv e Hf Ha Hl (List.length g) g (le_n _) Hg).
Qed.

Lemma pathLoopsFail_filler_upto {St : Type} (B : Z) (fs : list (xml.fieldInfo St))
    (parents : list string) (content : list xml.Token) (sv : St) (e : xml.DecodeError) :
  (forall local, unknownName local = true ->
                 xml.findPath fs parents local = xml.NoMatch) ->
  pathLoopsFail B fs parents content sv e ->
  forall (k : nat) (g : list xml.Token),
    (List.length g <= k)%nat ->
    ignorable g 0 = true ->
    pathLoopsFail B fs parents (g ++ content) sv e.
Proof.
  intros Hf Hl. induction k as [| k IH]; intros g Hk Hg.
  - destruct g; [exact Hl | cbn in Hk; lia].
  - destruct g as [| t g]; [exact Hl |].
    cbn [List.length] in Hk.
    intros fuel depth rest fin Hd Hlen.
    norm_app. cbn [List.length] in Hlen. destruct fuel as [| fuel]; [lia |].
    destruct t; cbn [ignorable andb] in Hg;
      cbn [xml.pathLoop xml.NextToken xml.pending xml.final].
    + apply andb_true_iff in Hg. destruct Hg as [Hn Hg].
      unfold xml.unmarshalPathWith. rewrite (Hf _ Hn).
      destruct (ignorable_Skip_loop g 0 (content ++ rest) fin Hg) as [g' [H1 [H2 H3]]].
      unfold xml.Skip. cbn [xml.pending xml.final]. rewrite H1.
      rewrite app_assoc.
      apply (IH g' ltac:(lia) H2); [exact Hd |].
      rewrite <- app_assoc. len_norm. lia.
    + discriminate Hg.
    + rewrite app_assoc. apply (IH g ltac:(lia) Hg); [exact Hd |].
      rewrite <- app_assoc. exact (proj2 (Nat.succ_lt_mono _ _) Hlen).
    + rewrite app_assoc. apply (IH g ltac:(lia) Hg); [exact Hd |].
      rewrite <- app_assoc. exact (proj2 (Nat.succ_lt_mono _ _) Hlen).
    + rewrite app_assoc. apply (IH g ltac:(lia) Hg); [exact Hd |].
      rewrite <- app_assoc. exact (proj2 (Nat.succ_lt_mono _ _) Hlen).
    + rewrite app_assoc. apply (IH g ltac:(lia) Hg); [exact Hd |].
      rewrite <- app_assoc. exact (proj2 (Nat.succ_lt_mono _ _) Hlen).
Qed.

Lemma pathLoopsFail_filler {St : Type} (B : Z) (fs : list (xml.fieldInfo St))
    (parents : list string) (g content : list xml.Token) (sv : St)
    (e : xml.DecodeError) :
  (forall local, unknownName local = true ->
                 xml.findPath fs parents local = xml.NoMatch) ->
  ignorable g 0 = true ->
  pathLoopsFail B fs parents content sv e ->
  pathLoopsFail B fs parents (g ++ content) sv e.
Proof.
  intros Hf Hg Hl.
  apply (pathLoopsFail_filler_upto B fs parents content sv e Hf Hl (List.length g) g
                                   (le_n _) Hg).
Qed.

Lemma isNil_app {A : Type} (l1 l2 : list A) (x : A) : isNil (l1 ++ x :: l2) = false.
Proof. destruct l1; reflexivity. Qed.

Lemma copyInt_error_not_empty (text : string) (e : xml.DecodeError) :
  copyInt text = inl e -> String.eqb text "" = false.
Proof.
  intros H. destruct text; [discriminate H | reflexivity].
Qed.

Section BadValue.

Variable dr : Dress.
Hypothesis filler_ignorable : ignorable (filler dr) 0 = true.

Variable d : DomainInfo.
Variable text : string.
Variable e : xml.DecodeError.
Hypothesis text_rejected : copyInt text = inl e.

Lemma item_fails (B : Z) (n : xml.Name) :
  B + 3 < xml.maxUnmarshalDepth ->
  fails B (xml.unmarshalStruct DomainInfo_typeInfo) n (itemContent dr d text)
        zeroDomainInfo e.
Proof.
  intros HB. destruct d as [st em dn ds dc de cd ts ar ns ks].
  apply fails_struct; [lia | intros; reflexivity | | exact I].
  cbn [xml.xmlname DomainInfo_typeInfo]. unfold itemContent, zeroDomainInfo.
  flat_domain.
  do 8 (rewrite children_cons;
        apply loopsFail_filler;
        [intros l Hl; apply (unknown_DomainInfo l Hl) | reflexivity
         | exact filler_ignorable |];
        unfold fieldIn at 1;
        eapply loopsFail_optional;
        [| intros Hrest; unfold textIn at 1;
           eapply loopsFail_after_field;
           [reflexivity | apply reads_intoField, reads_text; lia | exact Hrest]
         | intros _ E; apply String.eqb_eq in E; subst; reflexivity];
        flat_domain).
  rewrite children_cons.
  apply loopsFail_filler;
    [intros l Hl; apply (unknown_DomainInfo l Hl) | reflexivity | exact filler_ignorable |].
  unfold fieldIn, optional.
  rewrite (copyInt_error_not_empty text e text_rejected), andb_false_r.
  unfold textIn.
  eapply loopsFail_text; [reflexivity |].
  apply fails_intoField, fails_simple; [lia | exact text_rejected].
Qed.

Lemma domainList_fails (B : Z) (good : list (DomainInfo * string))
    (more : list (list xml.Token)) :
  B + 5 < xml.maxUnmarshalDepth ->
  Forall (fun p => copyInt (snd p) = inr (AutoRenew (fst p))) good ->
  forall (c : SOAPResponseCommon) (l : list DomainInfo),
    pathLoopsFail B (xml.fields DomainList_typeInfo) ["domainList"]
      (children dr (map (fun p => itemTokensWith dr (fst p) (snd p)) good
                    ++ itemTokensWith dr d text :: more))
      (mkDomainList c l) e.
Proof.
  intros HB. induction 1 as [| [d0 ar0] good Hd Hgood IH]; intros c l.
  - cbn [map app]. rewrite children_cons.
    apply pathLoopsFail_filler;
      [intros x Hx; apply (unknown_DomainList x Hx) | exact filler_ignorable |].
    unfold itemTokensWith.
    eapply pathLoopsFail_field; [reflexivity |].
    apply fails_intoField, fails_slice; [lia |]. apply item_fails. lia.
  - cbn [map app fst snd]. rewrite children_cons.
    apply pathLoopsFail_filler;
      [intros x Hx; apply (unknown_DomainList x Hx) | exact filler_ignorable |].
    unfold itemTokensWith at 1.
    eapply pathLoopsFail_after_field; [reflexivity | |].
    + apply reads_intoField, reads_slice; [lia |].
      apply (reads_item dr filler_ignorable); [lia | exact Hd].
    + cbv beta. cbn [Common Domains]. apply IH.
Qed.

Lemma UnmarshalSOAPResponse_item_fails (pre trailing : list xml.Token)
    (fin : xml.DecodeError) (status errorMessage : string)
    (good : list (DomainInfo * string)) (more : list (list xml.Token)) :
  noStart pre = true ->
  Forall (fun p => copyInt (snd p) = inr (AutoRenew (fst p))) good ->
  UnmarshalSOAPResponse
    (xml.mkDecoder
       (pre ++ returnTokens dr status errorMessage
                            (map (fun p => itemTokensWith dr (fst p) (snd p)) good
                             ++ itemTokensWith dr d text :: more)
            ++ trailing) fin) zeroResponse
  = inl (UnmarshalErr e).
Proof.
  intros Hpre Hgood. unfold UnmarshalSOAPResponse, returnTokens.
  rewrite element_app.
  rewrite (DecodeEnvelope_content pre _ fin (xml.mkName (spaceOf dr "Envelope") "Envelope")
                                   _ zeroResponse Hpre eq_refl).
  match goal with
  | |- context [xml.structLoop _ 0 _ ?sv0 _] =>
    assert (Hb : Body sv0 = mkBody zeroResponse) by apply assignAttrs_Body;
    generalize dependent sv0
  end.
  intros sv0 Hb.
  match goal with
  | |- context [xml.structLoop ?fs 0 _ sv0 (xml.mkDecoder (?content ++ ?rest) fin)] =>
    assert (L : loopsFail 0 fs content sv0 e)
  end.
  { rewrite children_cons.
    apply loopsFail_filler;
      [intros x Hx; apply (unknown_Envelope x Hx) | reflexivity | exact filler_ignorable |].
    eapply loopsFail_field; [reflexivity |].
    apply fails_intoField. rewrite Hb.
    (* the body *)
    apply fails_struct; [vm_compute; reflexivity | intros; reflexivity | | exact I].
    cbn [xml.xmlname apiSOAPBody_typeInfo].
    rewrite <- (app_nil_r (elementIn dr "listDomainsResponse" _)).
    eapply loopsFail_any; [reflexivity | reflexivity |].
    apply fails_intoField. cbn [Content].
    (* the response *)
    apply fails_struct; [vm_compute; reflexivity | intros; reflexivity | | reflexivity].
    cbn [xml.xmlname ListDomainsResponse_typeInfo]. unfold zeroResponse.
    rewrite children_cons.
    apply loopsFail_filler;
      [intros x Hx; apply (unknown_ListDomainsResponse x Hx) | reflexivity
       | exact filler_ignorable |].
    eapply loopsFail_field; [reflexivity |].
    apply fails_intoField. cbn [Return].
    (* the element return *)
    apply fails_struct; [vm_compute; reflexivity | intros; reflexivity | | exact I].
    cbn [xml.xmlname DomainList_typeInfo]. unfold returnContent, zeroDomainList.
    do 2 (rewrite children_cons;
          apply loopsFail_filler;
          [intros x Hx; apply (unknown_DomainList x Hx) | reflexivity
           | exact filler_ignorable |];
          unfold fieldIn at 1;
          eapply loopsFail_optional;
          [| intros Hrest; unfold textIn at 1;
             eapply loopsFail_after_field;
             [reflexivity | apply reads_intoField, reads_text; vm_compute; reflexivity
              | exact Hrest]
           | intros _ E; apply String.eqb_eq in E; subst; reflexivity];
          cbv beta; cbn [Common Domains CommonStatus CommonErrorMessage]).
    rewrite children_cons.
    apply loopsFail_filler;
      [intros x Hx; apply (unknown_DomainList x Hx) | reflexivity | exact filler_ignorable |].
    unfold optional. rewrite isNil_app, andb_false_r.
    eapply loopsFail_prefix; [reflexivity |].
    apply domainList_fails; [vm_compute; reflexivity | exact Hgood]. }
  rewrite (L _ 0 _ fin (Z.le_refl 0) (Nat.lt_succ_diag_r _)).
  reflexivity.
Qed.

End BadValue.

(** X16. One value that does not decode fails the whole response: when
    the text of [autoRenew] of one domain of the document is not a decimal
    number of 64 bits (after white space around it is trimmed),
    [UnmarshalSOAPResponse] returns the error of the conversion, whatever
    the other domains are; the domains read before are lost with it. *)
Theorem UnmarshalSOAPResponse_bad_autoRenew (dr : Dress) (status errorMessage : string)
    (good : list DomainInfo) (d : DomainInfo) (text : string)
    (more : list (list xml.Token)) (e : xml.DecodeError)
    (pre trailing : list xml.Token) (fin : xml.DecodeError) :
  ignorable (filler dr) 0 = true ->
  noStart pre = true ->
  Forall (fun d => inInt64 (AutoRenew d) = true) good ->
  copyInt text = inl e ->
  UnmarshalSOAPResponse
    (xml.mkDecoder
       (pre ++ returnTokens dr status errorMessage
                            (map (itemTokens dr) good ++ itemTokensWith dr d text :: more)
            ++ trailing) fin) zeroResponse
  = inl (UnmarshalErr e).
Proof.
  intros Hf Hpre Hgood Hc.
  destruct (formatInt_items _ Hgood) as [Hitems _].
  pose proof (UnmarshalSOAPResponse_item_fails dr Hf d text e Hc pre trailing fin status
                errorMessage _ more Hpre Hitems) as H.
  rewrite map_map in H. exact H.
Qed.

Lemma UnmarshalSOAPResponse_bad_autoRenew_witness :
  UnmarshalSOAPResponse
    (xml.mkDecoder
       (returnTokens dressed "OK" ""
                     [itemTokens dressed exampleDomain;
                      itemTokensWith dressed exampleDomain "yes";
                      itemTokens dressed exampleDomain]) xml.EOF) zeroResponse
  = inl (UnmarshalErr (xml.NumError "yes")).
Proof.
  pose proof (UnmarshalSOAPResponse_bad_autoRenew dressed "OK" "" [exampleDomain]
                exampleDomain "yes" [itemTokens dressed exampleDomain]
                (xml.NumError "yes") [] [] xml.EOF eq_refl eq_refl
                ltac:(repeat constructor) eq_refl) as H.
  cbn [map app] in H. rewrite app_nil_r in H. exact H.
Defined.

(** ** The credentials in the request *)

Lemma countByte_app (c : ascii) (a b : string) :
  countByte c (a ++ b) = (countByte c a + countByte c b)%nat.
Proof.
  induction a as [| x a IH]; cbn [String.append countByte]; [reflexivity |].
  rewrite IH. lia.
Qed.

Lemma byteZ_inj (a b : ascii) : byteZ a = byteZ b -> a = b.
Proof.
  unfold byteZ. intros H. apply N2Z.inj in H.
  rewrite <- (ascii_N_embedding a), <- (ascii_N_embedding b), H. reflexivity.
Qed.

Lemma byteZ_range (c : ascii) : 0 <= byteZ c < 256.
Proof.
  unfold byteZ. pose proof (N_ascii_bounded c). lia.
Qed.

(** No byte of a string is [c]. *)
Lemma countByte_high (c : ascii) (s : string) :
  byteZ c < 0x80 ->
  forallb (fun x => 0x80 <=? byteZ x) (list_ascii_of_string s) = true ->
  countByte c s = 0%nat.
Proof.
  intros Hc. induction s as [| x s IH]; intros H; [reflexivity |].
  cbn [list_ascii_of_string forallb] in H. apply andb_true_iff in H.
  destruct H as [Hx Hs]. cbn [countByte]. rewrite (IH Hs).
  destruct (Ascii.eqb_spec x c) as [E | E]; [| reflexivity].
  subst x. apply Z.leb_le in Hx. lia.
Qed.

(** What [DecodeRuneInString] finds at the head of a string: a byte of
    ASCII; an invalid byte; or a sequence of two to four bytes, none of
    ASCII. *)
Lemma DecodeRuneInString_cases (c0 : ascii) (t0 : string) :
  let '(r, w) := utf8.DecodeRuneInString (String c0 t0) in
  (w = 1%nat
   /\ (r = byteZ c0 /\ byteZ c0 < 0x80 \/ r = utf8.RuneError /\ 0x80 <= byteZ c0))
  \/ ((2 <= w)%nat
      /\ forallb (fun x => 0x80 <=? byteZ x)
                 (list_ascii_of_string (time.take w (String c0 t0))) = true).
Proof.
  unfold utf8.DecodeRuneInString.
  destruct (Z.ltb_spec (byteZ c0) 0x80) as [H0 | H0]; [left; auto |].
  destruct ((byteZ c0 <? 0xC2) || (0xF4 <? byteZ c0)); [left; auto |].
  set (sz := if byteZ c0 <? 224 then 2%nat else if byteZ c0 <? 240 then 3%nat else 4%nat).
  set (lo := if byteZ c0 =? 224 then 160 else if byteZ c0 =? 240 then 144 else 128).
  set (hi := if byteZ c0 =? 237 then 159 else if byteZ c0 =? 244 then 143 else 191).
  assert (Hlo : 0x80 <= lo).
  { unfold lo. destruct (byteZ c0 =? 224); [lia |]. destruct (byteZ c0 =? 240); lia. }
  destruct (String.length (String c0 t0) <? sz)%nat; [left; auto |].
  destruct t0 as [| c1 t1]; [left; auto |].
  destruct (Z.ltb_spec (byteZ c1) lo) as [H1 | H1]; [left; auto |].
  destruct (hi <? byteZ c1); [left; auto |]. cbn [orb].
  assert (B0 : (0x80 <=? byteZ c0) = true) by (apply Z.leb_le; lia).
  assert (B1 : (0x80 <=? byteZ c1) = true) by (apply Z.leb_le; lia).
  destruct (sz <=? 2)%nat.
  { right. split; [lia |]. cbn [time.take list_ascii_of_string forallb].
    rewrite B0, B1. reflexivity. }
  destruct t1 as [| c2 t2]; [left; auto |].
  destruct (Z.ltb_spec (byteZ c2) 0x80) as [H2 | H2]; [left; auto |].
  destruct (0xBF <? byteZ c2); [left; auto |]. cbn [orb].
  assert (B2 : (0x80 <=? byteZ c2) = true) by (apply Z.leb_le; lia).
  destruct (sz <=? 3)%nat.
  { right. split; [lia |]. cbn [time.take list_ascii_of_string forallb].
    rewrite B0, B1, B2. reflexivity. }
  destruct t2 as [| c3 t3]; [left; auto |].
  destruct (Z.ltb_spec (byteZ c3) 0x80) as [H3 | H3]; [left; auto |].
  destruct (0xBF <? byteZ c3); [left; auto |]. cbn [orb].
  assert (B3 : (0x80 <=? byteZ c3) = true) by (apply Z.leb_le; lia).
  right. split; [lia |]. cbn [time.take list_ascii_of_string forallb].
  rewrite B0, B1, B2, B3. reflexivity.
Qed.

Lemma escapeRune_no_markup (c : ascii) (c0 : ascii) (t0 : string) (escapeNewline : bool) :
  c = "<"%char \/ c = ">"%char ->
  let '(r, w) := utf8.DecodeRuneInString (String c0 t0) in
  countByte c (xml.escapeRune r w (time.take w (String c0 t0)) escapeNewline) = 0%nat.
Proof.
  intros Hc.
  pose proof (DecodeRuneInString_cases c0 t0) as H.
  destruct (utf8.DecodeRuneInString (String c0 t0)) as [r w].
  assert (Hraw : countByte c (time.take w (String c0 t0)) <> 0%nat ->
                 r = byteZ "<" \/ r = byteZ ">").
  { intros Hn. destruct H as [[Hw [[Hr _] | Hr]] | [Hw Hhigh]].
    - subst w r. cbn [time.take countByte] in Hn.
      destruct (Ascii.eqb_spec c0 c) as [E | E]; [| contradiction Hn; reflexivity].
      subst c0. destruct Hc; subst c; auto.
    - exfalso. apply Hn. subst w. cbn [time.take countByte].
      destruct (Ascii.eqb_spec c0 c) as [E | E]; [| reflexivity].
      exfalso. subst c0. destruct Hr as [_ Hr].
      destruct Hc; subst c; vm_compute in Hr; apply Hr; reflexivity.
    - exfalso. apply Hn. apply countByte_high; [| exact Hhigh].
      destruct Hc; subst c; vm_compute; reflexivity. }
  unfold xml.escapeRune.
  repeat match goal with
         | |- context [if ?b then _ else _] =>
           match b with
           | escapeNewline => fail 1
           | _ => destruct b eqn:?
           end
         end;
    try (destruct Hc; subst c; vm_compute; reflexivity);
    try (destruct escapeNewline; destruct Hc; subst c; vm_compute; reflexivity).
  all: destruct (Nat.eq_dec (countByte c (time.take w (String c0 t0))) 0) as [E | E];
    [try exact E | exfalso; destruct (Hraw E) as [Hr | Hr]; subst r;
                   repeat match goal with
                          | Hb : (_ =? _) = false |- _ =>
                            apply Z.eqb_neq in Hb; try (contradiction Hb; reflexivity)
                          end].
  all: destruct escapeNewline; try exact E; destruct Hc; subst c; vm_compute; reflexivity.
Qed.

Lemma escapeText_loop_no_markup (c : ascii) (escapeNewline : bool) (fuel : nat) :
  c = "<"%char \/ c = ">"%char ->
  forall s, countByte c (xml.escapeText_loop fuel s escapeNewline) = 0%nat.
Proof.
  intros Hc. induction fuel as [| fuel IH]; intros s; [reflexivity |].
  destruct s as [| c0 t0]; [reflexivity |].
  cbn [xml.escapeText_loop].
  pose proof (escapeRune_no_markup c c0 t0 escapeNewline Hc) as H.
  destruct (utf8.DecodeRuneInString (String c0 t0)) as [r w].
  rewrite countByte_app, H, IH. reflexivity.
Qed.

Lemma EscapeString_no_markup (c : ascii) (s : string) :
  c = "<"%char \/ c = ">"%char -> countByte c (xml.EscapeString s) = 0%nat.
Proof.
  intros Hc. apply escapeText_loop_no_markup. exact Hc.
Qed.

Lemma plainChar_escapeRune (c0 : ascii) (t0 : string) (escapeNewline : bool) :
  plainChar c0 = true ->
  utf8.DecodeRuneInString (String c0 t0) = (byteZ c0, 1%nat)
  /\ xml.escapeRune (byteZ c0) 1 (String c0 "") escapeNewline = String c0 "".
Proof.
  destruct c0 as [[] [] [] [] [] [] [] []]; intros H; try discriminate H;
    split; reflexivity.
Qed.

Lemma escapeText_loop_plain (escapeNewline : bool) (s : string) :
  plainText s = true ->
  forall fuel, (String.length s <= fuel)%nat ->
               xml.escapeText_loop fuel s escapeNewline = s.
Proof.
  unfold plainText. induction s as [| c0 t0 IH]; intros H fuel Hlen.
  - destruct fuel; reflexivity.
  - cbn [list_ascii_of_string forallb] in H. apply andb_true_iff in H.
    destruct H as [Hc Ht]. cbn [String.length] in Hlen.
    destruct fuel as [| fuel]; [lia |].
    cbn [xml.escapeText_loop].
    destruct (plainChar_escapeRune c0 t0 escapeNewline Hc) as [Hd He].
    rewrite Hd. cbn [time.take utf8.skipn]. rewrite He.
    cbn [String.append]. rewrite (IH Ht fuel ltac:(lia)). reflexivity.
Qed.

Lemma createSOAPRequest_requestText (r : ListDomainsRequest) :
  createSOAPRequest r
  = inr (requestText (xml.EscapeString (ApiKey r)) (xml.EscapeString (ResellerID r))).
Proof.
  rewrite createSOAPRequest_text. reflexivity.
Qed.

(** X17. The credentials cannot change the markup of the request: the
    document holds as many [<] and as many [>] (21 each) whatever the
    credentials are, so a credential that holds markup adds no element to
    it; and credentials of printable ASCII characters other than the five
    XML escapes are sent as they are. *)
Theorem createSOAPRequest_escapes (r : ListDomainsRequest) :
  exists doc,
    createSOAPRequest r = inr doc
    /\ countByte "<" doc = 21%nat
    /\ countByte ">" doc = 21%nat
    /\ (plainText (ApiKey r) = true -> plainText (ResellerID r) = true ->
        doc = requestText (ApiKey r) (ResellerID r)).
Proof.
  eexists. split; [apply createSOAPRequest_requestText |].
  split; [| split].
  - unfold requestText. cbv zeta.
    rewrite !countByte_app, !EscapeString_no_markup by auto. reflexivity.
  - unfold requestText. cbv zeta.
    rewrite !countByte_app, !EscapeString_no_markup by auto. reflexivity.
  - intros Hk Hr. unfold xml.EscapeString.
    rewrite (escapeText_loop_plain true _ Hk _ (le_n _)).
    rewrite (escapeText_loop_plain true _ Hr _ (le_n _)).
    reflexivity.
Qed.

Lemma createSOAPRequest_escapes_witness :
  createSOAPRequest (mkRequest "abc-DEF_123" "42") = inr (requestText "abc-DEF_123" "42").
Proof.
  destruct (createSOAPRequest_escapes (mkRequest "abc-DEF_123" "42"))
    as [doc [Hd [_ [_ Hp]]]].
  rewrite Hd. f_equal. apply Hp; reflexivity.
Defined.

(** ** The start of the process *)

(** X18. With the flag [-version] the process prints the version and
    exits with status 0 before anything else: it does not set up the logger,
    reads no variable of the environment, asks for no credentials and does
    not listen. *)
Theorem main_prints_version (host : proc.Host) (version : string) (fl : Flags) :
  printVersion fl = true ->
  proc.run host (main version) fl []
  = (proc.Exited 0, fl, [proc.Printed ("version: " ++ version)]).
Proof.
  intros H. unfold main. cbn [proc.run]. rewrite H. reflexivity.
Qed.

Lemma main_prints_version_witness :
  proc.run bareHost (main "development")
           (mkFlags (initialGlobals "" "" 3600) ":8080" true false false) []
  = (proc.Exited 0, mkFlags (initialGlobals "" "" 3600) ":8080" true false false,
     [proc.Printed "version: development"]).
Proof.
  apply (main_prints_version bareHost "development"
           (mkFlags (initialGlobals "" "" 3600) ":8080" true false false)).
  reflexivity.
Defined.

(** The run of [main] without [-version], case by case. *)
Lemma main_run (host : proc.Host) (version : string) (fl : Flags) :
  let rid :=
    resolved (resellerID (vars fl)) (proc.getenv host "SYNERGY_WHOLESALE_RESELLER_ID") in
  let key := resolved (apiKey (vars fl)) (proc.getenv host "SYNERGY_WHOLESALE_API_KEY") in
  let level := if debugLogging fl then slog.LevelDebug else slog.LevelInfo in
  let readRid :=
    if String.eqb (resellerID (vars fl)) ""
    then [proc.EnvRead "SYNERGY_WHOLESALE_RESELLER_ID"] else [] in
  let readKey :=
    if String.eqb (apiKey (vars fl)) ""
    then [proc.EnvRead "SYNERGY_WHOLESALE_API_KEY"] else [] in
  printVersion fl = false ->
  proc.run host (main version) fl []
  = if String.eqb rid "" then
      (proc.Exited 1,
       set_vars (set_resellerID rid) fl,
       ([proc.LoggerSet level (jsonLogging fl)] ++ readRid
        ++ [proc.Logged slog.LevelError "Reseller ID not set!"])%list)
    else if String.eqb key "" then
      (proc.Exited 1,
       set_vars (fun g => set_apiKey key (set_resellerID rid g)) fl,
       ([proc.LoggerSet level (jsonLogging fl)] ++ readRid ++ readKey
        ++ [proc.Logged slog.LevelError "API Key not set!"])%list)
    else if negb (utf8.ValidString version && utf8.ValidString (proc.goVersion host)) then
      (proc.Panicked "label values rejected",
       set_vars (fun g => set_apiKey key (set_resellerID rid g)) fl,
       ([proc.LoggerSet level (jsonLogging fl)] ++ readRid ++ readKey)%list)
    else
      (match proc.listen host (listenAddress fl) with
       | None => proc.Serving
       | Some _ => proc.Exited 0
       end,
       set_vars (fun g => set_apiKey key (set_resellerID rid g)) fl,
       ([proc.LoggerSet level (jsonLogging fl)] ++ readRid ++ readKey
        ++ [proc.GaugeSet "build_info" [version; proc.goVersion host] 1;
            proc.Registered ["build_info"; "collector"];
            proc.Handled "/metrics"; proc.Handled "/liveness"; proc.Handled "/readiness";
            proc.Logged slog.LevelInfo "Starting web server";
            proc.Listening (listenAddress fl)]
        ++ match proc.listen host (listenAddress fl) with
           | None => []
           | Some _ => [proc.Logged slog.LevelError "Error starting web server"]
           end)%list).
Proof.
  cbv zeta. unfold resolved.
  destruct fl as [[resp exp r0 k0 ttl] addr pv dbg js].
  cbn [printVersion]. intros ->.
  unfold main, when.
  destruct (String.eqb r0 "") eqn:Er;
    [destruct (String.eqb (proc.getenv host "SYNERGY_WHOLESALE_RESELLER_ID") "") eqn:Ee |];
    (destruct (String.eqb k0 "") eqn:Ek;
     [destruct (String.eqb (proc.getenv host "SYNERGY_WHOLESALE_API_KEY") "") eqn:Ea |]);
    destruct (proc.listen host addr) eqn:El;
    destruct (utf8.ValidString version) eqn:Hv1;
    destruct (utf8.ValidString (proc.goVersion host)) eqn:Hv2;
    repeat first
      [ progress unfold prometheus.validateLabelValues
      | progress cbn [proc.run vars resellerID apiKey listenAddress printVersion
                      debugLogging jsonLogging set_vars set_resellerID set_apiKey
                      listDomainsResponse cacheExpires cacheTTLSeconds app
                      List.length Nat.eqb forallb andb negb]
      | match goal with
        | H : String.eqb _ _ = _ |- _ => rewrite H
        | H : utf8.ValidString _ = _ |- _ => rewrite H
        | H : proc.listen _ _ = _ |- _ => rewrite H
        end ];
    reflexivity.
Qed.

(** X19. Without credentials the process does not start: the reseller ID
    is the flag or, when the flag is empty, the variable
    [SYNERGY_WHOLESALE_RESELLER_ID] of the environment (read only then), and
    likewise the API key with [SYNERGY_WHOLESALE_API_KEY].  When the
    reseller ID is empty the process logs the error and exits with status 1
    without looking at the API key; when the reseller ID is set and the API
    key is empty, it logs the error about the key and exits with status 1.
    In both cases nothing is registered and nothing listens. *)
Theorem main_requires_credentials (host : proc.Host) (version : string) (fl : Flags) :
  let rid :=
    resolved (resellerID (vars fl)) (proc.getenv host "SYNERGY_WHOLESALE_RESELLER_ID") in
  let key := resolved (apiKey (vars fl)) (proc.getenv host "SYNERGY_WHOLESALE_API_KEY") in
  let level := if debugLogging fl then slog.LevelDebug else slog.LevelInfo in
  let readRid :=
    if String.eqb (resellerID (vars fl)) ""
    then [proc.EnvRead "SYNERGY_WHOLESALE_RESELLER_ID"] else [] in
  let readKey :=
    if String.eqb (apiKey (vars fl)) ""
    then [proc.EnvRead "SYNERGY_WHOLESALE_API_KEY"] else [] in
  printVersion fl = false ->
  (rid = "" ->
   fst (fst (proc.run host (main version) fl [])) = proc.Exited 1
   /\ snd (proc.run host (main version) fl [])
      = ([proc.LoggerSet level (jsonLogging fl)] ++ readRid
         ++ [proc.Logged slog.LevelError "Reseller ID not set!"])%list)
  /\ (rid <> "" -> key = "" ->
      fst (fst (proc.run host (main version) fl [])) = proc.Exited 1
      /\ snd (proc.run host (main version) fl [])
         = ([proc.LoggerSet level (jsonLogging fl)] ++ readRid ++ readKey
            ++ [proc.Logged slog.LevelError "API Key not set!"])%list).
Proof.
  intros rid key level readRid readKey Hv.
  pose proof (main_run host version fl Hv) as H. cbv zeta in H.
  fold rid key level readRid readKey in H.
  split.
  - intros Hr. rewrite Hr in H. rewrite H. split; reflexivity.
  - intros Hr Hk. apply String.eqb_neq in Hr. rewrite Hr, Hk in H.
    rewrite H. split; reflexivity.
Qed.

Lemma main_requires_credentials_witness :
  fst (fst (proc.run bareHost (main "development") keyFlags [])) = proc.Exited 1
  /\ snd (proc.run bareHost (main "development") keyFlags [])
     = [proc.LoggerSet slog.LevelDebug false;
        proc.EnvRead "SYNERGY_WHOLESALE_RESELLER_ID";
        proc.Logged slog.LevelError "Reseller ID not set!"].
Proof.
  exact (proj1 (main_requires_credentials bareHost "development" keyFlags eq_refl) eq_refl).
Defined.

(** X20. With both credentials the process serves: the variables the
    scrapes read hold the reseller ID and the API key as resolved (the
    flag before the environment); the cache variables and the TTL are as
    [flag.Parse] left them; the build information is set, the collectors
    are registered, the three paths [/metrics], [/liveness] and
    [/readiness] are handled, and the process listens on the address of
    the flag.  It serves on as long as the listener does; when
    [ListenAndServe] returns (the address cannot be bound), the error is
    logged and the process ends with status 0.  (The version strings are
    label values of [build_info] and have to be valid UTF-8, or
    [WithLabelValues] panics.) *)
Theorem main_serves (host : proc.Host) (version : string) (fl : Flags) :
  let rid :=
    resolved (resellerID (vars fl)) (proc.getenv host "SYNERGY_WHOLESALE_RESELLER_ID") in
  let key := resolved (apiKey (vars fl)) (proc.getenv host "SYNERGY_WHOLESALE_API_KEY") in
  let level := if debugLogging fl then slog.LevelDebug else slog.LevelInfo in
  let readRid :=
    if String.eqb (resellerID (vars fl)) ""
    then [proc.EnvRead "SYNERGY_WHOLESALE_RESELLER_ID"] else [] in
  let readKey :=
    if String.eqb (apiKey (vars fl)) ""
    then [proc.EnvRead "SYNERGY_WHOLESALE_API_KEY"] else [] in
  printVersion fl = false ->
  rid <> "" -> key <> "" ->
  utf8.ValidString version = true -> utf8.ValidString (proc.goVersion host) = true ->
  proc.run host (main version) fl []
  = (match proc.listen host (listenAddress fl) with
     | None => proc.Serving
     | Some _ => proc.Exited 0
     end,
     mkFlags (mkGlobals (listDomainsResponse (vars fl)) (cacheExpires (vars fl)) rid key
                        (cacheTTLSeconds (vars fl)))
             (listenAddress fl) false (debugLogging fl) (jsonLogging fl),
     ([proc.LoggerSet level (jsonLogging fl)] ++ readRid ++ readKey
      ++ [proc.GaugeSet "build_info" [version; proc.goVersion host] 1;
          proc.Registered ["build_info"; "collector"];
          proc.Handled "/metrics"; proc.Handled "/liveness"; proc.Handled "/readiness";
          proc.Logged slog.LevelInfo "Starting web server";
          proc.Listening (listenAddress fl)]
      ++ match proc.listen host (listenAddress fl) with
         | None => []
         | Some _ => [proc.Logged slog.LevelError "Error starting web server"]
         end)%list).
Proof.
  intros rid key level readRid readKey Hv Hr Hk Hv1 Hv2.
  pose proof (main_run host version fl Hv) as H. cbv zeta in H.
  fold rid key level readRid readKey in H.
  apply String.eqb_neq in Hr. apply String.eqb_neq in Hk. rewrite Hr, Hk, Hv1, Hv2 in H.
  cbn [andb negb] in H.
  rewrite H. unfold set_vars, set_apiKey, set_resellerID.
  cbn [listDomainsResponse cacheExpires resellerID apiKey cacheTTLSeconds].
  rewrite Hv. reflexivity.
Qed.

Lemma main_serves_witness :
  fst (proc.run exampleHost (main "development") keyFlags [])
  = (proc.Serving,
     mkFlags (initialGlobals "12345" "flag-key" 3600) ":8080" false true false).
Proof.
  rewrite (main_serves exampleHost "development" keyFlags eq_refl);
    [reflexivity | discriminate | discriminate | reflexivity | reflexivity].
Defined.
